(** * EGI Check-in device flow: model of [utils/checkin_token_device.py]

    The Python module is embedded function by function.  Python values that
    come out of [resp.json()] / [json.load] are terms of [json]; exceptions are
    the constructors of [exn]; the wall clock ([time.time], [time.sleep]), the
    HTTP transport ([requests.post]) and the file system ([open], [os.chmod],
    [os.replace]) are explicit state.

    Time is counted in nanoseconds ([Z]); a duration chosen by the outside
    world (how long a request took, by how much a sleep overshot) is an [N],
    so the clock never runs backwards.  Floating point rounding of
    [time.time()] is not modelled.

    A [str] is the [string] of its UTF-8 bytes and a [float] is a binary64
    value, both as [json.load] produces them. *)

From Stdlib Require Import ZArith List String Ascii Bool Lia Decimal DecimalString.
From Stdlib Require Import QArith Qround Qpower Lqa.
From Stdlib Require DecimalFacts DecimalPos.
From stdpp Require Import base option list strings gmap.
Import ListNotations.

Local Open Scope string_scope.
Local Open Scope list_scope.
Local Open Scope Z_scope.

(** ** Python floats

    A [float] is an IEEE 754 binary64 value: not a number, an infinity, or
    [m * 2^e] with a sign, where [m < 2^53] and [-1074 <= e <= 971]; the
    normal values have [2^52 <= m], the subnormal ones and the zeros have
    [e = -1074]. *)

Inductive pyfloat : Type :=
| FNaN
| FInf (negative : bool)
| FFinite (negative : bool) (m e : Z).

Definition binary64 (m e : Z) : bool :=
  (0 <=? m) && (m <? 2 ^ 53) && (-1074 <=? e) && (e <=? 971)
  && ((2 ^ 52 <=? m) || (e =? -1074)).

Definition float_value (m e : Z) : Q := (inject_Z m * 2 ^ e)%Q.

(** The nearest integer, the even one of two that are equally near. *)
Definition round_half_even (v : Q) : Z :=
  let f := Qfloor v in
  match (v - inject_Z f ?= 1 # 2)%Q with
  | Lt => f
  | Gt => f + 1
  | Eq => if Z.even f then f else f + 1
  end.

(** The binary exponent is raised until the mantissa fits in 53 bits; the
    mantissa is then rounded and a carry out of the 53 bits moves to the next
    exponent.  [None] is the overflow. *)
Fixpoint scale_up (fuel : nat) (v : Q) (e : Z) : option (Z * Z) :=
  if Qfloor (v * 2 ^ (- e))%Q <? 2 ^ 53 then
    let m := round_half_even (v * 2 ^ (- e))%Q in
    if m =? 2 ^ 53 then (if e + 1 <=? 971 then Some (2 ^ 52, e + 1) else None)
    else if e <=? 971 then Some (m, e) else None
  else
    match fuel with
    | O => None
    | S fuel' => scale_up fuel' v (e + 1)
    end.

(** The search starts at most one exponent below the one that fits. *)
Definition round_fraction (r : Q) : option (Z * Z) :=
  if Qnum r =? 0 then Some (0, -1074)
  else
    scale_up 3 r (Z.max (-1074) (Z.log2 (Qnum r) - Z.log2 (Zpos (Qden r)) - 53)).

(** Round to nearest, ties to even: what [float(str)] does to the number a
    decimal text denotes. *)
Definition round_binary64 (v : Q) : option (Z * Z) := round_fraction (Qred v).

(** [float] of the decimal [n * 10^k]. *)
Definition float_of_decimal (negative : bool) (n k : Z) : pyfloat :=
  match round_binary64 (inject_Z n * 10 ^ k)%Q with
  | Some (m, e) => FFinite negative m e
  | None => FInf negative
  end.

Definition reads_as (m e d j : Z) : bool :=
  match round_binary64 (inject_Z d * 10 ^ j)%Q with
  | Some (m', e') => (m' =? m) && (e' =? e)
  | None => false
  end.

(** [float.__repr__] writes the shortest decimal that [float] reads back as
    the same value, the nearest of them if there are several.  At the decimal
    exponent [j] the candidates are the two neighbours of the value among the
    multiples of [10^j]; [j] goes down until one of them is read back. *)
Fixpoint shortest (fuel : nat) (m e j : Z) : Z * Z :=
  let s := (float_value m e * 10 ^ (- j))%Q in
  let lo := Qfloor s in
  let ok_lo := (0 <? lo) && reads_as m e lo j in
  let ok_hi := reads_as m e (lo + 1) j in
  if ok_lo && ok_hi then
    match (s - inject_Z lo ?= 1 # 2)%Q with
    | Lt => (lo, j)
    | Gt => (lo + 1, j)
    | Eq => if Z.even lo then (lo, j) else (lo + 1, j)
    end
  else if ok_lo then (lo, j)
  else if ok_hi then (lo + 1, j)
  else
    match fuel with
    | O => (lo, j)
    | S fuel' => shortest fuel' m e (j - 1)
    end.

(** A decimal exponent above that of the value, from its binary exponent. *)
Definition first_exponent (m e : Z) : Z := (Z.log2 m + e + 1) * 30103 / 100000 + 2.

(** The digits [d] and the exponent [j] of the shortest decimal [d * 10^j] of
    a positive value. *)
Definition float_digits (m e : Z) : Z * Z := shortest 40 m e (first_exponent m e).

(** [int(float)] of a finite value: towards zero. *)
Definition float_trunc (negative : bool) (m e : Z) : Z :=
  let magnitude := if 0 <=? e then m * 2 ^ e else m / 2 ^ (- e) in
  if negative then - magnitude else magnitude.

(** ** Python values *)

Unset Elimination Schemes.
Inductive json : Type :=
| JNull
| JBool (b : bool)
| JInt (n : Z)
| JFloat (f : pyfloat)
| JStr (s : string)
| JArr (items : list json)
| JObj (members : list (string * json)).
Set Elimination Schemes.

(** Python truthiness of a value ([if v:], [v or d]). *)
Definition truthy (v : json) : bool :=
  match v with
  | JNull => false
  | JBool b => b
  | JInt n => negb (n =? 0)
  | JFloat (FFinite _ m _) => negb (m =? 0)
  | JFloat _ => true
  | JStr s => negb (String.eqb s "")
  | JArr l => match l with [] => false | _ => true end
  | JObj l => match l with [] => false | _ => true end
  end.

(** [err == "literal"] and [err in ("a", "b", ...)]: only a [str] equals a
    [str]; comparing any other value with a string is [False], never an
    exception. *)
Definition is_str (v : json) (s : string) : bool :=
  match v with
  | JStr t => String.eqb t s
  | _ => false
  end.

Definition in_strs (v : json) (candidates : list string) : bool :=
  existsb (is_str v) candidates.

(** Dictionaries keep their members in insertion order with unique keys. *)
Fixpoint assoc (k : string) (members : list (string * json)) : option json :=
  match members with
  | [] => None
  | (k', v) :: rest => if String.eqb k k' then Some v else assoc k rest
  end.

(** [d[k] = v] on a dict: overwrite in place, or append. *)
Fixpoint dict_set (k : string) (v : json) (members : list (string * json))
  : list (string * json) :=
  match members with
  | [] => [(k, v)]
  | (k', v') :: rest =>
      if String.eqb k k' then (k', v) :: rest else (k', v') :: dict_set k v rest
  end.

(** [d.update(other)]. *)
Definition dict_update (d other : list (string * json)) : list (string * json) :=
  fold_left (fun acc kv => dict_set (fst kv) (snd kv) acc) other d.

(** ** Exceptions and formatted messages *)

(** A piece of an f-string: literal text, [{v}] ([str]), [{v!r}] ([repr]) or
    an [int]. The pieces are kept apart, so what a message carries can be read
    back from it. *)
Inductive fragment : Type :=
| Lit (s : string)
| FStr (v : json)
| FRepr (v : json)
| FInt (n : Z).

Definition message := list fragment.

Inductive exn : Type :=
| TimeoutError (msg : message)
| RuntimeError (msg : message)
| HTTPError (status : Z)
| RequestException
| JSONDecodeError
| AttributeError
| KeyError (key : string)
| TypeError
| ValueError
| OverflowError
| FileNotFoundError (path : string)
| PermissionError (path : string).

Inductive result (A : Type) : Type :=
| Ok (a : A)
| Raise (e : exn).
Arguments Ok {A} a.
Arguments Raise {A} e.

#[global] Instance result_ret : MRet result := fun A a => Ok a.
#[global] Instance result_bind : MBind result := fun A B k r =>
  match r with
  | Ok a => k a
  | Raise e => Raise e
  end.

(** [body.get(key)]: [None] for a missing key; a value that is not a dict has
    no [get]. *)
Definition py_get (body : json) (key : string) : result json :=
  match body with
  | JObj members => Ok (default JNull (assoc key members))
  | _ => Raise AttributeError
  end.

(** ** The HTTP transport *)

Definition REALM_BASE : string :=
  "https://aai.egi.eu/auth/realms/egi/protocol/openid-connect".
Definition DEVICE_ENDPOINT : string := REALM_BASE +:+ "/auth/device".
Definition TOKEN_ENDPOINT : string := REALM_BASE +:+ "/token".

Definition DEFAULT_CLIENT_ID : string := "oidc-agent".
Definition DEFAULT_SCOPE : string := "openid offline_access profile email".
Definition DEFAULT_TOKENS_PATH : string := "tokens_egi.json".

Record request : Type := {
  url : string;
  headers : list (string * string);
  data : list (string * json)
}.

(** What [requests.post] hands back: the status line, the raw body
    ([resp.text]) and what [resp.json()] makes of it ([None]: the body is not
    JSON and [resp.json()] raises). *)
Record response : Type := {
  status_code : Z;
  text : string;
  json_body : option json
}.

Definition resp_json (r : response) : result json :=
  match json_body r with
  | Some v => Ok v
  | None => Raise JSONDecodeError
  end.

(** [resp.raise_for_status()]: 4xx and 5xx raise. *)
Definition raise_for_status (r : response) : result unit :=
  if (400 <=? status_code r) && (status_code r <? 600)
  then Raise (HTTPError (status_code r))
  else Ok tt.

(** One exchange with the server as the outside world plays it: the reply (or
    a transport failure), how long the call blocked, and by how much the
    following [time.sleep] overshot the time asked for. *)
Inductive reply : Type :=
| Answer (r : response)
| Unreachable.

Record round : Type := {
  served : reply;
  rtt : N;
  oversleep : N
}.

Definition form_urlencoded : list (string * string) :=
  [("Content-Type", "application/x-www-form-urlencoded")].

(** [if audience: data["audience"] = audience]. *)
Definition with_audience (audience : option string) (d : list (string * json))
  : list (string * json) :=
  match audience with
  | Some a => if String.eqb a "" then d else d ++ [("audience", JStr a)]
  | None => d
  end.

(** ** The poll loop *)

Definition NS_PER_SEC : Z := 1000000000.

Record poll_state : Type := {
  clock : Z;                 (* what time.time() reads now, in ns *)
  current_interval : Z;      (* seconds *)
  sent : list request        (* POSTs issued so far, oldest first *)
}.

(** How a call ends: it returns, raises, leaves through [sys.exit], or the
    script of rounds ran out before it was done. *)
Inductive outcome (A : Type) : Type :=
| Returned (a : A)
| Raised (e : exn)
| Exited (code : Z)
| Starved.
Arguments Returned {A} a.
Arguments Raised {A} e.
Arguments Exited {A} code.
Arguments Starved {A}.

Inductive step : Type :=
| Continue (st : poll_state)
| Stop (o : outcome json) (st : poll_state).

Definition token_request (device_code : json) (client_id : string)
    (audience : option string) : request :=
  {| url := TOKEN_ENDPOINT;
     headers := form_urlencoded;
     data := with_audience audience
               [("grant_type", JStr "urn:ietf:params:oauth:grant-type:device_code");
                ("device_code", device_code);
                ("client_id", JStr client_id)] |}.

Definition timed_out_msg : message :=
  [Lit "Device code polling timed out. Start the flow again."].

Definition rejected_msg (err body : json) : message :=
  [Lit "Device flow failed: "; FStr err; Lit ": "; FRepr body].

Definition unexpected_msg (status : Z) (body : json) : message :=
  [Lit "Unexpected token response ("; FInt status; Lit "): "; FRepr body].

(** The body of [while True] after the timeout check: lines 92-131. *)
Definition poll_iteration (device_code : json) (client_id : string)
    (audience : option string)
    (st : poll_state) (r : round) : step :=
  let posted :=
    {| clock := clock st + Z.of_N (rtt r);
       current_interval := current_interval st;
       sent := sent st ++ [token_request device_code client_id audience] |} in
  match served r with
  | Unreachable => Stop (Raised RequestException) posted
  | Answer resp =>
      if status_code resp =? 200 then
        match resp_json resp with
        | Ok v => Stop (Returned v) posted
        | Raise e => Stop (Raised e) posted
        end
      else
        match resp_json resp with
        | Raise e =>
            match raise_for_status resp with
            | Raise e' => Stop (Raised e') posted
            | Ok _ => Stop (Raised e) posted
            end
        | Ok body =>
            match py_get body "error" with
            | Raise e => Stop (Raised e) posted
            | Ok err =>
                if in_strs err ["authorization_pending"; "slow_down"] then
                  let interval' :=
                    if is_str err "slow_down"
                    then Z.min (current_interval posted + 5) 30
                    else current_interval posted in
                  Continue
                    {| clock := clock posted + interval' * NS_PER_SEC
                                + Z.of_N (oversleep r);
                       current_interval := interval';
                       sent := sent posted |}
                else if in_strs err ["access_denied"; "expired_token"; "invalid_grant"] then
                  Stop (Raised (RuntimeError (rejected_msg err body))) posted
                else
                  Stop (Raised (RuntimeError (unexpected_msg (status_code resp) body)))
                       posted
            end
        end
  end.

(** [while True]: the timeout check at the top, then one iteration. *)
Fixpoint poll_loop (device_code : json) (client_id : string)
    (audience : option string)
    (timeout_seconds began : Z) (st : poll_state) (script : list round)
  : outcome json * poll_state :=
  if clock st - began >? timeout_seconds * NS_PER_SEC then
    (Raised (TimeoutError timed_out_msg), st)
  else
    match script with
    | [] => (Starved, st)
    | r :: script' =>
        match poll_iteration device_code client_id audience st r with
        | Continue st' =>
            poll_loop device_code client_id audience timeout_seconds began st' script'
        | Stop o st' => (o, st')
        end
    end.

(** The world a call of [poll_token_endpoint] runs in: the clock reading when
    [began] is taken, the time that passes between that reading and the first
    timeout check, and the rounds the server will play. *)
Record poll_world : Type := {
  now : Z;
  startup : N;
  script : list round
}.

(** [int(interval or 5)] for an [int] argument. *)
Definition interval_or_5 (interval : Z) : Z :=
  if interval =? 0 then 5 else interval.

Definition initial_state (interval : Z) (w : poll_world) : poll_state :=
  {| clock := now w + Z.of_N (startup w);
     current_interval := Z.max 5 (interval_or_5 interval);
     sent := [] |}.

Definition poll_token_endpoint (device_code : json) (client_id : string)
    (audience : option string) (interval timeout_seconds : Z) (w : poll_world)
  : outcome json * poll_state :=
  let began := now w in
  poll_loop device_code client_id audience timeout_seconds began
            (initial_state interval w) (script w).

(** Default of the [timeout_seconds] parameter in the signature. *)
Definition poll_default_timeout : Z := 300.

(** ** JSON text: [json.dump(obj, f, indent=2)] and [json.load]

    Every emitter takes the text that follows, which keeps the reader's
    lemmas free of re-association. *)

Definition dquote : ascii := "034"%char.

Definition hex_digit (n : N) : ascii :=
  match n with
  | 0 => "0" | 1 => "1" | 2 => "2" | 3 => "3" | 4 => "4" | 5 => "5" | 6 => "6"
  | 7 => "7" | 8 => "8" | 9 => "9" | 10 => "a" | 11 => "b" | 12 => "c"
  | 13 => "d" | 14 => "e" | _ => "f"
  end%N%char.

(** [lit] followed by [rest]. *)
Fixpoint prepend (lit rest : string) : string :=
  match lit with
  | "" => rest
  | String c lit' => String c (prepend lit' rest)
  end.

(** *** Text

    A Python [str] is a sequence of code points; it is modelled by the
    [string] of its UTF-8 bytes, a surrogate code point (which a [str] may
    hold) being written with three bytes like its neighbours. *)

Definition continuation (c : ascii) : bool :=
  let n := N_of_ascii c in ((128 <=? n) && (n <? 192))%N.

(** The code points of a text.  A byte that starts no sequence stands for
    itself. *)
Fixpoint codepoints (s : string) : list N :=
  match s with
  | "" => []
  | String c s1 =>
      let n := N_of_ascii c in
      let single := n :: codepoints s1 in
      if (n <? 192)%N then single
      else
        match s1 with
        | "" => single
        | String c1 s2 =>
            if negb (continuation c1) then single
            else
              let n1 := (N_of_ascii c1 - 128)%N in
              if (n <? 224)%N then ((n - 192) * 64 + n1)%N :: codepoints s2
              else
                match s2 with
                | "" => single
                | String c2 s3 =>
                    if negb (continuation c2) then single
                    else
                      let n2 := (N_of_ascii c2 - 128)%N in
                      if (n <? 240)%N
                      then ((n - 224) * 4096 + n1 * 64 + n2)%N :: codepoints s3
                      else
                        match s3 with
                        | "" => single
                        | String c3 s4 =>
                            if negb (continuation c3) then single
                            else
                              ((n - 240) * 262144 + n1 * 4096 + n2 * 64
                               + (N_of_ascii c3 - 128))%N :: codepoints s4
                        end
                end
        end
  end.

(** The UTF-8 bytes of a code point. *)
Definition utf8 (cp : N) : string :=
  if (cp <? 128)%N then String (ascii_of_N cp) ""
  else if (cp <? 2048)%N then
    String (ascii_of_N (192 + cp / 64)) (String (ascii_of_N (128 + cp mod 64)) "")
  else if (cp <? 65536)%N then
    String (ascii_of_N (224 + cp / 4096))
      (String (ascii_of_N (128 + cp / 64 mod 64))
         (String (ascii_of_N (128 + cp mod 64)) ""))
  else
    String (ascii_of_N (240 + cp / 262144))
      (String (ascii_of_N (128 + cp / 4096 mod 64))
         (String (ascii_of_N (128 + cp / 64 mod 64))
            (String (ascii_of_N (128 + cp mod 64)) ""))).

Fixpoint text_of (cps : list N) : string :=
  match cps with
  | [] => ""
  | cp :: cps' => prepend (utf8 cp) (text_of cps')
  end.

Definition high_surrogate (cp : N) : bool := ((55296 <=? cp) && (cp <? 56320))%N.
Definition low_surrogate (cp : N) : bool := ((56320 <=? cp) && (cp <? 57344))%N.

(** [\uXXXX], in lower case as [json.dumps] writes it. *)
Definition escape_u (n : N) (rest : string) : string :=
  String "\" (String "u"
    (String (hex_digit (n / 4096)) (String (hex_digit (n / 256 mod 16))
       (String (hex_digit (n / 16 mod 16)) (String (hex_digit (n mod 16)) rest))))).

(** [ESCAPE_DCT] and the [\uXXXX] fallback of [py_encode_basestring_ascii]:
    everything outside [' '..'~'], and the quote and the backslash, is
    escaped; a code point above U+FFFF is written as a surrogate pair. *)
Definition emit_codepoint (cp : N) (rest : string) : string :=
  if (cp =? 34)%N then String "\" (String dquote rest)
  else if (cp =? 92)%N then String "\" (String "\" rest)
  else if (cp =? 8)%N then String "\" (String "b" rest)
  else if (cp =? 12)%N then String "\" (String "f" rest)
  else if (cp =? 10)%N then String "\" (String "n" rest)
  else if (cp =? 13)%N then String "\" (String "r" rest)
  else if (cp =? 9)%N then String "\" (String "t" rest)
  else if ((32 <=? cp) && (cp <=? 126))%N then String (ascii_of_N cp) rest
  else if (cp <? 65536)%N then escape_u cp rest
  else
    let v := (cp - 65536)%N in
    escape_u (55296 + v / 1024) (escape_u (56320 + v mod 1024) rest).

Fixpoint emit_codepoints (cps : list N) (rest : string) : string :=
  match cps with
  | [] => rest
  | cp :: cps' => emit_codepoint cp (emit_codepoints cps' rest)
  end.

Definition emit_chars (s rest : string) : string := emit_codepoints (codepoints s) rest.

Definition emit_string (s rest : string) : string :=
  String dquote (emit_chars s (String dquote rest)).

(** [int.__repr__]. *)
Definition emit_int (n : Z) (rest : string) : string :=
  match n with
  | Z0 => String "0" rest
  | Zpos p => prepend (NilEmpty.string_of_uint (Pos.to_uint p)) rest
  | Zneg p => String "-" (prepend (NilEmpty.string_of_uint (Pos.to_uint p)) rest)
  end.

(** *** Floats as text: [float.__repr__] and [float(str)] *)

Definition digit_char (n : Z) : ascii := ascii_of_N (Z.to_N (48 + n)).

(** The decimal digits of [n], most significant first; [fuel] bounds their
    number. *)
Fixpoint digits_of (fuel : nat) (n : Z) : string :=
  match fuel with
  | O => ""
  | S fuel' =>
      if n <? 10 then String (digit_char n) ""
      else prepend (digits_of fuel' (n / 10)) (String (digit_char (n mod 10)) "")
  end.

Definition decimal_digits (n : Z) : string := digits_of (S (Z.to_nat (Z.log2 n))) n.

Fixpoint zeros (n : nat) (rest : string) : string :=
  match n with
  | O => rest
  | S n' => String "0" (zeros n' rest)
  end.

Fixpoint take_chars (n : nat) (s : string) : string :=
  match n, s with
  | S n', String c s' => String c (take_chars n' s')
  | _, _ => ""
  end.

Fixpoint drop_chars (n : nat) (s : string) : string :=
  match n, s with
  | S n', String _ s' => drop_chars n' s'
  | _, _ => s
  end.

(** The exponent of the scientific form: a sign and two digits at least. *)
Definition emit_exponent (x : Z) (rest : string) : string :=
  String (if x <? 0 then "-"%char else "+"%char)
    (if Z.abs x <? 10 then String "0" (String (digit_char (Z.abs x)) rest)
     else prepend (decimal_digits (Z.abs x)) rest).

(** [float.__repr__] lays the shortest digits out with the decimal point
    [decpt] places after their start: in positional form for
    [-4 < decpt <= 16], in scientific form otherwise. *)
Definition emit_digits (ds : string) (decpt : Z) (rest : string) : string :=
  let nd := Z.of_nat (String.length ds) in
  if (-4 <? decpt) && (decpt <=? 16) then
    if decpt <=? 0 then
      String "0" (String "." (zeros (Z.to_nat (- decpt)) (prepend ds rest)))
    else if decpt <? nd then
      prepend (take_chars (Z.to_nat decpt) ds)
        (String "." (prepend (drop_chars (Z.to_nat decpt) ds) rest))
    else prepend ds (zeros (Z.to_nat (decpt - nd)) (String "." (String "0" rest)))
  else
    match ds with
    | "" => rest
    | String d tl =>
        String d
          (match tl with
           | "" => String "e" (emit_exponent (decpt - 1) rest)
           | _ => String "." (prepend tl (String "e" (emit_exponent (decpt - 1) rest)))
           end)
    end.

(** [float.__repr__], with the names [json.dump] gives the three values that
    are not numbers of JSON. *)
Definition emit_float (f : pyfloat) (rest : string) : string :=
  match f with
  | FNaN => prepend "NaN" rest
  | FInf false => prepend "Infinity" rest
  | FInf true => prepend "-Infinity" rest
  | FFinite negative m e =>
      let body :=
        if m <=? 0 then prepend "0.0" rest
        else
          let ds := decimal_digits (fst (float_digits m e)) in
          emit_digits ds (Z.of_nat (String.length ds) + snd (float_digits m e)) rest in
      if negative then String "-" body else body
  end.

Fixpoint emit_indent (level : nat) (rest : string) : string :=
  match level with
  | O => rest
  | S l => String " " (String " " (emit_indent l rest))
  end.

Definition emit_newline (level : nat) (rest : string) : string :=
  String "010" (emit_indent level rest).

(** [_iterencode] with [indent=2]: a comma between items, a colon and a
    space after a key, every item on a line of its own, and the two-character
    forms for the empty containers.  [emit_more_items] and
    [emit_more_members] write what follows the first item. *)
Definition emit_more_items (level : nat) (emit1 : json -> string -> string)
    (rest : string) : list json -> string :=
  fix more (l : list json) : string :=
    match l with
    | [] => emit_newline level (String "]" rest)
    | y :: l' => String "," (emit_newline (S level) (emit1 y (more l')))
    end.

Definition emit_member (emit1 : json -> string -> string) (k : string) (v : json)
    (rest : string) : string :=
  emit_string k (String ":" (String " " (emit1 v rest))).

Definition emit_more_members (level : nat) (emit1 : json -> string -> string)
    (rest : string) : list (string * json) -> string :=
  fix more (l : list (string * json)) : string :=
    match l with
    | [] => emit_newline level (String "}" rest)
    | (k, y) :: l' =>
        String "," (emit_newline (S level) (emit_member emit1 k y (more l')))
    end.

Fixpoint emit (level : nat) (v : json) (rest : string) {struct v} : string :=
  match v with
  | JNull => prepend "null" rest
  | JBool true => prepend "true" rest
  | JBool false => prepend "false" rest
  | JInt n => emit_int n rest
  | JFloat f => emit_float f rest
  | JStr s => emit_string s rest
  | JArr [] => prepend "[]" rest
  | JArr (x :: xs) =>
      String "["
        (emit_newline (S level)
           (emit (S level) x (emit_more_items level (emit (S level)) rest xs)))
  | JObj [] => prepend "{}" rest
  | JObj ((k, x) :: ms) =>
      String "{"
        (emit_newline (S level)
           (emit_member (emit (S level)) k x
              (emit_more_members level (emit (S level)) rest ms)))
  end.

Definition json_dumps (v : json) : string := emit 0 v "".

(** The reader. [WHITESPACE] of the decoder is space, tab, LF and CR. *)
Definition is_ws (c : ascii) : bool :=
  let n := N_of_ascii c in
  ((n =? 32) || (n =? 9) || (n =? 10) || (n =? 13))%N.

Fixpoint skip_ws (s : string) : string :=
  match s with
  | "" => ""
  | String c s' => if is_ws c then skip_ws s' else s
  end.

Fixpoint strip_prefix (lit s : string) : option string :=
  match lit, s with
  | "", _ => Some s
  | String a lit', String b s' => if Ascii.eqb a b then strip_prefix lit' s' else None
  | String _ _, "" => None
  end.

Definition hex_value (c : ascii) : option N :=
  let n := N_of_ascii c in
  if ((48 <=? n) && (n <=? 57))%N then Some (n - 48)%N
  else if ((97 <=? n) && (n <=? 102))%N then Some (n - 87)%N
  else if ((65 <=? n) && (n <=? 70))%N then Some (n - 55)%N
  else None.

Definition hex4 (a b c d : ascii) : option N :=
  x ← hex_value a; y ← hex_value b; z ← hex_value c; t ← hex_value d;
  Some (((x * 16 + y) * 16 + z) * 16 + t)%N.

(** [BACKSLASH] of the decoder. *)
Definition unescape (c : ascii) : option ascii :=
  if Ascii.eqb c dquote then Some dquote
  else if Ascii.eqb c "\" then Some "\"%char
  else if Ascii.eqb c "/" then Some "/"%char
  else if Ascii.eqb c "b" then Some "008"%char
  else if Ascii.eqb c "f" then Some "012"%char
  else if Ascii.eqb c "n" then Some "010"%char
  else if Ascii.eqb c "r" then Some "013"%char
  else if Ascii.eqb c "t" then Some "009"%char
  else None.

Definition cons_text (t : string) (r : option (string * string))
  : option (string * string) :=
  match r with
  | Some (s, rest) => Some (prepend t s, rest)
  | None => None
  end.

(** [scanstring] in strict mode, from just after the opening quote.  A high
    surrogate escape followed by a low surrogate escape is one code point. *)
Fixpoint scan_string (s : string) : option (string * string) :=
  match s with
  | "" => None
  | String c s' =>
      if Ascii.eqb c dquote then Some ("", s')
      else if Ascii.eqb c "\" then
        match s' with
        | "" => None
        | String e s'' =>
            match unescape e with
            | Some ch => cons_text (String ch "") (scan_string s'')
            | None =>
                if Ascii.eqb e "u" then
                  match s'' with
                  | String h1 (String h2 (String h3 (String h4 t))) =>
                      match hex4 h1 h2 h3 h4 with
                      | Some n =>
                          let lone := cons_text (utf8 n) (scan_string t) in
                          if high_surrogate n then
                            match t with
                            | "" => lone
                            | String b1 t1 =>
                                if Ascii.eqb b1 "\" then
                                  match t1 with
                                  | "" => lone
                                  | String b2 t2 =>
                                      if Ascii.eqb b2 "u" then
                                        match t2 with
                                        | String g1 (String g2 (String g3 (String g4 t'))) =>
                                            match hex4 g1 g2 g3 g4 with
                                            | Some n2 =>
                                                if low_surrogate n2 then
                                                  cons_text
                                                    (utf8 (65536 + (n - 55296) * 1024
                                                           + (n2 - 56320))%N)
                                                    (scan_string t')
                                                else lone
                                            | None => None
                                            end
                                        | _ => None
                                        end
                                      else lone
                                  end
                                else lone
                            end
                          else lone
                      | None => None
                      end
                  | _ => None
                  end
                else None
            end
        end
      else if (N_of_ascii c <? 32)%N then None
      else cons_text (String c "") (scan_string s')
  end.

Definition is_digit (c : ascii) : bool :=
  let n := N_of_ascii c in ((48 <=? n) && (n <=? 57))%N.

Fixpoint span_digits (s : string) : string * string :=
  match s with
  | "" => ("", "")
  | String c s' =>
      if is_digit c
      then let '(ds, rest) := span_digits s' in (String c ds, rest)
      else ("", s)
  end.

(** A fraction or an exponent follows: no integer. *)
Definition float_follows (s : string) : bool :=
  match s with
  | "" => false
  | String c _ => Ascii.eqb c "." || Ascii.eqb c "e" || Ascii.eqb c "E"
  end.

(** [NUMBER_RE], integer part: an optional minus sign, then a lone zero or
    digits that do not start with zero. *)
Definition scan_digits (s : string) : option (N * string) :=
  let '(ds, rest) := span_digits s in
  match ds with
  | "" => None
  | String d ds' =>
      if Ascii.eqb d "0" && negb (String.eqb ds' "") then None
      else if float_follows rest then None
      else n ← NilEmpty.uint_of_string ds; Some (N.of_uint n, rest)
  end.

Definition scan_int (s : string) : option (Z * string) :=
  match s with
  | "" => None
  | String c s' =>
      if Ascii.eqb c "-"
      then '(n, rest) ← scan_digits s'; Some (- Z.of_N n, rest)
      else '(n, rest) ← scan_digits s; Some (Z.of_N n, rest)
  end.

Fixpoint digits_value (acc : Z) (s : string) : Z :=
  match s with
  | "" => acc
  | String c s' => digits_value (acc * 10 + (Z.of_N (N_of_ascii c) - 48)) s'
  end.

(** [NUMBER_RE], the fraction: a point and one digit at least. *)
Definition scan_fraction (s : string) : string * string :=
  match s with
  | "" => ("", s)
  | String c s' =>
      if Ascii.eqb c "." then
        match span_digits s' with
        | ("", _) => ("", s)
        | (fs, rest) => (fs, rest)
        end
      else ("", s)
  end.

(** [NUMBER_RE], the exponent: [e] or [E], a sign if any, one digit at least. *)
Definition scan_exponent (s : string) : option Z * string :=
  match s with
  | "" => (None, s)
  | String c s' =>
      if Ascii.eqb c "e" || Ascii.eqb c "E" then
        let '(negative, s'') :=
          match s' with
          | "" => (false, s')
          | String sign t =>
              if Ascii.eqb sign "-" then (true, t)
              else if Ascii.eqb sign "+" then (false, t)
              else (false, s')
          end in
        match span_digits s'' with
        | ("", _) => (None, s)
        | (es, rest) =>
            (Some (if negative : bool then - digits_value 0 es else digits_value 0 es),
             rest)
        end
      else (None, s)
  end.

(** A number with a fraction or an exponent: [float(integer + frac + exp)]. *)
Definition scan_magnitude (negative : bool) (s : string) : option (pyfloat * string) :=
  let '(ds, r1) := span_digits s in
  match ds with
  | "" => None
  | String d ds' =>
      if Ascii.eqb d "0" && negb (String.eqb ds' "") then None
      else
        let '(fs, r2) := scan_fraction r1 in
        let '(ex, r3) := scan_exponent r2 in
        match fs, ex with
        | "", None => None
        | _, _ =>
            Some (float_of_decimal negative (digits_value (digits_value 0 ds) fs)
                    (default 0 ex - Z.of_nat (String.length fs)),
                  r3)
        end
  end.

Definition scan_float (s : string) : option (pyfloat * string) :=
  match s with
  | "" => None
  | String c s' =>
      if Ascii.eqb c "-" then scan_magnitude true s' else scan_magnitude false s
  end.

(** [JSONObject] builds the dict by inserting the pairs in order. *)
Definition dict_of_pairs (pairs : list (string * json)) : list (string * json) :=
  fold_left (fun acc kv => dict_set (fst kv) (snd kv) acc) pairs [].

(** [scan_once], [JSONArray] and [JSONObject]: a number without fraction and
    exponent is an [int], any other a [float], and [NaN], [Infinity] and
    [-Infinity] are read as [json.dump] writes them.  [fuel] bounds the
    number of calls; the length of the text is always enough. *)
Fixpoint parse_value (fuel : nat) (s : string) {struct fuel} : option (json * string) :=
  match fuel with
  | O => None
  | S fuel' =>
      match s with
      | "" => None
      | String c s' =>
          if Ascii.eqb c "n" then rest ← strip_prefix "ull" s'; Some (JNull, rest)
          else if Ascii.eqb c "t" then rest ← strip_prefix "rue" s'; Some (JBool true, rest)
          else if Ascii.eqb c "f" then rest ← strip_prefix "alse" s'; Some (JBool false, rest)
          else if Ascii.eqb c dquote then
            '(str, rest) ← scan_string s'; Some (JStr str, rest)
          else if Ascii.eqb c "[" then
            match skip_ws s' with
            | "" => None
            | String c1 s1 =>
                if Ascii.eqb c1 "]" then Some (JArr [], s1)
                else '(items, rest) ← parse_items fuel' (String c1 s1);
                     Some (JArr items, rest)
            end
          else if Ascii.eqb c "{" then
            match skip_ws s' with
            | "" => None
            | String c1 s1 =>
                if Ascii.eqb c1 "}" then Some (JObj [], s1)
                else '(pairs, rest) ← parse_members fuel' (String c1 s1);
                     Some (JObj (dict_of_pairs pairs), rest)
            end
          else if Ascii.eqb c "N" then
            rest ← strip_prefix "aN" s'; Some (JFloat FNaN, rest)
          else if Ascii.eqb c "I" then
            rest ← strip_prefix "nfinity" s'; Some (JFloat (FInf false), rest)
          else
            match scan_int s with
            | Some (n, rest) => Some (JInt n, rest)
            | None =>
                match scan_float s with
                | Some (f, rest) => Some (JFloat f, rest)
                | None =>
                    if Ascii.eqb c "-" then
                      rest ← strip_prefix "Infinity" s'; Some (JFloat (FInf true), rest)
                    else None
                end
            end
      end
  end
with parse_items (fuel : nat) (s : string) {struct fuel} : option (list json * string) :=
  match fuel with
  | O => None
  | S fuel' =>
      '(v, s1) ← parse_value fuel' s;
      match skip_ws s1 with
      | "" => None
      | String c s2 =>
          if Ascii.eqb c "]" then Some ([v], s2)
          else if Ascii.eqb c "," then
            '(vs, rest) ← parse_items fuel' (skip_ws s2); Some (v :: vs, rest)
          else None
      end
  end
with parse_members (fuel : nat) (s : string) {struct fuel}
  : option (list (string * json) * string) :=
  match fuel with
  | O => None
  | S fuel' =>
      match s with
      | "" => None
      | String q s0 =>
          if negb (Ascii.eqb q dquote) then None
          else
            '(k, s1) ← scan_string s0;
            match skip_ws s1 with
            | "" => None
            | String colon s2 =>
                if negb (Ascii.eqb colon ":") then None
                else
                  '(v, s3) ← parse_value fuel' (skip_ws s2);
                  match skip_ws s3 with
                  | "" => None
                  | String c s4 =>
                      if Ascii.eqb c "}" then Some ([(k, v)], s4)
                      else if Ascii.eqb c "," then
                        '(kvs, rest) ← parse_members fuel' (skip_ws s4);
                        Some ((k, v) :: kvs, rest)
                      else None
                  end
            end
      end
  end.

(** [json.loads]: one value, white space around it, nothing else. *)
Definition json_loads (s : string) : option json :=
  '(v, rest) ← parse_value (S (String.length s)) (skip_ws s);
  match skip_ws rest with
  | "" => Some v
  | String _ _ => None
  end.

(** ** The file system

    A flat name space of regular files, seen by a process that owns every
    file it meets and is not root.  [mode] holds the permission bits and
    [content] the text of the file, as reading it in text mode gives it. *)

Record file : Type := {
  mode : Z;
  content : string
}.

Definition owner_can_read (f : file) : bool := Z.testbit (mode f) 8.   (* 0o400 *)
Definition owner_can_write (f : file) : bool := Z.testbit (mode f) 7.  (* 0o200 *)

(** Bits that let the group or anybody else read, write or execute: 0o077. *)
Definition GROUP_OTHER : Z := 63.
Definition MODE_0600 : Z := 384.
Definition MODE_0666 : Z := 438.

Definition private (f : file) : Prop := Z.land (mode f) GROUP_OTHER = 0.

Inductive syscall : Type :=
| Creat (p : string)              (* open(p, "w"): create with 0666 & ~umask, or truncate *)
| Write (p : string) (s : string) (* the buffered text reaches the file *)
| Chmod (p : string) (m : Z)
| Rename (src dst : string).      (* os.replace *)

Definition exec (umask : Z) (c : syscall) (d : gmap string file)
  : result (gmap string file) :=
  match c with
  | Creat p =>
      match d !! p with
      | Some f =>
          if owner_can_write f
          then Ok (<[p := {| mode := mode f; content := "" |}]> d)
          else Raise (PermissionError p)
      | None =>
          Ok (<[p := {| mode := Z.land MODE_0666 (Z.lnot umask); content := "" |}]> d)
      end
  | Write p s =>
      match d !! p with
      | Some f => Ok (<[p := {| mode := mode f; content := content f +:+ s |}]> d)
      | None => Raise (FileNotFoundError p)
      end
  | Chmod p m =>
      match d !! p with
      | Some f => Ok (<[p := {| mode := m; content := content f |}]> d)
      | None => Raise (FileNotFoundError p)
      end
  | Rename src dst =>
      match d !! src with
      | Some f => Ok (<[dst := f]> (delete src d))
      | None => Raise (FileNotFoundError src)
      end
  end.

(** Run the calls in order; the first exception ends the run and leaves the
    disk as it was at that point. *)
Fixpoint run_calls (umask : Z) (calls : list syscall) (d : gmap string file)
  : result unit * gmap string file :=
  match calls with
  | [] => (Ok tt, d)
  | c :: calls' =>
      match exec umask c d with
      | Ok d' => run_calls umask calls' d'
      | Raise e => (Raise e, d)
      end
  end.

(** The disk after each call that completed: what another process can see
    while the run is under way. *)
Fixpoint disk_states (umask : Z) (calls : list syscall) (d : gmap string file)
  : list (gmap string file) :=
  match calls with
  | [] => []
  | c :: calls' =>
      match exec umask c d with
      | Ok d' => d' :: disk_states umask calls' d'
      | Raise _ => []
      end
  end.

Definition tmp_of (path : string) : string := path +:+ ".tmp".

(** [save_tokens]: the text is buffered by the file object and written when
    the [with] block closes it (a payload larger than the buffer reaches the
    file in several pieces instead). *)
Definition save_tokens_calls (tokens : json) (path : string) : list syscall :=
  let tmp := tmp_of path in
  [Creat tmp;
   Write tmp (emit 0 tokens (String "010" ""));
   Chmod tmp MODE_0600;
   Rename tmp path].

Definition save_tokens (umask : Z) (tokens : json) (path : string)
    (d : gmap string file) : result unit * gmap string file :=
  run_calls umask (save_tokens_calls tokens path) d.

Definition load_tokens (path : string) (d : gmap string file) : result json :=
  match d !! path with
  | None => Raise (FileNotFoundError path)
  | Some f =>
      if owner_can_read f then
        match json_loads (content f) with
        | Some v => Ok v
        | None => Raise JSONDecodeError
        end
      else Raise (PermissionError path)
  end.

(** ** The process and its world *)

Inductive stream : Type := Stdout | Stderr.

Record world : Type := {
  time : Z;                          (* the wall clock, ns *)
  lag : N;                           (* from the poll loop's first clock reading to its first check *)
  net : list round;                  (* what the server will answer, in order *)
  wire : list request;               (* requests sent so far, oldest first *)
  umask : Z;
  disk : gmap string file;
  console : list (stream * message)  (* lines printed so far, oldest first *)
}.

Definition prog (A : Type) : Type := world -> outcome A * world.

Definition ret {A} (a : A) : prog A := fun w => (Returned a, w).

Definition andthen {A B} (m : prog A) (k : A -> prog B) : prog B := fun w =>
  match m w with
  | (Returned a, w') => k a w'
  | (Raised e, w') => (Raised e, w')
  | (Exited c, w') => (Exited c, w')
  | (Starved, w') => (Starved, w')
  end.

Notation "'do' x <~ m ; k" := (andthen m (fun x => k))
  (at level 10, x name, m at level 100, k at level 200).
Notation "'run' m ; k" := (andthen m (fun _ => k))
  (at level 10, m at level 100, k at level 200).

Definition lift {A} (r : result A) : prog A := fun w =>
  match r with
  | Ok a => (Returned a, w)
  | Raise e => (Raised e, w)
  end.

Definition sys_exit {A} (code : Z) : prog A := fun w => (Exited code, w).

Definition print_to (s : stream) (msg : message) : prog unit := fun w =>
  (Returned tt,
   {| time := time w; lag := lag w; net := net w; wire := wire w;
      umask := umask w; disk := disk w; console := console w ++ [(s, msg)] |}).

Definition print (msg : message) : prog unit := print_to Stdout msg.
Definition eprint (msg : message) : prog unit := print_to Stderr msg.

(** [requests.post]: the request goes out, the call blocks for the round
    trip, and the server's next answer comes back. *)
Definition post (rq : request) : prog response := fun w =>
  match net w with
  | [] => (Starved, w)
  | r :: rest =>
      let w' := {| time := time w + Z.of_N (rtt r); lag := lag w; net := rest;
                   wire := wire w ++ [rq]; umask := umask w; disk := disk w;
                   console := console w |} in
      match served r with
      | Answer resp => (Returned resp, w')
      | Unreachable => (Raised RequestException, w')
      end
  end.

Definition on_disk (f : Z -> gmap string file -> result unit * gmap string file)
  : prog unit := fun w =>
  let '(r, d) := f (umask w) (disk w) in
  let w' := {| time := time w; lag := lag w; net := net w; wire := wire w;
               umask := umask w; disk := d; console := console w |} in
  match r with
  | Ok _ => (Returned tt, w')
  | Raise e => (Raised e, w')
  end.

(** ** Device authorization *)

Definition device_request (client_id scope : string) (audience : option string)
  : request :=
  {| url := DEVICE_ENDPOINT;
     headers := form_urlencoded;
     data := with_audience audience
               [("client_id", JStr client_id); ("scope", JStr scope)] |}.

Definition start_device_flow (client_id scope : string) (audience : option string)
  : prog json :=
  do resp <~ post (device_request client_id scope audience);
  run lift (raise_for_status resp);
  lift (resp_json resp).

(** [resp[key]]. *)
Definition py_index (v : json) (key : string) : result json :=
  match v with
  | JObj members =>
      match assoc key members with
      | Some x => Ok x
      | None => Raise (KeyError key)
      end
  | _ => Raise TypeError
  end.

(** [resp.get(key, fallback)]. *)
Definition py_get_or (v : json) (key : string) (fallback : json) : result json :=
  match v with
  | JObj members => Ok (default fallback (assoc key members))
  | _ => Raise AttributeError
  end.

(** [int(str)] reads code points: white space around (the ASCII blanks and
    the Unicode spaces above U+007F), a sign, decimal digits of any script,
    single underscores between digits. *)
Definition is_pyspace (cp : N) : bool :=
  (((9 <=? cp) && (cp <=? 13)) || (cp =? 32) || (cp =? 133) || (cp =? 160)
   || (cp =? 5760) || ((8192 <=? cp) && (cp <=? 8202)) || (cp =? 8232)
   || (cp =? 8233) || (cp =? 8239) || (cp =? 8287) || (cp =? 12288))%N.

(** The zeros of the decimal digits of Unicode 14 ([unicodedata.decimal]);
    the nine code points after each are its digits 1 to 9. *)
Definition decimal_zeros : list N :=
  [48; 1632; 1776; 1984; 2406; 2534; 2662; 2790; 2918; 3046; 3174; 3302; 3430;
   3558; 3664; 3792; 3872; 4160; 4240; 6112; 6160; 6470; 6608; 6784; 6800; 6992;
   7088; 7232; 7248; 42528; 43216; 43264; 43472; 43504; 43600; 44016; 65296;
   66720; 68912; 69734; 69872; 69942; 70096; 70384; 70736; 70864; 71248; 71360;
   71472; 71904; 72016; 72784; 73040; 73120; 92768; 92864; 93008; 120782;
   120792; 120802; 120812; 120822; 123200; 123632; 125264; 130032]%N.

Definition decimal_of (cp : N) : option N :=
  match filter (fun z => (z <=? cp) && (cp <? z + 10))%N decimal_zeros with
  | z :: _ => Some (cp - z)%N
  | [] => None
  end.

Fixpoint lstrip (s : list N) : list N :=
  match s with
  | [] => []
  | cp :: s' => if is_pyspace cp then lstrip s' else s
  end.

Definition strip (s : list N) : list N := rev (lstrip (rev (lstrip s))).

Fixpoint int_digits (s : list N) (acc : N) (after_digit : bool) : option N :=
  match s with
  | [] => if after_digit then Some acc else None
  | cp :: s' =>
      match decimal_of cp with
      | Some d => int_digits s' (acc * 10 + d)%N true
      | None =>
          if (cp =? 95)%N && after_digit then int_digits s' acc false else None
      end
  end.

Definition int_of_pystr (s : string) : option Z :=
  match strip (codepoints s) with
  | [] => None
  | cp :: s' =>
      if (cp =? 45)%N then n ← int_digits s' 0%N false; Some (- Z.of_N n)
      else if (cp =? 43)%N then n ← int_digits s' 0%N false; Some (Z.of_N n)
      else n ← int_digits (cp :: s') 0%N false; Some (Z.of_N n)
  end.

(** [int(v)]: a [float] is cut towards zero; not a number and the infinities
    have no integer. *)
Definition py_int (v : json) : result Z :=
  match v with
  | JInt n => Ok n
  | JBool b => Ok (if b then 1 else 0)
  | JFloat FNaN => Raise ValueError
  | JFloat (FInf _) => Raise OverflowError
  | JFloat (FFinite negative m e) => Ok (float_trunc negative m e)
  | JStr s =>
      match int_of_pystr s with
      | Some n => Ok n
      | None => Raise ValueError
      end
  | _ => Raise TypeError
  end.

(** The poll loop inside the process: it starts on the process clock and eats
    rounds off the net. *)
Definition poll (device_code : json) (client_id : string) (audience : option string)
    (interval timeout_seconds : Z) : prog json := fun w =>
  let '(o, st) :=
    poll_token_endpoint device_code client_id audience interval timeout_seconds
      {| now := time w; startup := lag w; script := net w |} in
  (o, {| time := clock st; lag := lag w;
         net := drop (length (sent st)) (net w);
         wire := wire w ++ sent st;
         umask := umask w; disk := disk w; console := console w |}).

(** The arguments [run_device_flow] calls [poll_token_endpoint] with. *)
Record poll_call : Type := {
  call_device_code : json;
  call_interval : Z;
  call_timeout_seconds : Z
}.

Definition poll_call_of (resp : json) : result poll_call :=
  device_code ← py_index resp "device_code";
  v ← py_get_or resp "interval" (JInt 5);
  interval ← py_int v;
  Ok {| call_device_code := device_code;
        call_interval := interval;
        call_timeout_seconds := 900 |}.  (* 15 minutes cap *)

(** [tokens.get(key, "")[:20] + "..." if tokens.get(key) else None]. *)
Definition preview (tokens : json) (key : string) : result json :=
  v ← py_get tokens key;
  if truthy v then
    match v with
    | JStr s => Ok (JStr (prepend (text_of (firstn 20 (codepoints s))) "..."))
    | _ => Raise TypeError
    end
  else Ok JNull.

(** The printed lines keep their wording; blank lines and the ellipsis
    character of the first one are left out of the literals. *)
Definition run_device_flow (client_id scope : string) (audience : option string)
  : prog json :=
  run print [Lit "[1/3] Requesting device code from EGI Check-in as client_id='";
             FStr (JStr client_id); Lit "' ..."];
  do resp <~ start_device_flow client_id scope audience;
  do call <~ lift (poll_call_of resp);
  do user_code <~ lift (py_get resp "user_code");
  do verify_uri <~ lift (py_get resp "verification_uri");
  do verify_uri_c <~ lift (py_get_or resp "verification_uri_complete" verify_uri);
  run print [Lit "[2/3] Please authorize this application:"];
  run print [Lit "  User code:            "; FStr user_code];
  run print [Lit "  Verification URL:     "; FStr verify_uri];
  run print [Lit "  Or open directly:     "; FStr verify_uri_c];
  run print [Lit "[3/3] Polling token endpoint every "; FInt (call_interval call);
             Lit "s ... (Ctrl+C to abort)"];
  do tokens <~ poll (call_device_code call) client_id audience
                    (call_interval call) (call_timeout_seconds call);
  do at_ <~ lift (preview tokens "access_token");
  do rt <~ lift (preview tokens "refresh_token");
  do idt <~ lift (preview tokens "id_token");
  do expires <~ lift (py_get tokens "expires_in");
  run print [Lit "Success! Received tokens:"];
  run print [Lit "  access_token:  "; FStr at_];
  run print [Lit "  refresh_token: "; FStr rt];
  run print [Lit "  id_token:      "; FStr idt];
  run print [Lit "  expires_in:    "; FStr expires; Lit " seconds"];
  run (match assoc "refresh_expires_in"
               (match tokens with JObj ms => ms | _ => [] end) with
       | Some v => print [Lit "  refresh_expires_in: "; FStr v; Lit " seconds"]
       | None => ret tt
       end);
  ret tokens.

(** ** Refresh and revocation *)

Definition refresh_request (refresh_token : json) (client_id : string)
    (audience : option string) : request :=
  {| url := TOKEN_ENDPOINT;
     headers := form_urlencoded;
     data := with_audience audience
               [("grant_type", JStr "refresh_token");
                ("client_id", JStr client_id);
                ("refresh_token", refresh_token)] |}.

Definition refresh_failed_msg (status : Z) (body : json) : message :=
  [Lit "Refresh failed ("; FInt status; Lit "): "; FRepr body].

Definition refresh_with_rt (refresh_token : json) (client_id : string)
    (audience : option string) : prog json :=
  do resp <~ post (refresh_request refresh_token client_id audience);
  if negb (status_code resp =? 200) then
    let body :=
      match resp_json resp with
      | Ok v => v
      | Raise _ => JStr (text resp)
      end in
    lift (Raise (RuntimeError (refresh_failed_msg (status_code resp) body)))
  else lift (resp_json resp).

Definition revoke_request (refresh_token access_token client_id : string) : request :=
  {| url := REALM_BASE +:+ "/revocation";
     headers := [("Content-Type", "application/x-www-form-urlencoded");
                 ("Authorization", "Bearer " +:+ access_token)];
     data := [("token", JStr refresh_token);
              ("token_type_hint", JStr "refresh_token");
              ("client_id", JStr client_id)] |}.

Definition revoke_token (refresh_token access_token client_id : string)
  : prog response :=
  post (revoke_request refresh_token access_token client_id).

(** ** The command line *)

Inductive action : Type := New | Refresh | Revoke.

Record args : Type := {
  arg_action : action;
  arg_client_id : string;
  arg_scope : string;
  arg_audience : option string;
  arg_file : string;
  arg_token : option string;
  arg_access_token : option string
}.

(** [if args.token:] and the like: [None] and the empty string are falsy. *)
Definition given (o : option string) : option string :=
  match o with
  | Some s => if String.eqb s "" then None else Some s
  | None => None
  end.

(** [tokens.update(new_tokens)]: a dict is merged in, and an iterable with
    nothing in it (the empty list, the empty [str]) changes nothing.  A [str]
    with characters has items of length one, a [ValueError]; [None], a [bool]
    and a number cannot be iterated, a [TypeError].  (Python also takes a list
    of pairs there; a reply of that shape is reported as a [TypeError]
    here.) *)
Definition py_update (tokens new_tokens : json) : result json :=
  match tokens, new_tokens with
  | JObj ms, JObj ns => Ok (JObj (dict_update ms ns))
  | JObj ms, JArr [] => Ok (JObj ms)
  | JObj ms, JStr s => if String.eqb s "" then Ok (JObj ms) else Raise ValueError
  | JObj _, _ => Raise TypeError
  | _, _ => Raise AttributeError
  end.

Definition main_revoke (a : args) : prog unit :=
  match given (arg_token a), given (arg_access_token a) with
  | Some token, Some access_token =>
      do resp <~ revoke_token token access_token (arg_client_id a);
      if status_code resp =? 200 then
        run print [Lit "Refresh token successfully revoked."];
        sys_exit 0
      else
        run eprint [Lit "Failed to revoke token ("; FInt (status_code resp);
                    Lit "): "; FStr (JStr (text resp))];
        sys_exit 1
  | _, _ =>
      run eprint [Lit "Both --token and --access-token are required for revoke action."];
      sys_exit 2
  end.

Definition main_refresh (a : args) : prog json :=
  do tokens <~
    match given (arg_token a) with
    | Some rt => refresh_with_rt (JStr rt) (arg_client_id a) (arg_audience a)
    | None =>
        do tokens <~ (fun w => lift (load_tokens (arg_file a) (disk w)) w);
        do rt <~ lift (py_get tokens "refresh_token");
        if truthy rt then
          do new_tokens <~ refresh_with_rt rt (arg_client_id a) (arg_audience a);
          lift (py_update tokens new_tokens)
        else
          run eprint [Lit "No refresh_token found in the provided JSON."];
          sys_exit 2
    end;
  do expires <~ lift (py_get tokens "expires_in");
  run print [Lit "Refreshed. New access_token expires in "; FStr expires;
             Lit " seconds."];
  ret tokens.

Definition main_body (a : args) : prog unit :=
  match arg_action a with
  | Revoke => main_revoke a
  | Refresh | New =>
      do tokens <~
        match arg_action a with
        | Refresh => main_refresh a
        | _ => run_device_flow (arg_client_id a) (arg_scope a) (arg_audience a)
        end;
      run on_disk (fun umask d => save_tokens umask tokens (arg_file a) d);
      print [Lit "Tokens saved to: "; FStr (JStr (arg_file a));
             Lit " (permissions 0600)"]
  end.

(** [except Exception as e]: the message goes to stderr and the exit status
    is 1; [sys.exit] is not an [Exception] and passes through. *)
Definition exn_text (e : exn) : message :=
  match e with
  | TimeoutError m | RuntimeError m => m
  | HTTPError st => [Lit "HTTP error "; FInt st]
  | RequestException => [Lit "RequestException"]
  | JSONDecodeError => [Lit "JSONDecodeError"]
  | AttributeError => [Lit "AttributeError"]
  | KeyError k => [FRepr (JStr k)]
  | TypeError => [Lit "TypeError"]
  | ValueError => [Lit "ValueError"]
  | OverflowError => [Lit "OverflowError"]
  | FileNotFoundError p => [Lit "No such file or directory: "; FRepr (JStr p)]
  | PermissionError p => [Lit "Permission denied: "; FRepr (JStr p)]
  end.

(** The exit status of the process, [None] while the script of rounds is too
    short to tell. *)
Definition main (a : args) (w : world) : option Z * world :=
  match main_body a w with
  | (Returned _, w') => (Some 0, w')
  | (Exited code, w') => (Some code, w')
  | (Raised e, w') =>
      (Some 1, snd (eprint (Lit "ERROR: " :: exn_text e) w'))
  | (Starved, w') => (None, w')
  end.

(** * Vocabulary of the statements

    Predicates and measures the properties are stated with, and the sample
    replies, worlds and command lines of the worked examples. *)

(** The server answered with a status other than 200 and a JSON object whose
    [error] member is the string [err]. *)
Definition says (r : round) (err : string) (resp : response) (body : json) : Prop :=
  served r = Answer resp /\
  status_code resp <> 200 /\
  json_body resp = Some body /\
  py_get body "error" = Ok (JStr err).

(** The state right after the POST of an iteration came back. *)
Definition posted (device_code : json) (client_id : string) (audience : option string)
    (st : poll_state) (r : round) : poll_state :=
  {| clock := clock st + Z.of_N (rtt r);
     current_interval := current_interval st;
     sent := sent st ++ [token_request device_code client_id audience] |}.

(** The state after [time.sleep(interval)] at the end of an iteration. *)
Definition slept (interval : Z) (st : poll_state) (r : round) : poll_state :=
  {| clock := clock st + interval * NS_PER_SEC + Z.of_N (oversleep r);
     current_interval := interval;
     sent := sent st |}.

(** Sample answers of the provider, for the worked examples below. *)
Definition error_reply (status : Z) (err : string) : response :=
  let body := JObj [("error", JStr err)] in
  {| status_code := status; text := json_dumps body; json_body := Some body |}.

Definition token_reply (tokens : json) : response :=
  {| status_code := 200; text := json_dumps tokens; json_body := Some tokens |}.

(** A round whose POST takes [took] nanoseconds and whose sleep is exact. *)
Definition answered (resp : response) (took : N) : round :=
  {| served := Answer resp; rtt := took; oversleep := 0 |}.

Definition at_interval (interval : Z) : poll_state :=
  {| clock := 0; current_interval := interval; sent := [] |}.

(** What [body.get("error")] yields for a round that reaches that line. *)
Definition error_of (r : round) : option json :=
  match served r with
  | Answer resp =>
      if status_code resp =? 200 then None
      else
        match json_body resp with
        | Some body =>
            match py_get body "error" with
            | Ok err => Some err
            | Raise _ => None
            end
        | None => None
        end
  | Unreachable => None
  end.

(** The round keeps the loop going: [authorization_pending] or [slow_down]. *)
Definition transient (r : round) : bool :=
  match error_of r with
  | Some err => in_strs err ["authorization_pending"; "slow_down"]
  | None => false
  end.

(** The interval slept at the end of a transient round. *)
Definition next_interval (interval : Z) (r : round) : Z :=
  match error_of r with
  | Some err => if is_str err "slow_down" then Z.min (interval + 5) 30 else interval
  | None => interval
  end.

(** The intervals slept over a run of transient rounds, in seconds. *)
Fixpoint sleeps (interval : Z) (rs : list round) : list Z :=
  match rs with
  | [] => []
  | r :: rs' => let i := next_interval interval r in i :: sleeps i rs'
  end.

Definition total (l : list Z) : Z := foldr Z.add 0 l.

Definition step_state (s : step) : poll_state :=
  match s with
  | Continue st => st
  | Stop _ st => st
  end.

Definition pending_400 : response := error_reply 400 "authorization_pending".

Definition device_reply_d1 : list (string * json) :=
  [("device_code", JStr "d1"); ("interval", JInt 7); ("user_code", JStr "U1");
   ("verification_uri", JStr "https://x/d"); ("expires_in", JInt 600)].

(** What the failed refresh reports as the body: the JSON if the body parses,
    the raw text otherwise. *)
Definition reported_body (resp : response) : json :=
  match json_body resp with
  | Some v => v
  | None => JStr (text resp)
  end.

Definition demo_tokens : json :=
  JObj [("access_token", JStr "a1"); ("refresh_token", JStr "r1");
        ("expires_in", JInt 3600)].

(** The provider hands out the device code [d1] with an interval of 7
    seconds, answers the first poll with [authorization_pending] and the
    second with the tokens. *)
Definition d1_world : world :=
  {| time := 0; lag := 0;
     net := [answered (token_reply (JObj device_reply_d1)) 0;
             answered pending_400 0; answered (token_reply demo_tokens) 0];
     wire := []; umask := 18; disk := ∅; console := [] |}.

(** A process with the usual umask 022, nothing sent or printed yet. *)
Definition fresh_world (rounds : list round) (d : gmap string file) : world :=
  {| time := 0; lag := 0; net := rounds; wire := []; umask := 18;
     disk := d; console := [] |}.

Definition saved_disk : gmap string file :=
  {[ DEFAULT_TOKENS_PATH :=
       {| mode := MODE_0600; content := emit 0 demo_tokens (String "010" "") |} ]}.

Definition refresh_args : args :=
  {| arg_action := Refresh; arg_client_id := DEFAULT_CLIENT_ID;
     arg_scope := DEFAULT_SCOPE; arg_audience := None;
     arg_file := DEFAULT_TOKENS_PATH; arg_token := None;
     arg_access_token := None |}.

Definition bad_grant_world : world :=
  fresh_world [answered (error_reply 400 "invalid_grant") 0] saved_disk.

Definition revoke_args : args :=
  {| arg_action := Revoke; arg_client_id := DEFAULT_CLIENT_ID;
     arg_scope := DEFAULT_SCOPE; arg_audience := None;
     arg_file := DEFAULT_TOKENS_PATH; arg_token := Some "r1";
     arg_access_token := Some "a1" |}.

Definition refused_400 : response :=
  {| status_code := 400; text := "unsupported_token_type"; json_body := None |}.

Definition refusing_world : world := fresh_world [answered refused_400 0] saved_disk.

(** The file [save_tokens] leaves behind. *)
Definition saved_file (tokens : json) : file :=
  {| mode := MODE_0600; content := emit 0 tokens (String "010" "") |}.

(** The mode of the temporary file while it is written: its old mode if it
    was there, else what the umask leaves of 0666. *)
Definition tmp_mode (umask : Z) (path : string) (d : gmap string file) : Z :=
  match d !! tmp_of path with
  | Some f => mode f
  | None => Z.land MODE_0666 (Z.lnot umask)
  end.

Definition tmp_writable (path : string) (d : gmap string file) : Prop :=
  match d !! tmp_of path with
  | Some f => owner_can_write f = true
  | None => True
  end.

(** Anybody may read the file: the 0o004 bit. *)
Definition world_readable (f : file) : bool := Z.testbit (mode f) 2.

(** A dict has no key twice: the values of [json] that stand for Python
    values. *)
Fixpoint distinct (keys : list string) : bool :=
  match keys with
  | [] => true
  | k :: keys' => negb (existsb (String.eqb k) keys') && distinct keys'
  end.

(** A code point: up to U+10FFFF. *)
Definition codepoint_ok (cp : N) : bool := (cp <? 1114112)%N.

(** No high surrogate is followed by a low one: the two would be read back
    as one code point. *)
Fixpoint no_split_pair (cps : list N) : bool :=
  match cps with
  | [] => true
  | cp :: cps' =>
      negb (high_surrogate cp
            && match cps' with
               | cp2 :: _ => low_surrogate cp2
               | [] => false
               end)
      && no_split_pair cps'
  end.

(** What follows a high surrogate escape: nothing of interest ([None]), a
    broken escape ([Some None]) or the escape of [n2]. *)
Definition pair_ahead (t : string) : option (option (N * string)) :=
  match t with
  | "" => None
  | String b1 t1 =>
      if Ascii.eqb b1 "\" then
        match t1 with
        | "" => None
        | String b2 t2 =>
            if Ascii.eqb b2 "u" then
              match t2 with
              | String g1 (String g2 (String g3 (String g4 t'))) =>
                  match hex4 g1 g2 g3 g4 with
                  | Some n2 => Some (Some (n2, t'))
                  | None => Some None
                  end
              | _ => Some None
              end
            else None
        end
      else None
  end.

(** No escape of a low surrogate comes next. *)
Definition no_low_ahead (tail : string) : Prop :=
  match pair_ahead tail with
  | None => True
  | Some None => False
  | Some (Some (n2, _)) => low_surrogate n2 = false
  end.

(** A text that is the UTF-8 of code points up to U+10FFFF, none of them a
    high surrogate followed by a low one. *)
Definition text_ok (s : string) : bool :=
  String.eqb (text_of (codepoints s)) s
  && forallb codepoint_ok (codepoints s)
  && no_split_pair (codepoints s).

(** Digit strings, what follows them, and their first digit. *)
Fixpoint only_digits (s : string) : bool :=
  match s with
  | "" => true
  | String c s' => is_digit c && only_digits s'
  end.

Definition no_digit_ahead (rest : string) : bool :=
  match rest with
  | "" => true
  | String c _ => negb (is_digit c)
  end.

Definition head_nonzero (s : string) : bool :=
  match s with
  | "" => false
  | String c _ => negb (Ascii.eqb c "0")
  end.

(** A [float] in the one form the model gives each value. *)
Definition float_canonical (f : pyfloat) : bool :=
  match f with
  | FFinite _ m e => binary64 m e
  | _ => true
  end.

(** How far below [m * 2^e] the values rounded to it go, in units of [2^e]:
    a quarter just above a power of two, where the floats below are twice as
    dense, a half elsewhere. *)
Definition lower_gap (m e : Z) : Q :=
  if (m =? 2 ^ 52) && negb (e =? -1074) then 1 # 4 else 1 # 2.

(** At the decimal exponent [j] one of the two neighbours of the value is
    read back as the value. *)
Definition candidate (m e j : Z) : Prop :=
  let lo := Qfloor (float_value m e * 10 ^ (- j))%Q in
  (0 <? lo) && reads_as m e lo j = true \/ reads_as m e (lo + 1) j = true.

(** The binary exponents of the finite values, and the test that the first
    decimal exponent tried is at most 17 places above and 24 below the
    decimal exponent of a value with that binary exponent. *)
Definition exponent_range : list Z := map (fun i => Z.of_nat i - 1074) (seq 0 2100).

Definition first_exponent_ok (b : Z) : bool :=
  let first := b * 30103 / 100000 + 2 in
  Qle_bool (2 ^ b) (10 ^ (first + 17)) && Qle_bool (10 ^ (first - 24)) (2 ^ (b - 1)).

(** A value as [json.load] and [resp.json()] make them: every [str] is the
    UTF-8 of code points, with a surrogate pair always in one code point,
    every [float] is in its one form, and no dict has a key twice. *)
Fixpoint well_formed (v : json) : bool :=
  match v with
  | JStr s => text_ok s
  | JFloat f => float_canonical f
  | JArr items => forallb well_formed items
  | JObj members =>
      distinct (map fst members) && forallb text_ok (map fst members)
      && forallb (fun kv => well_formed (snd kv)) members
  | _ => true
  end.

(** No [float] in the value is not a number. *)
Fixpoint nan_free (v : json) : bool :=
  match v with
  | JFloat FNaN => false
  | JArr items => forallb nan_free items
  | JObj members => forallb (fun kv => nan_free (snd kv)) members
  | _ => true
  end.

(** Python's [==] on two values that share no object, as a payload and what
    is read back from its file: numbers compare by value across [bool], [int]
    and [float], not a number equals nothing, lists compare item by item and
    dicts key by key, in any order. *)
Definition float_eqb (f g : pyfloat) : bool :=
  match f, g with
  | FInf a, FInf b => Bool.eqb a b
  | FFinite a m e, FFinite b m' e' =>
      ((m =? 0) && (m' =? 0)) || (Bool.eqb a b && (m =? m') && (e =? e'))
  | _, _ => false
  end.

Definition float_eq_int (f : pyfloat) (n : Z) : bool :=
  match f with
  | FFinite negative m e =>
      (if negative then - m else m) * 2 ^ Z.max e 0 =? n * 2 ^ Z.max (- e) 0
  | _ => false
  end.

Definition number_of (v : json) : option (Z + pyfloat) :=
  match v with
  | JBool b => Some (inl (if b then 1 else 0))
  | JInt n => Some (inl n)
  | JFloat f => Some (inr f)
  | _ => None
  end.

Definition number_eq (a b : json) : bool :=
  match number_of a, number_of b with
  | Some (inl x), Some (inl y) => x =? y
  | Some (inl x), Some (inr g) => float_eq_int g x
  | Some (inr f), Some (inl y) => float_eq_int f y
  | Some (inr f), Some (inr g) => float_eqb f g
  | _, _ => false
  end.

Fixpoint py_eq (a b : json) {struct a} : bool :=
  match a, b with
  | JNull, JNull => true
  | JStr s, JStr t => String.eqb s t
  | JArr xs, JArr ys =>
      (fix all2 (l1 l2 : list json) : bool :=
         match l1, l2 with
         | [], [] => true
         | x :: l1', y :: l2' => py_eq x y && all2 l1' l2'
         | _, _ => false
         end) xs ys
  | JObj ms, JObj ns =>
      (length ms =? length ns)%nat
      && (fix all (l : list (string * json)) : bool :=
            match l with
            | [] => true
            | (k, x) :: l' =>
                match assoc k ns with
                | Some y => py_eq x y
                | None => false
                end && all l'
            end) ms
  | _, _ => number_eq a b
  end.

(** Calls of the reader a value costs. *)
Fixpoint weight (v : json) : nat :=
  match v with
  | JArr items => S (foldr (fun x n => S (weight x + n)) O items)
  | JObj members => S (foldr (fun kv n => S (weight (snd kv) + n)) O members)
  | _ => 1
  end.

(** The text after a number must not continue it. *)
Definition ends_number (rest : string) : bool :=
  match rest with
  | "" => true
  | String c _ => negb (is_digit c) && negb (float_follows rest)
  end.

(** Induction over [json] with the items and members as hypotheses. *)
Fixpoint json_ind (P : json -> Prop)
    (Hnull : P JNull) (Hbool : forall b, P (JBool b)) (Hint : forall n, P (JInt n))
    (Hfloat : forall f, P (JFloat f)) (Hstr : forall s, P (JStr s))
    (Harr : forall items, Forall P items -> P (JArr items))
    (Hobj : forall members, Forall (fun kv => P (snd kv)) members -> P (JObj members))
    (v : json) {struct v} : P v :=
  let rec := json_ind P Hnull Hbool Hint Hfloat Hstr Harr Hobj in
  match v with
  | JNull => Hnull
  | JBool b => Hbool b
  | JInt n => Hint n
  | JFloat f => Hfloat f
  | JStr s => Hstr s
  | JArr items =>
      Harr items
        ((fix all (l : list json) : Forall P l :=
            match l with
            | [] => @List.Forall_nil _ P
            | x :: l' => @List.Forall_cons _ P x l' (rec x) (all l')
            end) items)
  | JObj members =>
      Hobj members
        ((fix all (l : list (string * json)) : Forall (fun kv => P (snd kv)) l :=
            match l with
            | [] => @List.Forall_nil _ _
            | kv :: l' => @List.Forall_cons _ _ kv l' (rec (snd kv)) (all l')
            end) members)
  end.

(** The characters a written value can start with: none is white space or
    closes a container. *)
Definition opens_value (c : ascii) : bool :=
  is_digit c || Ascii.eqb c "-" || Ascii.eqb c "n" || Ascii.eqb c "t"
  || Ascii.eqb c "f" || Ascii.eqb c "N" || Ascii.eqb c "I" || Ascii.eqb c dquote
  || Ascii.eqb c "[" || Ascii.eqb c "{".

(** What the reader is asked of a value at any nesting level. *)
Definition reads_back (v : json) : Prop :=
  forall level rest fuel,
    well_formed v = true ->
    ends_number rest = true ->
    (weight v <= fuel)%nat ->
    parse_value fuel (emit level v rest) = Some (v, rest).

(** A payload with fields the program does not know: a fraction, an
    infinity, text beyond ASCII (U+00E9, U+20AC, U+1F600, a lone surrogate)
    and nested containers. *)
Definition provider_tokens : json :=
  JObj [("access_token", JStr "a1"); ("refresh_token", JStr "r1");
        ("expires_in", JInt 3600);
        ("not-before-policy", JInt 0);
        ("session_state",
         JStr (String "s" (String dquote
                 (text_of [233; 47; 8364; 128512; 55357; 10]%N))));
        ("expires_at", JFloat (FFinite false 7917583231614976 (-41)));
        ("quota", JFloat (FInf false));
        (text_of [99; 108; 233]%N, JFloat (FFinite true 0 (-1074)));
        ("x_extra", JArr [JNull; JBool true; JInt (-42); JObj []; JArr [];
                          JObj [("deep", JArr [JStr ""])]])].

(** A payload whose [expires_in] is not a number. *)
Definition nan_tokens : json :=
  JObj [("access_token", JStr "a1"); ("expires_in", JFloat FNaN)].

Definition new_args : args :=
  {| arg_action := New; arg_client_id := DEFAULT_CLIENT_ID;
     arg_scope := DEFAULT_SCOPE; arg_audience := None;
     arg_file := DEFAULT_TOKENS_PATH; arg_token := None;
     arg_access_token := None |}.

Definition device_reply_5 : json :=
  JObj [("device_code", JStr "d1"); ("interval", JInt 5); ("user_code", JStr "U1");
        ("verification_uri", JStr "https://x/d")].

(** The provider hands out a device code, answers two polls with
    [authorization_pending] and the third with the tokens. *)
Definition approving_world : world :=
  fresh_world
    [answered (token_reply device_reply_5) 0;
     answered pending_400 0; answered pending_400 0;
     answered (token_reply demo_tokens) 0]
    ∅.

(** The time a run of transient rounds takes, each with its POST, its sleep
    at the interval then current and the sleep's lateness, in nanoseconds. *)
Fixpoint duration (interval : Z) (rs : list round) : Z :=
  match rs with
  | [] => 0
  | r :: rs' =>
      let i := next_interval interval r in
      Z.of_N (rtt r) + i * NS_PER_SEC + Z.of_N (oversleep r) + duration i rs'
  end.

(** The interval after a run of transient rounds. *)
Fixpoint interval_after (interval : Z) (rs : list round) : Z :=
  match rs with
  | [] => interval
  | r :: rs' => interval_after (next_interval interval r) rs'
  end.

(** A program that leaves the disk and the umask alone, however it ends, and
    does not leave through [sys.exit(0)]. *)
Definition keeps_disk {A} (m : prog A) : Prop :=
  forall w,
    disk (snd (m w)) = disk w /\ umask (snd (m w)) = umask w /\
    fst (m w) <> Exited 0.

(** A program that stays off the network: it sends nothing, takes no time,
    waits for no answer and does not leave through [sys.exit]. *)
Definition offline {A} (m : prog A) : Prop :=
  forall w,
    time (snd (m w)) = time w /\ lag (snd (m w)) = lag w /\
    net (snd (m w)) = net w /\ wire (snd (m w)) = wire w /\
    fst (m w) <> Starved /\ forall code, fst (m w) <> Exited code.

(** An offline program that returns [v] when it returns. *)
Definition reports {A} (v : A) (m : prog A) : Prop :=
  offline m /\ forall w a, fst (m w) = Returned a -> a = v.

Definition denied_200 : response :=
  {| status_code := 200; text := "";
     json_body := Some (JObj [("error", JStr "access_denied")]) |}.

Definition gateway_502 : response :=
  {| status_code := 502; text := "<html>Bad Gateway</html>"; json_body := None |}.

Definition server_error_500 : response :=
  {| status_code := 500; text := "{}"; json_body := Some (JObj []) |}.

Definition stale_disk : gmap string file :=
  {[ DEFAULT_TOKENS_PATH := {| mode := 420; content := "old" |};
     tmp_of DEFAULT_TOKENS_PATH := {| mode := 420; content := "left over" |};
     "notes.txt" := {| mode := 420; content := "keep" |} ]}.

Definition locked_disk : gmap string file :=
  {[ DEFAULT_TOKENS_PATH := {| mode := MODE_0600; content := "old" |};
     tmp_of DEFAULT_TOKENS_PATH := {| mode := 292; content := "" |} ]}.




Definition access_only_disk : gmap string file :=
  {[ DEFAULT_TOKENS_PATH :=
       {| mode := MODE_0600;
          content := emit 0 (JObj [("access_token", JStr "a1");
                                   ("refresh_token", JStr "")])
                       (String "010" "") |} ]}.

Definition revoke_args_no_access : args :=
  {| arg_action := Revoke; arg_client_id := DEFAULT_CLIENT_ID;
     arg_scope := DEFAULT_SCOPE; arg_audience := None;
     arg_file := DEFAULT_TOKENS_PATH; arg_token := Some "r1";
     arg_access_token := Some "" |}.

(** The call came back with a value. *)
Definition returned {A} (o : outcome A) : bool :=
  match o with
  | Returned _ => true
  | _ => false
  end.

(** What the commands [new] and [refresh] do before they save. *)
Definition obtain_tokens (a : args) : prog json :=
  match arg_action a with
  | Refresh => main_refresh a
  | _ => run_device_flow (arg_client_id a) (arg_scope a) (arg_audience a)
  end.

(** The world after the first line of [run_device_flow] is printed and the
    device request is answered. *)
Definition device_asked (a : args) (w : world) (r : round) (rest : list round)
  : world :=
  {| time := time w + Z.of_N (rtt r); lag := lag w; net := rest;
     wire := wire w ++ [device_request (arg_client_id a) (arg_scope a) (arg_audience a)];
     umask := umask w; disk := disk w;
     console := console w ++
       [(Stdout,
         [Lit "[1/3] Requesting device code from EGI Check-in as client_id='";
          FStr (JStr (arg_client_id a)); Lit "' ..."])] |}.

Definition forbidden_403 : response :=
  {| status_code := 403; text := "Forbidden"; json_body := None |}.

Definition codeless_reply : response :=
  token_reply (JObj [("user_code", JStr "U1"); ("interval", JInt 5)]).

(** * Properties *)

(** ** The poll loop, one iteration at a time *)

Section Iteration.
Variables (device_code : json) (client_id : string) (audience : option string).

Let iteration := poll_iteration device_code client_id audience.
Let after_post := posted device_code client_id audience.

Lemma iteration_of_error st r err resp body :
  says r err resp body ->
  iteration st r =
    if in_strs (JStr err) ["authorization_pending"; "slow_down"] then
      Continue
        (slept (if String.eqb err "slow_down"
                then Z.min (current_interval st + 5) 30
                else current_interval st)
               (after_post st r) r)
    else if in_strs (JStr err) ["access_denied"; "expired_token"; "invalid_grant"] then
      Stop (Raised (RuntimeError (rejected_msg (JStr err) body))) (after_post st r)
    else
      Stop (Raised (RuntimeError (unexpected_msg (status_code resp) body)))
           (after_post st r).
Proof.
  intros (Hserved & Hstatus & Hbody & Herr).
  unfold iteration, poll_iteration. rewrite Hserved.
  apply Z.eqb_neq in Hstatus. rewrite Hstatus.
  unfold resp_json. rewrite Hbody, Herr. reflexivity.
Qed.

Lemma iteration_pending st r resp body :
  says r "authorization_pending" resp body ->
  iteration st r = Continue (slept (current_interval st) (after_post st r) r).
Proof. intros H. rewrite (iteration_of_error _ _ _ _ _ H). reflexivity. Qed.

Lemma iteration_slow_down st r resp body :
  says r "slow_down" resp body ->
  iteration st r =
    Continue (slept (Z.min (current_interval st + 5) 30) (after_post st r) r).
Proof. intros H. rewrite (iteration_of_error _ _ _ _ _ H). reflexivity. Qed.

End Iteration.

Lemma iteration_transient dc cid aud st r :
  transient r = true ->
  poll_iteration dc cid aud st r =
    Continue (slept (next_interval (current_interval st) r) (posted dc cid aud st r) r).
Proof.
  unfold transient, next_interval, error_of, poll_iteration, resp_json.
  destruct (served r) as [resp|]; [|discriminate].
  destruct (status_code resp =? 200); [discriminate|].
  destruct (json_body resp) as [body|]; [|discriminate].
  destruct (py_get body "error") as [err|]; [|discriminate].
  intros ->. reflexivity.
Qed.

Lemma next_interval_floor interval r : 5 <= interval -> 5 <= next_interval interval r.
Proof.
  unfold next_interval. destruct (error_of r) as [err|]; [|lia].
  destruct (is_str err "slow_down"); lia.
Qed.

(** The loop does not reach the POST once the budget is spent. *)
Lemma poll_loop_timed_out dc cid aud T began st script :
  T * NS_PER_SEC < clock st - began ->
  poll_loop dc cid aud T began st script = (Raised (TimeoutError timed_out_msg), st).
Proof.
  intros H. destruct script; simpl;
    (destruct (clock st - began >? T * NS_PER_SEC) eqn:E; [reflexivity|lia]).
Qed.

Lemma poll_loop_in_time dc cid aud T began st r script :
  clock st - began <= T * NS_PER_SEC ->
  poll_loop dc cid aud T began st (r :: script) =
    match poll_iteration dc cid aud st r with
    | Continue st' => poll_loop dc cid aud T began st' script
    | Stop o st' => (o, st')
    end.
Proof.
  intros H. simpl.
  destruct (clock st - began >? T * NS_PER_SEC) eqn:E; [lia|reflexivity].
Qed.

(** Settles [says] on a concrete round. *)
Ltac solve_says :=
  unfold says; simpl; repeat split; try reflexivity; try discriminate; try lia.

(** ** Claims about the poll loop *)

(** C9: for every poll response (status other than 200) whose JSON error
    member is [authorization_pending], the iteration sleeps for the current
    interval and the loop goes on to its next iteration with the interval
    unchanged. *)
Theorem pending_keeps_interval dc cid aud T began st r script resp body :
  says r "authorization_pending" resp body ->
  clock st - began <= T * NS_PER_SEC ->
  exists st',
    poll_iteration dc cid aud st r = Continue st' /\
    poll_loop dc cid aud T began st (r :: script)
      = poll_loop dc cid aud T began st' script /\
    current_interval st' = current_interval st /\
    clock st' = clock st + Z.of_N (rtt r)
                + current_interval st * NS_PER_SEC + Z.of_N (oversleep r) /\
    sent st' = sent st ++ [token_request dc cid aud].
Proof.
  intros Hsays Htime.
  pose proof (iteration_pending dc cid aud st r resp body Hsays) as Hstep.
  eexists. split; [exact Hstep|].
  split; [rewrite poll_loop_in_time by exact Htime; rewrite Hstep; reflexivity|].
  simpl. repeat split; reflexivity.
Qed.

Lemma pending_keeps_interval_witness :
  exists st',
    poll_iteration (JStr "d1") "oidc-agent" None (at_interval 5)
      (answered (error_reply 400 "authorization_pending") 0) = Continue st' /\
    poll_loop (JStr "d1") "oidc-agent" None 900 0 (at_interval 5)
      [answered (error_reply 400 "authorization_pending") 0]
      = poll_loop (JStr "d1") "oidc-agent" None 900 0 st' [] /\
    current_interval st' = 5 /\
    clock st' = 0 + 0 + 5 * NS_PER_SEC + 0 /\
    sent st' = [] ++ [token_request (JStr "d1") "oidc-agent" None].
Proof.
  apply (pending_keeps_interval (JStr "d1") "oidc-agent" None 900 0 (at_interval 5)
           (answered (error_reply 400 "authorization_pending") 0) []
           (error_reply 400 "authorization_pending")
           (JObj [("error", JStr "authorization_pending")])).
  - solve_says.
  - vm_compute. discriminate.
Defined.

(** What [slow_down] does to the interval in general: five more, but thirty
    at most. *)
Lemma slow_down_interval dc cid aud st r resp body :
  says r "slow_down" resp body ->
  exists st',
    poll_iteration dc cid aud st r = Continue st' /\
    current_interval st' = Z.min (current_interval st + 5) 30.
Proof.
  intros H. eexists. split; [exact (iteration_slow_down dc cid aud st r resp body H)|].
  reflexivity.
Qed.

(** C1: the provider suggests polling every 60 seconds and then answers
    [slow_down]: the loop holds 60, and the interval it sleeps and goes on
    with is 30. *)
Theorem slow_down_above_ceiling_lowers_interval :
  let w := {| now := 0; startup := 0;
              script := [answered (error_reply 400 "slow_down") 0] |} in
  let st := initial_state 60 w in
  current_interval st = 60 /\
  says (answered (error_reply 400 "slow_down") 0) "slow_down"
       (error_reply 400 "slow_down") (JObj [("error", JStr "slow_down")]) /\
  exists st',
    poll_iteration (JStr "d1") "oidc-agent" None st
      (answered (error_reply 400 "slow_down") 0) = Continue st' /\
    current_interval st' = 30 /\
    current_interval st' < current_interval st /\
    clock st' - clock st = 30 * NS_PER_SEC.
Proof.
  simpl. split; [reflexivity|]. split.
  - solve_says.
  - eexists. split; [reflexivity|]. simpl. repeat split; reflexivity.
Qed.

(** C4: a poll response (status other than 200) whose JSON error member is
    [access_denied], [expired_token] or [invalid_grant] ends the loop at once
    with a [RuntimeError] that carries the error code and the body; the POST
    that fetched it is the last one, whatever the server would have answered
    next. *)
Theorem terminal_error_ends_polling dc cid aud T began st r script err resp body :
  In err ["access_denied"; "expired_token"; "invalid_grant"] ->
  says r err resp body ->
  clock st - began <= T * NS_PER_SEC ->
  poll_loop dc cid aud T began st (r :: script)
    = (Raised (RuntimeError [Lit "Device flow failed: "; FStr (JStr err);
                             Lit ": "; FRepr body]),
       posted dc cid aud st r) /\
  sent (posted dc cid aud st r) = sent st ++ [token_request dc cid aud].
Proof.
  intros Hin Hsays Htime. split; [|reflexivity].
  rewrite poll_loop_in_time by exact Htime.
  rewrite (iteration_of_error dc cid aud st r err resp body Hsays).
  simpl in Hin. destruct Hin as [<-|[<-|[<-|[]]]]; reflexivity.
Qed.

Lemma terminal_error_ends_polling_witness :
  poll_loop (JStr "d1") "oidc-agent" None 900 0 (at_interval 5)
    (answered (error_reply 400 "access_denied") 0
       :: [answered (token_reply (JObj [("access_token", JStr "a1")])) 0])
    = (Raised (RuntimeError [Lit "Device flow failed: "; FStr (JStr "access_denied");
                             Lit ": "; FRepr (JObj [("error", JStr "access_denied")])]),
       posted (JStr "d1") "oidc-agent" None (at_interval 5)
         (answered (error_reply 400 "access_denied") 0)) /\
  sent (posted (JStr "d1") "oidc-agent" None (at_interval 5)
          (answered (error_reply 400 "access_denied") 0))
    = sent (at_interval 5) ++ [token_request (JStr "d1") "oidc-agent" None].
Proof.
  apply (terminal_error_ends_polling (JStr "d1") "oidc-agent" None 900 0
           (at_interval 5) (answered (error_reply 400 "access_denied") 0)
           [answered (token_reply (JObj [("access_token", JStr "a1")])) 0]
           "access_denied" (error_reply 400 "access_denied")
           (JObj [("error", JStr "access_denied")])).
  - simpl. left. reflexivity.
  - solve_says.
  - vm_compute. discriminate.
Defined.

(** Every iteration issues exactly one POST, however it ends. *)
Lemma iteration_sent dc cid aud st r :
  sent (step_state (poll_iteration dc cid aud st r))
    = sent st ++ [token_request dc cid aud].
Proof.
  unfold poll_iteration.
  repeat match goal with
         | |- context [match ?x with _ => _ end] => destruct x
         end; reflexivity.
Qed.

(** The loop only ever appends token requests to what was sent, one per
    round it consumed. *)
Lemma poll_loop_sent dc cid aud T began script : forall st,
  exists n : nat,
    (n <= length script)%nat /\
    sent (snd (poll_loop dc cid aud T began st script))
      = sent st ++ repeat (token_request dc cid aud) n.
Proof.
  induction script as [|r script IH]; intros st; simpl.
  - exists 0%nat. destruct (_ >? _); simpl; rewrite app_nil_r; auto.
  - destruct (_ >? _).
    + exists 0%nat. simpl. rewrite app_nil_r. split; [lia|reflexivity].
    + pose proof (iteration_sent dc cid aud st r) as Hone.
      destruct (poll_iteration dc cid aud st r) as [st'|o st']; simpl in Hone.
      * destruct (IH st') as (n & Hn & Hsent). exists (S n).
        split; [lia|]. rewrite Hsent, Hone, <- app_assoc. reflexivity.
      * exists 1%nat. split; [lia|]. simpl. exact Hone.
Qed.

(** The first iteration: if the first check passes, the POST goes out. *)
Lemma first_iteration_posts dc cid aud T began st script :
  clock st - began <= T * NS_PER_SEC ->
  script <> [] ->
  sent (snd (poll_loop dc cid aud T began st script)) <> [].
Proof.
  intros Htime Hscript.
  destruct script as [|r script]; [congruence|].
  rewrite poll_loop_in_time by exact Htime.
  pose proof (iteration_sent dc cid aud st r) as Hone.
  destruct (poll_iteration dc cid aud st r) as [st'|o st']; simpl in Hone.
  - destruct (poll_loop_sent dc cid aud T began script st') as (n & _ & ->).
    rewrite Hone. destruct (sent st); discriminate.
  - simpl. rewrite Hone. destruct (sent st); discriminate.
Qed.

(** C10, as the code has it: for every [timeout_seconds] that the time
    between the first clock reading and the first check does not exceed (so
    for every [timeout_seconds >= 0] when no time passes there), the loop
    issues a POST before it can raise the timeout error. *)
Theorem post_before_timeout dc cid aud interval T w :
  Z.of_N (startup w) <= T * NS_PER_SEC ->
  (script w <> [] ->
   sent (snd (poll_token_endpoint dc cid aud interval T w)) <> []) /\
  (forall msg st,
     poll_token_endpoint dc cid aud interval T w = (Raised (TimeoutError msg), st) ->
     sent st <> []).
Proof.
  intros Hlag. unfold poll_token_endpoint.
  assert (Htime : clock (initial_state interval w) - now w <= T * NS_PER_SEC)
    by (simpl; lia).
  split.
  - intros Hscript. apply first_iteration_posts; assumption.
  - intros msg st Hrun.
    destruct (script w) as [|r script] eqn:Hscript.
    + simpl in Hrun. destruct (_ >? _) eqn:E; [lia|discriminate].
    + pose proof (first_iteration_posts dc cid aud T (now w)
                    (initial_state interval w) (r :: script) Htime) as Hposts.
      rewrite Hrun in Hposts. apply Hposts. discriminate.
Qed.

Lemma post_before_timeout_witness :
  let w := {| now := 0; startup := 0;
              script := [answered (error_reply 400 "authorization_pending") 0] |} in
  (script w <> [] ->
   sent (snd (poll_token_endpoint (JStr "d1") "oidc-agent" None 5 0 w)) <> []) /\
  (forall msg st,
     poll_token_endpoint (JStr "d1") "oidc-agent" None 5 0 w
       = (Raised (TimeoutError msg), st) ->
     sent st <> []).
Proof.
  apply (post_before_timeout (JStr "d1") "oidc-agent" None 5 0
           {| now := 0; startup := 0;
              script := [answered (error_reply 400 "authorization_pending") 0] |}).
  simpl. lia.
Defined.

(** With a budget of zero seconds the run above does end in the timeout
    error, after its one POST. *)
Example zero_budget_one_post :
  let w := {| now := 0; startup := 0;
              script := [answered (error_reply 400 "authorization_pending") 0] |} in
  exists st,
    poll_token_endpoint (JStr "d1") "oidc-agent" None 5 0 w
      = (Raised (TimeoutError timed_out_msg), st) /\
    sent st = [token_request (JStr "d1") "oidc-agent" None].
Proof. eexists. split; reflexivity. Qed.

(** C10 as stated fails: with [timeout_seconds = 0], one nanosecond between
    the reading of [began] and the first check is enough for the loop to
    raise the timeout error without a single POST. *)
Lemma timeout_before_first_post :
  let w := {| now := 0; startup := 1;
              script := [answered (token_reply (JObj [("access_token", JStr "a1")])) 0] |} in
  0 <= 0 /\
  exists st,
    poll_token_endpoint (JStr "d1") "oidc-agent" None 5 0 w
      = (Raised (TimeoutError timed_out_msg), st) /\
    sent st = [].
Proof. split; [lia|]. eexists. split; reflexivity. Qed.

(** ** The timeout *)

Lemma slept_posted_clock dc cid aud st r interval :
  clock (slept interval (posted dc cid aud st r) r)
    = clock st + Z.of_N (rtt r) + interval * NS_PER_SEC + Z.of_N (oversleep r).
Proof. reflexivity. Qed.

(** Over transient rounds the loop runs until the budget is spent; when it
    raises, the check before had passed, so the overshoot is what one
    iteration added: its POST, its sleep and the sleep's lateness. *)
Lemma transient_rounds_time_out dc cid aud T began d script : forall st,
  forallb transient script = true ->
  (forall r, In r script -> Z.of_N (rtt r) + Z.of_N (oversleep r) <= d) ->
  clock st - began <= T * NS_PER_SEC + current_interval st * NS_PER_SEC + d ->
  T * NS_PER_SEC
    < clock st - began + total (sleeps (current_interval st) script) * NS_PER_SEC ->
  exists st',
    poll_loop dc cid aud T began st script = (Raised (TimeoutError timed_out_msg), st') /\
    T * NS_PER_SEC < clock st' - began /\
    clock st' - began <= T * NS_PER_SEC + current_interval st' * NS_PER_SEC + d.
Proof.
  induction script as [|r script IH]; intros st Hall Hd Hslack Hsum.
  - simpl in Hsum. exists st. rewrite poll_loop_timed_out by lia. split; [reflexivity|lia].
  - destruct (Z_lt_le_dec (T * NS_PER_SEC) (clock st - began)) as [Hout|Hin].
    + exists st. rewrite poll_loop_timed_out by exact Hout. split; [reflexivity|lia].
    + simpl in Hall. apply andb_prop in Hall as [Hr Hall].
      rewrite poll_loop_in_time by exact Hin.
      rewrite (iteration_transient dc cid aud st r Hr).
      set (i := next_interval (current_interval st) r) in *.
      assert (Hone : Z.of_N (rtt r) + Z.of_N (oversleep r) <= d)
        by (apply Hd; left; reflexivity).
      apply IH.
      * exact Hall.
      * intros r' Hr'. apply Hd. right. exact Hr'.
      * rewrite slept_posted_clock. simpl. lia.
      * rewrite slept_posted_clock. simpl.
        simpl in Hsum. fold i in Hsum. unfold total in *. simpl in Hsum.
        pose proof (N2Z.is_nonneg (rtt r)). pose proof (N2Z.is_nonneg (oversleep r)).
        lia.
Qed.

(** C3, as the code has it: over pending / slow_down answers whose sleep
    intervals sum past [T], the loop ends by raising the timeout error, and
    the time elapsed by then exceeds [T] by at most the last interval plus
    [d], where [d] bounds what does not show in the intervals: the time to
    the first check, and each round's POST and sleep lateness.  With
    instantaneous calls ([d = 0]) that is one interval's slack. *)
Theorem timeout_within_one_iteration dc cid aud interval T d w :
  0 <= T ->
  forallb transient (script w) = true ->
  T < total (sleeps (Z.max 5 (interval_or_5 interval)) (script w)) ->
  Z.of_N (startup w) <= d ->
  (forall r, In r (script w) -> Z.of_N (rtt r) + Z.of_N (oversleep r) <= d) ->
  exists st,
    poll_token_endpoint dc cid aud interval T w
      = (Raised (TimeoutError timed_out_msg), st) /\
    T * NS_PER_SEC < clock st - now w /\
    clock st - now w <= (T + current_interval st) * NS_PER_SEC + d.
Proof.
  intros HT Hall Hsum Hlag Hd. unfold poll_token_endpoint.
  destruct (transient_rounds_time_out dc cid aud T (now w) d (script w)
              (initial_state interval w) Hall Hd) as (st & Hrun & Hlo & Hhi).
  - simpl. unfold NS_PER_SEC. lia.
  - simpl. pose proof (N2Z.is_nonneg (startup w)). unfold NS_PER_SEC. lia.
  - exists st. split; [exact Hrun|]. split; [exact Hlo|lia].
Qed.

Lemma timeout_within_one_iteration_witness :
  exists st,
    poll_token_endpoint (JStr "d1") "oidc-agent" None 5 10
      {| now := 0; startup := 0;
         script := [answered pending_400 0; answered pending_400 0;
                    answered pending_400 0] |}
      = (Raised (TimeoutError timed_out_msg), st) /\
    10 * NS_PER_SEC < clock st - 0 /\
    clock st - 0 <= (10 + current_interval st) * NS_PER_SEC + 0.
Proof.
  apply (timeout_within_one_iteration (JStr "d1") "oidc-agent" None 5 10 0
           {| now := 0; startup := 0;
              script := [answered pending_400 0; answered pending_400 0;
                         answered pending_400 0] |}).
  - lia.
  - reflexivity.
  - vm_compute. reflexivity.
  - simpl. lia.
  - simpl. intros r [<-|[<-|[<-|[]]]]; simpl; lia.
Defined.

(** C3 as stated fails: a budget of 10 seconds, three pending answers at an
    interval of 5 seconds (sleeps sum to 15), the third POST taking 20
    seconds.  The loop raises the timeout error 35 seconds in: 25 seconds past
    the budget, with an interval of 5. *)
Lemma timeout_slack_exceeds_one_interval :
  forallb transient
    [answered pending_400 0; answered pending_400 0;
     answered pending_400 20000000000] = true /\
  10 < total (sleeps (Z.max 5 (interval_or_5 5))
                [answered pending_400 0; answered pending_400 0;
                 answered pending_400 20000000000]) /\
  exists st,
    poll_token_endpoint (JStr "d1") "oidc-agent" None 5 10
      {| now := 0; startup := 0;
         script := [answered pending_400 0; answered pending_400 0;
                    answered pending_400 20000000000] |}
      = (Raised (TimeoutError timed_out_msg), st) /\
    current_interval st = 5 /\
    clock st - 0 = 35 * NS_PER_SEC /\
    (10 + current_interval st) * NS_PER_SEC < clock st - 0.
Proof.
  split; [reflexivity|]. split; [vm_compute; reflexivity|].
  eexists. split; [vm_compute; reflexivity|].
  split; [reflexivity|]. split; vm_compute; reflexivity.
Qed.

(** ** How the loop is started *)

Lemma initial_interval interval w :
  current_interval (initial_state interval w) = Z.max 5 interval.
Proof.
  simpl. unfold interval_or_5. destruct (interval =? 0) eqn:E; [|reflexivity].
  apply Z.eqb_eq in E. subst. reflexivity.
Qed.

Lemma assoc_dict_set_other k k' v ms :
  k <> k' -> assoc k (dict_set k' v ms) = assoc k ms.
Proof.
  intros Hne. induction ms as [|[k0 v0] ms IH]; simpl.
  - destruct (String.eqb k k') eqn:E; [apply String.eqb_eq in E; congruence|reflexivity].
  - destruct (String.eqb k' k0) eqn:E0; simpl.
    + apply String.eqb_eq in E0. subst k0.
      destruct (String.eqb k k') eqn:E; [apply String.eqb_eq in E; congruence|reflexivity].
    + destruct (String.eqb k k0); [reflexivity|exact IH].
Qed.

(** What the interval and the budget of the call come to. *)
Lemma poll_call_of_device_response (members : list (string * json))
    (device_code : json) (server_interval : option Z) :
  assoc "device_code" members = Some device_code ->
  assoc "interval" members = JInt <$> server_interval ->
  poll_call_of (JObj members)
    = Ok {| call_device_code := device_code;
            call_interval := default 5 server_interval;
            call_timeout_seconds := 900 |}.
Proof.
  intros Hc Hi. unfold poll_call_of. simpl. rewrite Hc, Hi. simpl.
  destruct server_interval; reflexivity.
Qed.

Lemma andthen_returned {A B} (m : prog A) (k : A -> prog B) w a w' :
  m w = (Returned a, w') -> andthen m k w = k a w'.
Proof. intros H. unfold andthen. rewrite H. reflexivity. Qed.

(** After a line of the program has run: the world it leaves, field by field. *)
Ltac next_line := cbv beta; cbn [time lag net wire umask disk console].

Lemma start_device_flow_answered cid scope aud w r rest resp body :
  net w = r :: rest ->
  served r = Answer resp ->
  raise_for_status resp = Ok tt ->
  json_body resp = Some body ->
  start_device_flow cid scope aud w
    = (Returned body,
       {| time := time w + Z.of_N (rtt r); lag := lag w; net := rest;
          wire := wire w ++ [device_request cid scope aud];
          umask := umask w; disk := disk w; console := console w |}).
Proof.
  intros Hnet Hserved Hstatus Hbody.
  unfold start_device_flow, andthen, post, lift, resp_json.
  rewrite Hnet, Hserved, Hstatus, Hbody. reflexivity.
Qed.

Lemma offline_ret {A} (a : A) : offline (ret a).
Proof. intros w. simpl. repeat split; discriminate. Qed.

Lemma offline_lift {A} (r : result A) : offline (lift r).
Proof. intros w. destruct r; simpl; repeat split; discriminate. Qed.

Lemma offline_print s msg : offline (print_to s msg).
Proof. intros w. simpl. repeat split; discriminate. Qed.

Lemma offline_andthen {A B} (m : prog A) (k : A -> prog B) :
  offline m -> (forall a, offline (k a)) -> offline (andthen m k).
Proof.
  intros Hm Hk w. unfold andthen.
  destruct (Hm w) as (Ht & Hl & Hn & Hw & Hs & Hx).
  destruct (m w) as [[a|e|c|] w1]; simpl in *.
  - destruct (Hk a w1) as (Ht' & Hl' & Hn' & Hw' & Hs' & Hx').
    repeat split; congruence.
  - repeat split; try assumption; discriminate.
  - exfalso. exact (Hx c eq_refl).
  - exfalso. exact (Hs eq_refl).
Qed.

Lemma reports_ret {A} (a : A) : reports a (ret a).
Proof.
  split; [apply offline_ret|]. intros w b. simpl. intros [= <-]. reflexivity.
Qed.

Lemma reports_andthen {A B} (v : B) (m : prog A) (k : A -> prog B) :
  offline m -> (forall a, reports v (k a)) -> reports v (andthen m k).
Proof.
  intros Hm Hk. split.
  - apply offline_andthen; [exact Hm|]. intros a. apply Hk.
  - intros w b. unfold andthen.
    destruct (m w) as [[a|e|c|] w1]; simpl; try discriminate.
    apply (Hk a).
Qed.

(** From the answer of the device request on, [run_device_flow] is the poll
    loop, called with the response's device code, its interval (5 when it
    names none) and 900 seconds, and then a report of the tokens that sends
    nothing. *)
Lemma run_device_flow_polls cid scope aud w r rest resp members device_code
    server_interval :
  net w = r :: rest ->
  served r = Answer resp ->
  raise_for_status resp = Ok tt ->
  json_body resp = Some (JObj members) ->
  assoc "device_code" members = Some device_code ->
  assoc "interval" members = JInt <$> server_interval ->
  exists (report : json -> prog json) (w1 : world),
    (forall tokens, reports tokens (report tokens)) /\
    time w1 = time w + Z.of_N (rtt r) /\ lag w1 = lag w /\ net w1 = rest /\
    wire w1 = wire w ++ [device_request cid scope aud] /\
    run_device_flow cid scope aud w
      = andthen (poll device_code cid aud (default 5 server_interval) 900) report w1.
Proof.
  intros Hnet Hserved Hstatus Hbody Hcode Hinterval.
  unfold run_device_flow.
  erewrite andthen_returned by reflexivity. next_line.
  erewrite andthen_returned
    by (eapply start_device_flow_answered; eassumption).
  next_line.
  rewrite (poll_call_of_device_response members device_code server_interval)
    by assumption.
  do 9 (erewrite andthen_returned by reflexivity; next_line).
  eexists. eexists.
  split; [|split; [|split; [|split; [|split; [|reflexivity]]]]];
    try reflexivity.
  intros tokens. cbv beta.
  repeat (apply reports_andthen; [first [apply offline_lift | apply offline_print]
                                 |intros ?]).
  apply reports_andthen; [|intros ?; apply reports_ret].
  match goal with
  | |- offline (match ?x with _ => _ end) =>
      destruct x; [apply offline_print|apply offline_ret]
  end.
Qed.

(** C2: when the device authorization request is answered with a device code,
    [run_device_flow] runs the poll loop on that code with the interval of the
    response, 5 when it names none, and a budget of 900 seconds: the loop's
    first interval is [max(5, server interval)]; what [run_device_flow] sends,
    how long it takes and how it ends are what the loop with these arguments
    sends, takes and ends with (when the loop returns tokens, the report of
    them may still raise); and the response's [expires_in] has no part in the
    arguments of the call. *)
Theorem poll_starts_at_max_5_and_900 cid scope aud w r rest resp
    (members : list (string * json)) (device_code : json)
    (server_interval : option Z) :
  net w = r :: rest ->
  served r = Answer resp ->
  raise_for_status resp = Ok tt ->
  json_body resp = Some (JObj members) ->
  assoc "device_code" members = Some device_code ->
  assoc "interval" members = JInt <$> server_interval ->
  let started :=
    {| now := time w + Z.of_N (rtt r); startup := lag w; script := rest |} in
  let loop :=
    poll_token_endpoint device_code cid aud (default 5 server_interval) 900 started in
  let flow := run_device_flow cid scope aud w in
  current_interval (initial_state (default 5 server_interval) started)
    = Z.max 5 (default 5 server_interval) /\
  wire (snd flow) = wire w ++ device_request cid scope aud :: sent (snd loop) /\
  net (snd flow) = drop (length (sent (snd loop))) rest /\
  time (snd flow) = clock (snd loop) /\
  (forall e, fst loop = Raised e -> fst flow = Raised e) /\
  (fst loop = Starved -> fst flow = Starved) /\
  (forall tokens, fst loop = Returned tokens ->
     fst flow = Returned tokens \/ exists e, fst flow = Raised e) /\
  (forall tokens, fst flow = Returned tokens -> fst loop = Returned tokens) /\
  forall lifetime : json,
    poll_call_of (JObj (dict_set "expires_in" lifetime members))
      = Ok {| call_device_code := device_code;
              call_interval := default 5 server_interval;
              call_timeout_seconds := 900 |}.
Proof.
  intros Hnet Hserved Hstatus Hbody Hcode Hinterval. cbv zeta.
  set (started :=
         {| now := time w + Z.of_N (rtt r); startup := lag w; script := rest |}).
  destruct (run_device_flow_polls cid scope aud w r rest resp members device_code
              server_interval Hnet Hserved Hstatus Hbody Hcode Hinterval)
    as (report & w1 & Hreport & Ht & Hl & Hn & Hw & Hflow).
  split; [apply initial_interval|].
  rewrite Hflow. unfold andthen, poll. rewrite Ht, Hl, Hn, Hw. fold started.
  destruct (poll_token_endpoint device_code cid aud (default 5 server_interval) 900
              started) as [o st].
  cbn [fst snd]. rewrite <- app_assoc. change ([?x] ++ ?l) with (x :: l).
  assert (Hexpiry : forall lifetime : json,
            poll_call_of (JObj (dict_set "expires_in" lifetime members))
              = Ok {| call_device_code := device_code;
                      call_interval := default 5 server_interval;
                      call_timeout_seconds := 900 |}).
  { intros lifetime. apply poll_call_of_device_response;
      rewrite assoc_dict_set_other by discriminate; assumption. }
  destruct o as [tokens|e|c|]; cbn [fst snd time net wire].
  - destruct (Hreport tokens) as (Hoff & Hret).
    match goal with
    | |- context [report tokens ?w2] =>
        destruct (Hoff w2) as (Ht2 & _ & Hn2 & Hw2 & Hs & Hx);
        specialize (Hret w2); cbn [time net wire] in Ht2, Hn2, Hw2;
        destruct (report tokens w2) as [o2 w3]
    end.
    cbn [fst snd] in *.
    repeat split; try assumption; try discriminate.
    + intros t [= <-].
      destruct o2 as [t|e|c|].
      * left. f_equal. apply Hret. reflexivity.
      * right. eexists. reflexivity.
      * exfalso. exact (Hx c eq_refl).
      * exfalso. exact (Hs eq_refl).
    + intros t ->. f_equal. symmetry. apply Hret. reflexivity.
  - repeat split; try reflexivity; try discriminate; try exact Hexpiry.
    intros e' [= <-]. reflexivity.
  - repeat split; try reflexivity; try discriminate; exact Hexpiry.
  - repeat split; try reflexivity; try discriminate; exact Hexpiry.
Qed.

Lemma poll_starts_at_max_5_and_900_witness :
  let started :=
    {| now := 0 + Z.of_N 0; startup := 0;
       script := [answered pending_400 0; answered (token_reply demo_tokens) 0] |} in
  let loop :=
    poll_token_endpoint (JStr "d1") DEFAULT_CLIENT_ID None (default 5 (Some 7)) 900
      started in
  let flow := run_device_flow DEFAULT_CLIENT_ID DEFAULT_SCOPE None d1_world in
  current_interval (initial_state (default 5 (Some 7)) started)
    = Z.max 5 (default 5 (Some 7)) /\
  wire (snd flow)
    = [] ++ device_request DEFAULT_CLIENT_ID DEFAULT_SCOPE None :: sent (snd loop) /\
  net (snd flow)
    = drop (length (sent (snd loop)))
        [answered pending_400 0; answered (token_reply demo_tokens) 0] /\
  time (snd flow) = clock (snd loop) /\
  (forall e, fst loop = Raised e -> fst flow = Raised e) /\
  (fst loop = Starved -> fst flow = Starved) /\
  (forall tokens, fst loop = Returned tokens ->
     fst flow = Returned tokens \/ exists e, fst flow = Raised e) /\
  (forall tokens, fst flow = Returned tokens -> fst loop = Returned tokens) /\
  forall lifetime : json,
    poll_call_of (JObj (dict_set "expires_in" lifetime device_reply_d1))
      = Ok {| call_device_code := JStr "d1";
              call_interval := default 5 (Some 7);
              call_timeout_seconds := 900 |}.
Proof.
  apply (poll_starts_at_max_5_and_900 DEFAULT_CLIENT_ID DEFAULT_SCOPE None d1_world
           (answered (token_reply (JObj device_reply_d1)) 0)
           [answered pending_400 0; answered (token_reply demo_tokens) 0]
           (token_reply (JObj device_reply_d1)) device_reply_d1 (JStr "d1") (Some 7));
    reflexivity.
Defined.

(** The same run, computed: the device request, one poll answered with
    [authorization_pending], a sleep of 7 seconds, and the poll that brings
    the tokens. *)
Example d1_world_run :
  let flow := run_device_flow DEFAULT_CLIENT_ID DEFAULT_SCOPE None d1_world in
  fst flow = Returned demo_tokens /\
  wire (snd flow)
    = [device_request DEFAULT_CLIENT_ID DEFAULT_SCOPE None;
       token_request (JStr "d1") DEFAULT_CLIENT_ID None;
       token_request (JStr "d1") DEFAULT_CLIENT_ID None] /\
  time (snd flow) = 7 * NS_PER_SEC.
Proof. vm_compute. repeat split; reflexivity. Qed.

Example signature_default : poll_default_timeout = 300.
Proof. reflexivity. Qed.

(** ** Refresh and revocation *)

Lemma refresh_with_rt_failure rt cid aud w r rest resp :
  net w = r :: rest ->
  served r = Answer resp ->
  status_code resp <> 200 ->
  refresh_with_rt rt cid aud w
    = (Raised (RuntimeError (refresh_failed_msg (status_code resp) (reported_body resp))),
       {| time := time w + Z.of_N (rtt r); lag := lag w; net := rest;
          wire := wire w ++ [refresh_request rt cid aud];
          umask := umask w; disk := disk w; console := console w |}).
Proof.
  intros Hnet Hserved Hstatus.
  unfold refresh_with_rt, andthen, post. rewrite Hnet, Hserved.
  apply Z.eqb_neq in Hstatus. rewrite Hstatus. simpl.
  unfold reported_body, resp_json. destruct (json_body resp); reflexivity.
Qed.

(** C7: a refresh answered with a status other than 200 raises a
    [RuntimeError] carrying the status and the body, after exactly one
    request; the [refresh] command then ends with a non-zero exit status and
    the disk as it was. *)
Theorem refresh_failure_no_retry_no_write rt cid aud (a : args) w r rest resp :
  net w = r :: rest ->
  served r = Answer resp ->
  status_code resp <> 200 ->
  arg_action a = Refresh ->
  (exists w',
     refresh_with_rt rt cid aud w
       = (Raised (RuntimeError [Lit "Refresh failed ("; FInt (status_code resp);
                                Lit "): "; FRepr (reported_body resp)]), w') /\
     wire w' = wire w ++ [refresh_request rt cid aud] /\
     net w' = rest /\
     disk w' = disk w) /\
  (exists code w',
     main a w = (Some code, w') /\
     code <> 0 /\
     disk w' = disk w /\
     (wire w' = wire w \/ exists rq, wire w' = wire w ++ [rq])).
Proof.
  intros Hnet Hserved Hstatus Haction. split.
  - eexists. rewrite (refresh_with_rt_failure rt cid aud w r rest resp) by assumption.
    split; [reflexivity|]. simpl. repeat split; reflexivity.
  - unfold main, main_body. rewrite Haction.
    unfold main_refresh, andthen at 1 2.
    destruct (given (arg_token a)) as [tok|].
    + rewrite (refresh_with_rt_failure _ _ _ w r rest resp) by assumption.
      eexists _, _. split; [reflexivity|]. simpl.
      split; [discriminate|]. split; [reflexivity|]. right. eexists. reflexivity.
    + unfold andthen at 1. unfold lift at 1.
      destruct (load_tokens (arg_file a) (disk w)) as [tokens|e].
      * unfold andthen at 1. unfold lift at 1.
        destruct (py_get tokens "refresh_token") as [rtv|e].
        -- destruct (truthy rtv).
           ++ unfold andthen at 1.
              rewrite (refresh_with_rt_failure _ _ _ w r rest resp) by assumption.
              eexists _, _. split; [reflexivity|]. simpl.
              split; [discriminate|]. split; [reflexivity|]. right. eexists. reflexivity.
           ++ eexists _, _. split; [reflexivity|]. simpl.
              split; [discriminate|]. split; [reflexivity|]. left. reflexivity.
        -- eexists _, _. split; [reflexivity|]. simpl.
           split; [discriminate|]. split; [reflexivity|]. left. reflexivity.
      * eexists _, _. split; [reflexivity|]. simpl.
        split; [discriminate|]. split; [reflexivity|]. left. reflexivity.
Qed.

Lemma refresh_failure_no_retry_no_write_witness :
  (exists w',
     refresh_with_rt (JStr "r1") DEFAULT_CLIENT_ID None bad_grant_world
       = (Raised (RuntimeError
            [Lit "Refresh failed ("; FInt (status_code (error_reply 400 "invalid_grant"));
             Lit "): "; FRepr (reported_body (error_reply 400 "invalid_grant"))]), w') /\
     wire w' = wire bad_grant_world
                 ++ [refresh_request (JStr "r1") DEFAULT_CLIENT_ID None] /\
     net w' = [] /\
     disk w' = disk bad_grant_world) /\
  (exists code w',
     main refresh_args bad_grant_world = (Some code, w') /\
     code <> 0 /\
     disk w' = disk bad_grant_world /\
     (wire w' = wire bad_grant_world \/ exists rq, wire w' = wire bad_grant_world ++ [rq])).
Proof.
  apply (refresh_failure_no_retry_no_write (JStr "r1") DEFAULT_CLIENT_ID None
           refresh_args bad_grant_world
           (answered (error_reply 400 "invalid_grant") 0) []
           (error_reply 400 "invalid_grant")).
  - reflexivity.
  - reflexivity.
  - simpl. lia.
  - reflexivity.
Defined.

(** The scenario run through: the stored refresh token is read, one request
    goes out, the command exits with status 1 and the token file is the one
    that was there. *)
Example refresh_bad_grant_run :
  exists w',
    main refresh_args bad_grant_world = (Some 1, w') /\
    wire w' = [refresh_request (JStr "r1") DEFAULT_CLIENT_ID None] /\
    disk w' = saved_disk.
Proof. eexists. split; [vm_compute; reflexivity|]. split; reflexivity. Qed.

(** C8: the outcome of a revocation is success or failure according to
    whether the status of the one response is 200: [revoke_token] hands the
    response back after a single request, and the [revoke] command turns it
    into exit status 0, or into exit status 1 with the status and the body
    text on stderr.  The disk is not touched. *)
Theorem revoke_reports_by_status (a : args) token access_token w r rest resp :
  arg_action a = Revoke ->
  given (arg_token a) = Some token ->
  given (arg_access_token a) = Some access_token ->
  net w = r :: rest ->
  served r = Answer resp ->
  exists w1 w2,
    revoke_token token access_token (arg_client_id a) w = (Returned resp, w1) /\
    wire w1 = wire w ++ [revoke_request token access_token (arg_client_id a)] /\
    main a w = (Some (if status_code resp =? 200 then 0 else 1), w2) /\
    wire w2 = wire w1 /\
    net w2 = rest /\
    disk w2 = disk w /\
    console w2 =
      console w ++
        [if status_code resp =? 200
         then (Stdout, [Lit "Refresh token successfully revoked."])
         else (Stderr, [Lit "Failed to revoke token ("; FInt (status_code resp);
                        Lit "): "; FStr (JStr (text resp))])].
Proof.
  intros Haction Htoken Haccess Hnet Hserved.
  assert (Hpost : revoke_token token access_token (arg_client_id a) w
                  = (Returned resp,
                     {| time := time w + Z.of_N (rtt r); lag := lag w; net := rest;
                        wire := wire w ++ [revoke_request token access_token (arg_client_id a)];
                        umask := umask w; disk := disk w; console := console w |})).
  { unfold revoke_token, post. rewrite Hnet, Hserved. reflexivity. }
  unfold main, main_body, main_revoke. rewrite Haction, Htoken, Haccess.
  unfold andthen at 1. rewrite Hpost.
  destruct (status_code resp =? 200); simpl;
    eexists _, _; (split; [reflexivity|]); repeat split; reflexivity.
Qed.

Lemma revoke_reports_by_status_witness :
  exists w1 w2,
    revoke_token "r1" "a1" (arg_client_id revoke_args) refusing_world
      = (Returned refused_400, w1) /\
    wire w1 = wire refusing_world
                ++ [revoke_request "r1" "a1" (arg_client_id revoke_args)] /\
    main revoke_args refusing_world
      = (Some (if status_code refused_400 =? 200 then 0 else 1), w2) /\
    wire w2 = wire w1 /\
    net w2 = [] /\
    disk w2 = disk refusing_world /\
    console w2 =
      console refusing_world ++
        [if status_code refused_400 =? 200
         then (Stdout, [Lit "Refresh token successfully revoked."])
         else (Stderr, [Lit "Failed to revoke token ("; FInt (status_code refused_400);
                        Lit "): "; FStr (JStr (text refused_400))])].
Proof.
  apply (revoke_reports_by_status revoke_args "r1" "a1" refusing_world
           (answered refused_400 0) [] refused_400); reflexivity.
Defined.

(** ** Saving the tokens *)

Lemma tmp_of_neq path : tmp_of path <> path.
Proof.
  unfold tmp_of. induction path as [|c path IH].
  - discriminate.
  - intros H. apply IH. injection H. auto.
Qed.

(** The four states of the disk a save goes through. *)
Lemma save_tokens_states umask tokens path (d : gmap string file) :
  tmp_writable path d ->
  let tmp := tmp_of path in
  let m := tmp_mode umask path d in
  disk_states umask (save_tokens_calls tokens path) d =
    [ <[tmp := {| mode := m; content := "" |}]> d;
      <[tmp := {| mode := m; content := emit 0 tokens (String "010" "") |}]> d;
      <[tmp := saved_file tokens]> d;
      <[path := saved_file tokens]> (delete tmp d) ] /\
  save_tokens umask tokens path d
    = (Ok tt, <[path := saved_file tokens]> (delete tmp d)).
Proof.
  intros Hw tmp m. unfold tmp_writable, tmp_mode in *. fold tmp in Hw. subst m. fold tmp.
  unfold save_tokens, save_tokens_calls. fold tmp.
  assert (Hcreat : exec umask (Creat tmp) d
            = Ok (<[tmp := {| mode := match d !! tmp with
                                        | Some f => mode f
                                        | None => Z.land MODE_0666 (Z.lnot umask)
                                        end; content := "" |}]> d)).
  { simpl. destruct (d !! tmp) as [f|]; [rewrite Hw|]; reflexivity. }
  set (m := match d !! tmp with Some f => mode f | None => _ end) in *.
  cbn [disk_states run_calls]. rewrite Hcreat.
  cbn [exec].
  repeat (rewrite ?lookup_insert_eq, ?insert_insert_eq, ?delete_insert_eq;
          cbn [mode content]).
  change ("" +:+ emit 0 tokens (String "010" "")) with (emit 0 tokens (String "010" "")).
  unfold saved_file. split; reflexivity.
Qed.

Lemma saved_file_private tokens : private (saved_file tokens).
Proof. reflexivity. Qed.

(** At the target path a reader sees the old file, or none, until the
    rename, and the complete new file with mode 0600 from then on. *)
Lemma save_tokens_target_atomic umask tokens path (d : gmap string file) :
  tmp_writable path d ->
  Forall (fun d' : gmap string file =>
            d' !! path = d !! path \/ d' !! path = Some (saved_file tokens))
         (disk_states umask (save_tokens_calls tokens path) d).
Proof.
  intros Hw. destruct (save_tokens_states umask tokens path d Hw) as [-> _].
  pose proof (tmp_of_neq path) as Hne.
  repeat (constructor; [left; apply lookup_insert_ne; exact Hne|]).
  constructor; [right; apply lookup_insert_eq|constructor].
Qed.

(** After a save the file at the target path grants nothing to group or
    other, and the temporary file is gone. *)
Lemma save_tokens_result umask tokens path (d : gmap string file) :
  tmp_writable path d ->
  exists d',
    save_tokens umask tokens path d = (Ok tt, d') /\
    d' !! path = Some (saved_file tokens) /\
    private (saved_file tokens) /\
    d' !! tmp_of path = None.
Proof.
  intros Hw. destruct (save_tokens_states umask tokens path d Hw) as [_ ->].
  eexists. split; [reflexivity|]. split; [apply lookup_insert_eq|].
  split; [reflexivity|].
  rewrite lookup_insert_ne by (intros H; symmetry in H; exact (tmp_of_neq path H)).
  apply lookup_delete_eq.
Qed.

(** A save either goes through, or is stopped at the start by a temporary
    file it may not write to, with the disk as it was. *)
Lemma save_tokens_cases umask tokens path (d : gmap string file) :
  (tmp_writable path d /\
   save_tokens umask tokens path d
     = (Ok tt, <[path := saved_file tokens]> (delete (tmp_of path) d))) \/
  (~ tmp_writable path d /\
   save_tokens umask tokens path d = (Raise (PermissionError (tmp_of path)), d)).
Proof.
  unfold tmp_writable.
  destruct (d !! tmp_of path) as [f|] eqn:Htmp.
  - destruct (owner_can_write f) eqn:Hw.
    + left. split; [reflexivity|].
      apply save_tokens_states. unfold tmp_writable. rewrite Htmp. exact Hw.
    + right. split; [discriminate|].
      unfold save_tokens, save_tokens_calls. cbn [run_calls exec].
      rewrite Htmp, Hw. reflexivity.
  - left. split; [exact I|].
    apply save_tokens_states. unfold tmp_writable. rewrite Htmp. exact I.
Qed.

(** C5: with the usual umask 022 and no file in the way, the save creates
    [tokens_egi.json.tmp] with mode 0644.  Readers other than the owner can
    open it while it is still empty, and again when it holds every token,
    before [os.chmod] withdraws the access. *)
Theorem save_exposes_temporary_file :
  exists (d1 d2 d3 d4 : gmap string file),
    disk_states 18 (save_tokens_calls demo_tokens DEFAULT_TOKENS_PATH) ∅
      = [d1; d2; d3; d4] /\
    d1 !! tmp_of DEFAULT_TOKENS_PATH = Some {| mode := 420; content := "" |} /\
    d2 !! tmp_of DEFAULT_TOKENS_PATH
      = Some {| mode := 420; content := emit 0 demo_tokens (String "010" "") |} /\
    world_readable {| mode := 420; content := "" |} = true /\
    Z.land 420 GROUP_OTHER = 36 /\
    d4 !! DEFAULT_TOKENS_PATH = Some (saved_file demo_tokens).
Proof.
  destruct (save_tokens_states 18 demo_tokens DEFAULT_TOKENS_PATH ∅) as [Hstates _].
  { unfold tmp_writable. rewrite lookup_empty. exact I. }
  eexists _, _, _, _. split; [exact Hstates|].
  unfold tmp_mode. rewrite lookup_empty.
  rewrite !lookup_insert_eq. repeat split; reflexivity.
Qed.

(** ** Floats: rounding to binary64 *)

Lemma inject_Z_le (x y : Z) : x <= y -> (inject_Z x <= inject_Z y)%Q.
Proof. rewrite <- Zle_Qle. trivial. Qed.

Lemma inject_Z_lt (x y : Z) : x < y -> (inject_Z x < inject_Z y)%Q.
Proof. rewrite <- Zlt_Qlt. trivial. Qed.

Lemma Qfloor_eq (x : Q) (z : Z) :
  (inject_Z z <= x)%Q -> (x < inject_Z (z + 1))%Q -> Qfloor x = z.
Proof.
  intros Hle Hlt.
  pose proof (Qfloor_le x) as H1. pose proof (Qlt_floor x) as H2.
  assert (Ha : (inject_Z (Qfloor x) < inject_Z (z + 1))%Q) by (eapply Qle_lt_trans; eassumption).
  assert (Hb : (inject_Z z < inject_Z (Qfloor x + 1))%Q) by (eapply Qle_lt_trans; eassumption).
  rewrite <- Zlt_Qlt in Ha, Hb. lia.
Qed.

Lemma Qfloor_lt (x : Q) (z : Z) : (x < inject_Z z)%Q -> Qfloor x < z.
Proof.
  intros H. pose proof (Qfloor_le x) as H1.
  assert (Ha : (inject_Z (Qfloor x) < inject_Z z)%Q) by (eapply Qle_lt_trans; eassumption).
  rewrite <- Zlt_Qlt in Ha. exact Ha.
Qed.

Lemma Qfloor_ge (x : Q) (z : Z) : (inject_Z z <= x)%Q -> z <= Qfloor x.
Proof.
  intros H. pose proof (Qlt_floor x) as H1.
  assert (Ha : (inject_Z z < inject_Z (Qfloor x + 1))%Q) by (eapply Qle_lt_trans; eassumption).
  rewrite <- Zlt_Qlt in Ha. lia.
Qed.

Ltac push_inject :=
  unfold Z.sub in *;
  rewrite ?inject_Z_plus, ?inject_Z_opp, ?inject_Z_mult in *;
  repeat match goal with
         | |- context [inject_Z (Zpos ?p)] =>
             change (inject_Z (Zpos p)) with (Zpos p # 1)%Q
         | H : context [inject_Z (Zpos ?p)] |- _ =>
             change (inject_Z (Zpos p)) with (Zpos p # 1)%Q in H
         end.

Lemma round_half_even_near (u : Q) (m : Z) :
  (inject_Z m - (1 # 2) < u)%Q -> (u < inject_Z m + (1 # 2))%Q ->
  round_half_even u = m.
Proof.
  intros Hlo Hhi. unfold round_half_even.
  assert (Hf : Qfloor u = m \/ Qfloor u = m - 1).
  { assert (Ha : m - 1 <= Qfloor u) by (apply Qfloor_ge; push_inject; lra).
    assert (Hb : Qfloor u < m + 1) by (apply Qfloor_lt; push_inject; lra).
    lia. }
  destruct Hf as [Hf|Hf]; rewrite Hf.
  - destruct (Qcompare_spec (u - inject_Z m) (1 # 2)) as [E|E|E]; try reflexivity; lra.
  - destruct (Qcompare_spec (u - inject_Z (m - 1)) (1 # 2)) as [E|E|E];
      try lia; push_inject; lra.
Qed.

Lemma round_half_even_comp (x y : Q) :
  (x == y)%Q -> round_half_even x = round_half_even y.
Proof.
  intros H. unfold round_half_even. rewrite (Qfloor_comp _ _ H).
  replace (x - inject_Z (Qfloor y) ?= 1 # 2)%Q
    with (y - inject_Z (Qfloor y) ?= 1 # 2)%Q; [reflexivity|].
  apply Qcompare_comp; [|reflexivity]. rewrite H. reflexivity.
Qed.

Lemma pow2_pos (e : Z) : (0 < 2 ^ e)%Q.
Proof. apply Qpower_0_lt. reflexivity. Qed.

Lemma pow10_pos (e : Z) : (0 < 10 ^ e)%Q.
Proof. apply Qpower_0_lt. reflexivity. Qed.

Lemma pow2_plus (a b : Z) : (2 ^ (a + b) == 2 ^ a * 2 ^ b)%Q.
Proof. apply Qpower_plus. discriminate. Qed.

Lemma pow10_plus (a b : Z) : (10 ^ (a + b) == 10 ^ a * 10 ^ b)%Q.
Proof. apply Qpower_plus. discriminate. Qed.

Lemma pow2_cancel (e : Z) : (2 ^ e * 2 ^ (- e) == 1)%Q.
Proof. rewrite <- pow2_plus. replace (e + - e) with 0 by lia. reflexivity. Qed.

Lemma pow10_cancel (e : Z) : (10 ^ e * 10 ^ (- e) == 1)%Q.
Proof. rewrite <- pow10_plus. replace (e + - e) with 0 by lia. reflexivity. Qed.

Lemma pow2_le (a b : Z) : a <= b -> (2 ^ a <= 2 ^ b)%Q.
Proof. intros H. apply Qpower_le_compat_l; [exact H|]. discriminate. Qed.

Lemma pow2_lt (a b : Z) : a < b -> (2 ^ a < 2 ^ b)%Q.
Proof. intros H. apply Qpower_lt_compat_l; [exact H|]. reflexivity. Qed.

Lemma pow2_lt_inv (a b : Z) : (2 ^ a < 2 ^ b)%Q -> a < b.
Proof. intros H. eapply Qpower_lt_compat_l_inv; [exact H|]. reflexivity. Qed.

Lemma pow10_le (a b : Z) : a <= b -> (10 ^ a <= 10 ^ b)%Q.
Proof. intros H. apply Qpower_le_compat_l; [exact H|]. discriminate. Qed.

Lemma pow10_lt_inv (a b : Z) : (10 ^ a < 10 ^ b)%Q -> a < b.
Proof. intros H. eapply Qpower_lt_compat_l_inv; [exact H|]. reflexivity. Qed.

Lemma pow2_Z (n : Z) : 0 <= n -> (inject_Z (2 ^ n) == 2 ^ n)%Q.
Proof. intros H. apply (Zpower_Qpower 2 n H). Qed.

(** The rational [v] lies between two powers of two read off its numerator
    and denominator. *)
Lemma log2_bounds (v : Q) :
  0 < Qnum v ->
  let l := Z.log2 (Qnum v) - Z.log2 (Zpos (Qden v)) in
  (2 ^ (l - 1) < v)%Q /\ (v < 2 ^ (l + 1))%Q.
Proof.
  intros Hpos l.
  destruct v as [n d]. cbn [Qnum Qden] in *.
  destruct (Z.log2_spec n Hpos) as [Hn1 Hn2].
  destruct (Z.log2_spec (Zpos d) (Pos2Z.is_pos d)) as [Hd1 Hd2].
  pose proof (Z.log2_nonneg n) as Hln. pose proof (Z.log2_nonneg (Zpos d)) as Hld.
  set (a := Z.log2 n) in *. set (b := Z.log2 (Zpos d)) in *.
  apply inject_Z_le in Hn1, Hd1. apply inject_Z_lt in Hn2, Hd2.
  rewrite pow2_Z in Hn1, Hd1 by lia.
  replace (Z.succ a) with (a + 1) in Hn2 by lia.
  replace (Z.succ b) with (b + 1) in Hd2 by lia.
  rewrite pow2_Z in Hn2, Hd2 by lia.
  rewrite (Qmake_Qdiv n d).
  assert (Hdpos : (0 < inject_Z (Zpos d))%Q) by (apply (inject_Z_lt 0); lia).
  pose proof (pow2_pos a) as Pa. pose proof (pow2_pos b) as Pb.
  subst l. split.
  - apply Qlt_shift_div_l; [exact Hdpos|].
    replace (a - b - 1) with (a + - (b + 1)) by lia.
    rewrite pow2_plus. pose proof (pow2_cancel (b + 1)) as Hc.
    pose proof (pow2_pos (- (b + 1))) as Pc. pose proof (pow2_pos (b + 1)) as Pd.
    assert (H1 : (2 ^ (- (b + 1)) * inject_Z (Zpos d) < 1)%Q) by nra.
    assert (H2 : (2 ^ a * (2 ^ (- (b + 1)) * inject_Z (Zpos d)) < 2 ^ a)%Q) by nra.
    lra.
  - apply Qlt_shift_div_r; [exact Hdpos|].
    replace (a - b + 1) with ((a + 1) + - b) by lia.
    rewrite pow2_plus. pose proof (pow2_cancel b) as Hc.
    pose proof (pow2_pos (- b)) as Pc. pose proof (pow2_pos (a + 1)) as Pd.
    assert (H1 : (1 <= 2 ^ (- b) * inject_Z (Zpos d))%Q) by nra.
    assert (H2 : (2 ^ (a + 1) <= 2 ^ (a + 1) * (2 ^ (- b) * inject_Z (Zpos d)))%Q) by nra.
    lra.
Qed.

Lemma scale_up_eq fuel v e :
  scale_up fuel v e
  = if Qfloor (v * 2 ^ (- e))%Q <? 2 ^ 53 then
      let m := round_half_even (v * 2 ^ (- e))%Q in
      if m =? 2 ^ 53 then (if e + 1 <=? 971 then Some (2 ^ 52, e + 1) else None)
      else if e <=? 971 then Some (m, e) else None
    else
      match fuel with
      | O => None
      | S fuel' => scale_up fuel' v (e + 1)
      end.
Proof. destruct fuel; reflexivity. Qed.

Lemma scale_up_skip (n : nat) : forall fuel v e0,
  (n <= fuel)%nat ->
  (forall e, e0 <= e < e0 + Z.of_nat n -> (inject_Z (2 ^ 53) <= v * 2 ^ (- e))%Q) ->
  scale_up fuel v e0 = scale_up (fuel - n) v (e0 + Z.of_nat n).
Proof.
  induction n as [|n IH]; intros fuel v e0 Hn Hskip.
  - replace (fuel - 0)%nat with fuel by lia.
    replace (e0 + Z.of_nat 0) with e0 by lia. reflexivity.
  - destruct fuel as [|fuel]; [lia|].
    rewrite scale_up_eq.
    assert (Hno : (Qfloor (v * 2 ^ (- e0)) <? 2 ^ 53) = false).
    { apply Z.ltb_ge. apply Qfloor_ge. apply Hskip. lia. }
    rewrite Hno. rewrite IH; [|lia|].
    + f_equal. lia.
    + intros e He. apply Hskip. lia.
Qed.

Lemma binary64_inv m e :
  binary64 m e = true ->
  0 <= m < 2 ^ 53 /\ -1074 <= e <= 971 /\ (2 ^ 52 <= m \/ e = -1074).
Proof.
  unfold binary64. rewrite !andb_true_iff, orb_true_iff.
  rewrite !Z.leb_le, !Z.ltb_lt, Z.eqb_eq. tauto.
Qed.

Lemma scaled (v : Q) (e e' : Z) :
  Qeq (v * 2 ^ (- e')) (v * 2 ^ (- e) * 2 ^ (e - e')).
Proof.
  replace (- e') with (- e + (e - e')) by lia. rewrite pow2_plus. ring.
Qed.

Lemma round_fraction_near (v : Q) (m e : Z) :
  binary64 m e = true -> 0 < m ->
  ((inject_Z m - lower_gap m e) * 2 ^ e < v)%Q ->
  (v < (inject_Z m + (1 # 2)) * 2 ^ e)%Q ->
  round_fraction v = Some (m, e).
Proof.
  intros Hb Hm Hlo Hhi.
  apply binary64_inv in Hb. destruct Hb as ((_ & Hm53) & (He1 & He2) & Hnorm).
  change (2 ^ 53) with 9007199254740992 in *.
  change (2 ^ 52) with 4503599627370496 in *.
  set (u := (v * 2 ^ (- e))%Q).
  pose proof (pow2_pos e) as Pe. pose proof (pow2_pos (- e)) as Pne.
  pose proof (pow2_cancel e) as Hc.
  assert (Hv : (v == u * 2 ^ e)%Q).
  { unfold u. rewrite <- Qmult_assoc, (Qmult_comm (2 ^ (- e))), Hc. ring. }
  assert (Hulo : (inject_Z m - lower_gap m e < u)%Q).
  { rewrite Hv in Hlo. apply Qmult_lt_r in Hlo; assumption. }
  assert (Huhi : (u < inject_Z m + (1 # 2))%Q).
  { rewrite Hv in Hhi. apply Qmult_lt_r in Hhi; assumption. }
  assert (Hm1 : (1 <= inject_Z m)%Q) by (apply (inject_Z_le 1); lia).
  assert (Hm53q : (inject_Z m <= 9007199254740991)%Q)
    by (apply (inject_Z_le m 9007199254740991); lia).
  assert (Hgap : (lower_gap m e <= 1 # 2)%Q)
    by (unfold lower_gap; destruct (_ && _); lra).
  assert (Hupos : (0 < u)%Q) by lra.
  assert (Hvpos : (0 < v)%Q) by (rewrite Hv; nra).
  assert (Hnum : 0 < Qnum v).
  { unfold Qlt in Hvpos. simpl in Hvpos. lia. }
  unfold round_fraction.
  replace (Qnum v =? 0) with false by (symmetry; apply Z.eqb_neq; lia).
  destruct (log2_bounds v Hnum) as [Hl1 Hl2].
  set (l := Z.log2 (Qnum v) - Z.log2 (Z.pos (Qden v))) in *.
  set (e0 := Z.max (-1074) (l - 53)).
  assert (E53 : (2 ^ 53 == 9007199254740992)%Q) by reflexivity.
  assert (E51 : (2 ^ 51 == 2251799813685248)%Q) by reflexivity.
  assert (E1 : (2 ^ 1 == 2)%Q) by reflexivity.
  assert (E2 : (2 ^ 2 == 4)%Q) by reflexivity.
  assert (Hfit : forall et w,
            (v * 2 ^ (- et) == w)%Q ->
            e0 <= et -> et <= e0 + 3 ->
            (forall e', e0 <= e' < et -> (9007199254740992 <= v * 2 ^ (- e'))%Q) ->
            (w < 9007199254740992)%Q ->
            scale_up 3 v e0
            = let m' := round_half_even w in
              if m' =? 9007199254740992
              then (if et + 1 <=? 971 then Some (4503599627370496, et + 1) else None)
              else if et <=? 971 then Some (m', et) else None).
  { intros et w Hw H0 H3 Hskip Hlt.
    rewrite (scale_up_skip (Z.to_nat (et - e0)) 3 v e0); [|lia|].
    - replace (e0 + Z.of_nat (Z.to_nat (et - e0))) with et by lia.
      rewrite scale_up_eq.
      change (2 ^ 53) with 9007199254740992. change (2 ^ 52) with 4503599627370496.
      rewrite (Qfloor_comp _ _ Hw).
      replace (Qfloor w <? 9007199254740992) with true
        by (symmetry; apply Z.ltb_lt; apply Qfloor_lt; exact Hlt).
      cbv zeta. rewrite (round_half_even_comp _ _ Hw). reflexivity.
    - intros e' He'. change (inject_Z (2 ^ 53)) with 9007199254740992%Q.
      apply Hskip. lia. }
  assert (Hl_hi : forall b, (u < 2 ^ b)%Q -> l - 1 < b + e).
  { intros b Hub. apply pow2_lt_inv. rewrite pow2_plus.
    pose proof (pow2_pos b). rewrite Hv in Hl1. nra. }
  assert (Hl_lo : forall b, (2 ^ b < u)%Q -> b + e < l + 1).
  { intros b Hub. apply pow2_lt_inv. rewrite pow2_plus.
    pose proof (pow2_pos b). rewrite Hv in Hl2. nra. }
  destruct (Z.eqb_spec e (-1074)) as [Ee|Ee].
  - (* the lowest exponent: no search *)
    assert (He0 : e0 = e).
    { assert (l - 1 < 53 + e) by (apply Hl_hi; lra). unfold e0. lia. }
    rewrite (Hfit e u); try lia; try reflexivity.
    + assert (Hr : round_half_even u = m).
      { apply round_half_even_near; [|exact Huhi].
        unfold lower_gap in Hulo. rewrite (proj2 (Z.eqb_eq e (-1074)) Ee) in Hulo.
        rewrite andb_false_r in Hulo. exact Hulo. }
      cbv zeta. rewrite Hr.
      replace (m =? 9007199254740992) with false by (symmetry; apply Z.eqb_neq; lia).
      replace (e <=? 971) with true by (symmetry; apply Z.leb_le; lia).
      reflexivity.
    + lra.
  - assert (Hm52 : 4503599627370496 <= m) by lia.
    assert (Hm52q : (4503599627370496 <= inject_Z m)%Q)
      by (apply (inject_Z_le 4503599627370496 m); lia).
    assert (Hgap' : (1 # 4 <= lower_gap m e)%Q)
      by (unfold lower_gap; destruct (_ && _); lra).
    assert (Hl3 : 51 + e < l + 1) by (apply Hl_lo; lra).
    destruct (Qlt_le_dec u 4503599627370496) as [Hbelow|Habove].
    + (* just below a power of two: read off one exponent lower, with a carry *)
      assert (Em : m = 4503599627370496).
      { destruct (Z.eq_dec m 4503599627370496) as [E|E]; [exact E|].
        assert (Hq : (4503599627370497 <= inject_Z m)%Q)
          by (apply (inject_Z_le 4503599627370497 m); lia).
        lra. }
      subst m. change (inject_Z 4503599627370496) with 4503599627370496%Q in *.
      unfold lower_gap in Hulo. change (2 ^ 52) with 4503599627370496 in Hulo.
      rewrite Z.eqb_refl, (proj2 (Z.eqb_neq e (-1074)) Ee) in Hulo.
      cbn [andb negb] in Hulo.
      assert (Hl4 : l - 1 < 52 + e).
      { apply Hl_hi. assert (E52 : (2 ^ 52 == 4503599627370496)%Q) by reflexivity. lra. }
      rewrite (Hfit (e - 1) (u * 2)%Q); try (unfold e0; lia).
      * assert (Hr : round_half_even (u * 2) = 9007199254740992).
        { apply round_half_even_near;
            change (inject_Z 9007199254740992) with 9007199254740992%Q; lra. }
        cbv zeta. rewrite Hr. rewrite Z.eqb_refl.
        replace (e - 1 + 1) with e by lia.
        replace (e <=? 971) with true by (symmetry; apply Z.leb_le; lia).
        reflexivity.
      * rewrite (scaled v e (e - 1)). fold u. replace (e - (e - 1)) with 1 by lia.
        rewrite E1. reflexivity.
      * intros e' He'. rewrite (scaled v e e'). fold u.
        assert (Hp : (2 ^ 2 <= 2 ^ (e - e'))%Q) by (apply pow2_le; lia).
        rewrite E2 in Hp. nra.
      * lra.
    + rewrite (Hfit e u); try (unfold e0; lia); try reflexivity.
      * assert (Hr : round_half_even u = m).
        { apply round_half_even_near; [|exact Huhi].
          destruct (Z.eq_dec m 4503599627370496) as [E|E].
          - subst m. change (inject_Z 4503599627370496) with 4503599627370496%Q in *. lra.
          - unfold lower_gap in Hulo. change (2 ^ 52) with 4503599627370496 in Hulo.
            rewrite (proj2 (Z.eqb_neq m 4503599627370496) E) in Hulo. exact Hulo. }
        cbv zeta. rewrite Hr.
        replace (m =? 9007199254740992) with false by (symmetry; apply Z.eqb_neq; lia).
        replace (e <=? 971) with true by (symmetry; apply Z.leb_le; lia).
        reflexivity.
      * assert (l - 1 < 53 + e) by (apply Hl_hi; lra). unfold e0. lia.
      * intros e' He'. rewrite (scaled v e e'). fold u.
        assert (Hp : (2 ^ 1 <= 2 ^ (e - e'))%Q) by (apply pow2_le; lia).
        rewrite E1 in Hp. nra.
      * lra.
Qed.

Lemma round_binary64_near (v : Q) (m e : Z) :
  binary64 m e = true -> 0 < m ->
  ((inject_Z m - lower_gap m e) * 2 ^ e < v)%Q ->
  (v < (inject_Z m + (1 # 2)) * 2 ^ e)%Q ->
  round_binary64 v = Some (m, e).
Proof.
  intros Hb Hm Hlo Hhi. unfold round_binary64.
  apply round_fraction_near; try assumption; rewrite Qred_correct; assumption.
Qed.

Lemma round_binary64_comp (v w : Q) :
  (v == w)%Q -> round_binary64 v = round_binary64 w.
Proof.
  intros H. unfold round_binary64. rewrite (Qred_complete v w H). reflexivity.
Qed.

(** *** The shortest digits *)

Lemma float_value_pos m e : 0 < m -> (0 < float_value m e)%Q.
Proof.
  intros H. unfold float_value. pose proof (pow2_pos e).
  assert (0 < inject_Z m)%Q by (apply (inject_Z_lt 0); exact H). nra.
Qed.

Lemma shortest_reads (fuel : nat) : forall m e j,
  0 < m ->
  (exists j', j - Z.of_nat fuel <= j' <= j /\ candidate m e j') ->
  reads_as m e (fst (shortest fuel m e j)) (snd (shortest fuel m e j)) = true
  /\ 0 < fst (shortest fuel m e j).
Proof.
  induction fuel as [|fuel IH]; intros m e j Hm (j' & Hj' & Hcand).
  - assert (j' = j) by lia. subst j'. unfold candidate in Hcand.
    cbn [shortest]. cbv zeta.
    set (s := (float_value m e * 10 ^ (- j))%Q) in *.
    assert (Hlo : 0 <= Qfloor s).
    { apply Qfloor_ge. change (inject_Z 0) with 0%Q. unfold s.
      pose proof (float_value_pos m e Hm). pose proof (pow10_pos (- j)). nra. }
    destruct ((0 <? Qfloor s) && reads_as m e (Qfloor s) j) eqn:Eok;
      destruct (reads_as m e (Qfloor s + 1) j) eqn:Ehi; cbn [andb].
    + apply andb_prop in Eok as [Epos Eok]. apply Z.ltb_lt in Epos.
      destruct (s - inject_Z (Qfloor s) ?= 1 # 2)%Q; [destruct (Z.even _)| |];
        cbn [fst snd]; split; auto; lia.
    + apply andb_prop in Eok as [Epos Eok]. apply Z.ltb_lt in Epos.
      cbn [fst snd]. split; auto.
    + cbn [fst snd]. split; [auto|lia].
    + destruct Hcand; discriminate.
  - cbn [shortest]. cbv zeta.
    set (s := (float_value m e * 10 ^ (- j))%Q) in *.
    assert (Hlo : 0 <= Qfloor s).
    { apply Qfloor_ge. change (inject_Z 0) with 0%Q. unfold s.
      pose proof (float_value_pos m e Hm). pose proof (pow10_pos (- j)). nra. }
    destruct ((0 <? Qfloor s) && reads_as m e (Qfloor s) j) eqn:Eok;
      destruct (reads_as m e (Qfloor s + 1) j) eqn:Ehi; cbn [andb].
    + apply andb_prop in Eok as [Epos Eok]. apply Z.ltb_lt in Epos.
      destruct (s - inject_Z (Qfloor s) ?= 1 # 2)%Q; [destruct (Z.even _)| |];
        cbn [fst snd]; split; auto; lia.
    + apply andb_prop in Eok as [Epos Eok]. apply Z.ltb_lt in Epos.
      cbn [fst snd]. split; auto.
    + cbn [fst snd]. split; [auto|lia].
    + apply IH; [exact Hm|]. exists j'. split; [|exact Hcand].
      destruct (Z.eq_dec j' j) as [->|Hne]; [|lia].
      unfold candidate in Hcand. fold s in Hcand. destruct Hcand; congruence.
Qed.

Lemma log10_exists (x : Q) (n : nat) : forall lo,
  (10 ^ lo <= x)%Q -> (x < 10 ^ (lo + Z.of_nat n))%Q ->
  exists k, lo <= k < lo + Z.of_nat n /\ (10 ^ k <= x)%Q /\ (x < 10 ^ (k + 1))%Q.
Proof.
  induction n as [|n IH]; intros lo Hlo Hhi.
  - replace (lo + Z.of_nat 0) with lo in Hhi by lia. lra.
  - destruct (Qlt_le_dec x (10 ^ (lo + Z.of_nat n))) as [Hlt|Hge].
    + destruct (IH lo Hlo Hlt) as (k & Hk & H1 & H2). exists k. split; [lia|]. split; assumption.
    + exists (lo + Z.of_nat n). split; [lia|]. split; [exact Hge|].
      replace (lo + Z.of_nat n + 1) with (lo + Z.of_nat (S n)) by lia. exact Hhi.
Qed.

Lemma first_exponent_checked : forallb first_exponent_ok exponent_range = true.
Proof. vm_compute. reflexivity. Qed.

Lemma first_exponent_bounds (b : Z) :
  -1074 <= b <= 1025 ->
  let first := b * 30103 / 100000 + 2 in
  (2 ^ b <= 10 ^ (first + 17))%Q /\ (10 ^ (first - 24) <= 2 ^ (b - 1))%Q.
Proof.
  intros Hb first.
  pose proof first_exponent_checked as H. rewrite forallb_forall in H.
  specialize (H b). unfold first_exponent_ok in H. fold first in H.
  rewrite andb_true_iff, !Qle_bool_iff in H. apply H.
  unfold exponent_range. apply in_map_iff. exists (Z.to_nat (b + 1074)).
  split; [lia|]. apply in_seq. lia.
Qed.

Lemma reads_as_spec m e d j :
  reads_as m e d j = true <-> round_binary64 (inject_Z d * 10 ^ j)%Q = Some (m, e).
Proof.
  unfold reads_as. destruct (round_binary64 _) as [[m' e']|].
  - rewrite andb_true_iff, !Z.eqb_eq. split.
    + intros [-> ->]. reflexivity.
    + intros [= -> ->]. split; reflexivity.
  - split; discriminate.
Qed.

(** Seventeen digits are enough: the decimal of seventeen digits nearest to a
    binary64 value is read back as that value. *)
Lemma candidate_exists (m e : Z) :
  binary64 m e = true -> 0 < m ->
  exists j, first_exponent m e - 40 <= j <= first_exponent m e /\ candidate m e j.
Proof.
  intros Hb Hm. pose proof Hb as Hb'.
  apply binary64_inv in Hb'. destruct Hb' as ((_ & Hm53) & (He1 & He2) & Hnorm).
  change (2 ^ 53) with 9007199254740992 in *.
  change (2 ^ 52) with 4503599627370496 in *.
  set (x := float_value m e).
  assert (Hx : (x == inject_Z m * 2 ^ e)%Q) by reflexivity.
  pose proof (pow2_pos e) as Pe.
  assert (Hm1 : (1 <= inject_Z m)%Q) by (apply (inject_Z_le 1); lia).
  assert (Hm53q : (inject_Z m <= 9007199254740991)%Q)
    by (apply (inject_Z_le m 9007199254740991); lia).
  (* the binary exponent *)
  destruct (Z.log2_spec m Hm) as [HL1 HL2].
  pose proof (Z.log2_nonneg m) as HL0.
  assert (HL53 : Z.log2 m < 53).
  { apply (Z.pow_lt_mono_r_iff 2); [lia|lia|]. change (2 ^ 53) with 9007199254740992. lia. }
  set (L := Z.log2 m) in *.
  apply inject_Z_le in HL1. apply inject_Z_lt in HL2.
  replace (Z.succ L) with (L + 1) in HL2 by lia.
  rewrite pow2_Z in HL1, HL2 by lia.
  set (b := L + e + 1).
  assert (Hxb1 : (2 ^ (b - 1) <= x)%Q).
  { replace (b - 1) with (L + e) by (unfold b; lia). rewrite pow2_plus, Hx.
    pose proof (pow2_pos L). nra. }
  assert (Hxb2 : (x < 2 ^ b)%Q).
  { replace b with ((L + 1) + e) by (unfold b; lia). rewrite pow2_plus, Hx.
    pose proof (pow2_pos (L + 1)). nra. }
  destruct (first_exponent_bounds b) as [Hf1 Hf2]; [unfold b; lia|].
  unfold first_exponent. fold L. fold b.
  set (first := b * 30103 / 100000 + 2) in *.
  (* the decimal exponent *)
  destruct (log10_exists x 41 (first - 24)) as (k & Hk & Hk1 & Hk2).
  { lra. }
  { replace (first - 24 + Z.of_nat 41) with (first + 17) by lia. lra. }
  exists (k - 16). split; [lia|].
  unfold candidate. fold x.
  set (j := k - 16).
  set (s := (x * 10 ^ (- j))%Q).
  pose proof (pow10_pos j) as Pt. pose proof (pow10_pos (- j)) as Ptn.
  pose proof (pow10_cancel j) as Hc.
  assert (Hxs : (x == s * 10 ^ j)%Q).
  { unfold s. rewrite <- Qmult_assoc, (Qmult_comm (10 ^ (- j))), Hc. ring. }
  assert (Hs16 : (10000000000000000 <= s)%Q).
  { assert (E16 : (10 ^ 16 == 10000000000000000)%Q) by reflexivity.
    assert (Hk' : (10 ^ k == 10 ^ j * 10 ^ 16)%Q).
    { rewrite <- pow10_plus. replace (j + 16) with k by (unfold j; lia). reflexivity. }
    rewrite Hk', E16 in Hk1. unfold s.
    assert (H1 : (10 ^ j * 10000000000000000 * 10 ^ (- j) <= x * 10 ^ (- j))%Q)
      by (apply Qmult_le_compat_r; [exact Hk1|lra]).
    assert (H2 : (10 ^ j * 10000000000000000 * 10 ^ (- j) == 10000000000000000)%Q).
    { rewrite (Qmult_comm (10 ^ j)), <- Qmult_assoc, Hc. ring. }
    rewrite H2 in H1. exact H1. }
  pose proof (Qfloor_le s) as Hfl1. pose proof (Qlt_floor s) as Hfl2.
  rewrite inject_Z_plus in Hfl2. change (inject_Z 1) with 1%Q in Hfl2.
  set (lo := Qfloor s) in *.
  assert (Hlo16 : 10000000000000000 <= lo).
  { apply Qfloor_ge. exact Hs16. }
  assert (Hgap : (inject_Z m < 2 * lower_gap m e * s)%Q).
  { unfold lower_gap. change (2 ^ 52) with 4503599627370496.
    destruct (Z.eqb_spec m 4503599627370496) as [->|Hne]; cbn [andb].
    - change (inject_Z 4503599627370496) with 4503599627370496%Q.
      destruct (negb _); lra.
    - lra. }
  assert (Hgap2 : (lower_gap m e <= 1 # 2)%Q)
    by (unfold lower_gap; destruct (_ && _); lra).
  assert (Hgap4 : (1 # 4 <= lower_gap m e)%Q)
    by (unfold lower_gap; destruct (_ && _); lra).
  (* the nearer neighbour is read back *)
  assert (Hnear : forall c : Z,
            (s - (1 # 2) <= inject_Z c)%Q -> (inject_Z c <= s + (1 # 2))%Q ->
            reads_as m e c j = true).
  { intros c Hc1 Hc2. apply reads_as_spec. apply round_binary64_near; try assumption.
    - (* (m - g) 2^e < c 10^j *)
      set (g := lower_gap m e) in *. set (mq := inject_Z m) in *.
      set (cq := inject_Z c) in *. set (p := (2 ^ e)%Q) in *. set (t := (10 ^ j)%Q) in *.
      assert (Hmp : (mq * p == s * t)%Q) by (rewrite <- Hx, Hxs; reflexivity).
      assert (A1 : ((mq - g) * s < cq * mq)%Q) by nra.
      assert (A2 : ((mq - g) * s * t < cq * mq * t)%Q)
        by (apply Qmult_lt_compat_r; assumption).
      assert (A3 : ((mq - g) * p * mq < cq * t * mq)%Q).
      { assert (E1 : ((mq - g) * p * mq == (mq - g) * (mq * p))%Q) by ring.
        assert (E2 : (cq * t * mq == cq * mq * t)%Q) by ring.
        assert (E3 : ((mq - g) * s * t == (mq - g) * (s * t))%Q) by ring.
        rewrite E1, E2, Hmp, <- E3. exact A2. }
      apply Qmult_lt_r in A3; [exact A3|lra].
    - set (mq := inject_Z m) in *.
      set (cq := inject_Z c) in *. set (p := (2 ^ e)%Q) in *. set (t := (10 ^ j)%Q) in *.
      assert (Hmp : (mq * p == s * t)%Q) by (rewrite <- Hx, Hxs; reflexivity).
      assert (A1 : (cq * mq < (mq + (1 # 2)) * s)%Q) by nra.
      assert (A2 : (cq * mq * t < (mq + (1 # 2)) * s * t)%Q)
        by (apply Qmult_lt_compat_r; assumption).
      assert (A3 : (cq * t * mq < (mq + (1 # 2)) * p * mq)%Q).
      { assert (E1 : ((mq + (1 # 2)) * p * mq == (mq + (1 # 2)) * (mq * p))%Q) by ring.
        assert (E2 : (cq * t * mq == cq * mq * t)%Q) by ring.
        assert (E3 : ((mq + (1 # 2)) * s * t == (mq + (1 # 2)) * (s * t))%Q) by ring.
        rewrite E1, E2, Hmp, <- E3. exact A2. }
      apply Qmult_lt_r in A3; [exact A3|lra]. }
  destruct (Qlt_le_dec (1 # 2) (s - inject_Z lo)) as [Hup|Hdown].
  - right. apply Hnear; rewrite inject_Z_plus; change (inject_Z 1) with 1%Q; lra.
  - left. apply andb_true_intro. split; [apply Z.ltb_lt; lia|].
    apply Hnear; lra.
Qed.

Theorem float_digits_read_back (m e : Z) :
  binary64 m e = true -> 0 < m ->
  0 < fst (float_digits m e) /\
  round_binary64 (inject_Z (fst (float_digits m e)) * 10 ^ snd (float_digits m e))%Q
    = Some (m, e).
Proof.
  intros Hb Hm. unfold float_digits.
  destruct (shortest_reads 40 m e (first_exponent m e) Hm) as [Hr Hd].
  { destruct (candidate_exists m e Hb Hm) as (j & Hj & Hc).
    exists j. split; [|exact Hc]. change (Z.of_nat 40) with 40. lia. }
  split; [exact Hd|]. apply reads_as_spec. exact Hr.
Qed.

(** ** Floats as text *)

Lemma prepend_assoc a b c : prepend (prepend a b) c = prepend a (prepend b c).
Proof. induction a as [|x a IH]; simpl; [reflexivity|]. rewrite IH. reflexivity. Qed.

Lemma prepend_empty a : prepend a "" = a.
Proof. induction a as [|x a IH]; simpl; [reflexivity|]. rewrite IH. reflexivity. Qed.

Lemma length_prepend_Z a b :
  Z.of_nat (String.length (prepend a b))
  = Z.of_nat (String.length a) + Z.of_nat (String.length b).
Proof. induction a as [|x a IH]; simpl String.length; [lia|]. lia. Qed.

Lemma span_digits_prepend ds rest :
  only_digits ds = true -> no_digit_ahead rest = true ->
  span_digits (prepend ds rest) = (ds, rest).
Proof.
  intros Hd Hr. induction ds as [|c ds IH]; simpl.
  - destruct rest as [|c r]; [reflexivity|]. simpl in Hr.
    simpl. destruct (is_digit c); [discriminate|reflexivity].
  - simpl in Hd. apply andb_prop in Hd as [Hc Hd]. rewrite Hc, (IH Hd). reflexivity.
Qed.

Lemma digits_value_prepend s1 : forall a s2,
  digits_value a (prepend s1 s2) = digits_value (digits_value a s1) s2.
Proof. induction s1 as [|c s1 IH]; intros a s2; simpl; [reflexivity|]. apply IH. Qed.

Lemma digits_value_shift s : forall a,
  digits_value a s = a * 10 ^ Z.of_nat (String.length s) + digits_value 0 s.
Proof.
  induction s as [|c s IH]; intros a.
  - simpl. lia.
  - cbn [digits_value String.length]. rewrite IH, (IH (0 * 10 + _)).
    rewrite Nat2Z.inj_succ, Z.pow_succ_r by lia. ring.
Qed.

Lemma only_digits_prepend s1 s2 :
  only_digits (prepend s1 s2) = only_digits s1 && only_digits s2.
Proof.
  induction s1 as [|c s1 IH]; simpl; [reflexivity|]. rewrite IH, andb_assoc. reflexivity.
Qed.

Lemma digit_char_spec n :
  0 <= n < 10 ->
  is_digit (digit_char n) = true /\ Z.of_N (N_of_ascii (digit_char n)) - 48 = n
  /\ (0 < n -> Ascii.eqb (digit_char n) "0" = false).
Proof.
  intros H.
  assert (Hn : exists k : nat, (k < 10)%nat /\ n = Z.of_nat k)
    by (exists (Z.to_nat n); lia).
  destruct Hn as (k & Hk & ->).
  do 10 (destruct k as [|k]; [vm_compute; repeat split; congruence|]).
  lia.
Qed.

Lemma digits_of_S fuel n :
  digits_of (S fuel) n
  = if n <? 10 then String (digit_char n) ""
    else prepend (digits_of fuel (n / 10)) (String (digit_char (n mod 10)) "").
Proof. reflexivity. Qed.

Lemma digits_of_spec (fuel : nat) : forall n,
  0 <= n < 2 ^ Z.of_nat (S fuel) ->
  let ds := digits_of (S fuel) n in
  only_digits ds = true /\ digits_value 0 ds = n /\ (0 < n -> head_nonzero ds = true)
  /\ ds <> "".
Proof.
  induction fuel as [|fuel IH]; intros n Hn; cbv zeta; rewrite digits_of_S;
    (destruct (Z.ltb_spec n 10) as [Hlt|Hge];
     [ destruct (digit_char_spec n) as (H1 & H2 & H3); [lia|];
       cbn [only_digits digits_value head_nonzero]; rewrite H1;
       repeat split; try reflexivity; try lia; try discriminate;
       intros Hpos; rewrite (H3 Hpos); reflexivity
     | ]).
  - change (2 ^ Z.of_nat 1) with 2 in Hn. lia.
  - assert (Hq : 0 <= n / 10 < 2 ^ Z.of_nat (S fuel)).
    { rewrite (Nat2Z.inj_succ (S fuel)), Z.pow_succ_r in Hn by lia.
      split; [apply Z.div_pos; lia|]. apply Z.div_lt_upper_bound; lia. }
    destruct (IH (n / 10) Hq) as (I1 & I2 & I3 & I4).
    destruct (digit_char_spec (n mod 10)) as (H1 & H2 & _);
      [apply Z.mod_pos_bound; lia|].
    rewrite only_digits_prepend, digits_value_prepend, I1, I2.
    cbn [only_digits digits_value]. rewrite H1, H2.
    repeat split; try reflexivity.
    + pose proof (Z.div_mod n 10). lia.
    + intros _. assert (Hqpos : 0 < n / 10) by (apply Z.div_str_pos; lia).
      specialize (I3 Hqpos). destruct (digits_of (S fuel) (n / 10)); [discriminate|].
      exact I3.
    + destruct (digits_of (S fuel) (n / 10)); [congruence|discriminate].
Qed.

Lemma decimal_digits_spec n :
  0 < n ->
  let ds := decimal_digits n in
  only_digits ds = true /\ digits_value 0 ds = n /\ head_nonzero ds = true.
Proof.
  intros Hn ds. unfold ds, decimal_digits.
  destruct (digits_of_spec (Z.to_nat (Z.log2 n)) n) as (H1 & H2 & H3 & _).
  - rewrite Nat2Z.inj_succ, Z2Nat.id by apply Z.log2_nonneg.
    destruct (Z.log2_spec n Hn). lia.
  - auto.
Qed.

Lemma take_drop_chars n : forall s, prepend (take_chars n s) (drop_chars n s) = s.
Proof.
  induction n as [|n IH]; intros [|c s]; simpl; try reflexivity. rewrite IH. reflexivity.
Qed.

Lemma only_digits_take n : forall s, only_digits s = true -> only_digits (take_chars n s) = true.
Proof.
  induction n as [|n IH]; intros [|c s] H; simpl; try reflexivity.
  simpl in H. apply andb_prop in H as [H1 H2]. rewrite H1, (IH s H2). reflexivity.
Qed.

Lemma only_digits_drop n : forall s, only_digits s = true -> only_digits (drop_chars n s) = true.
Proof.
  induction n as [|n IH]; intros [|c s] H; simpl; try reflexivity; try exact H.
  simpl in H. apply andb_prop in H as [H1 H2]. apply IH. exact H2.
Qed.

Lemma length_drop_chars n : forall s,
  (n <= String.length s)%nat ->
  String.length (drop_chars n s) = (String.length s - n)%nat.
Proof.
  induction n as [|n IH]; intros [|c s] H; simpl in *; try lia. apply IH. lia.
Qed.

Lemma zeros_prepend n rest : zeros n rest = prepend (zeros n "") rest.
Proof. induction n as [|n IH]; simpl; [reflexivity|]. rewrite IH. reflexivity. Qed.

Lemma only_digits_zeros n : only_digits (zeros n "") = true.
Proof. induction n as [|n IH]; simpl; [reflexivity|]. exact IH. Qed.

Lemma length_zeros n : String.length (zeros n "") = n.
Proof. induction n as [|n IH]; simpl; [reflexivity|]. rewrite IH. reflexivity. Qed.

Lemma digits_value_zeros n : forall a, digits_value a (zeros n "") = a * 10 ^ Z.of_nat n.
Proof.
  induction n as [|n IH]; intros a.
  - simpl. lia.
  - cbn [zeros digits_value]. rewrite IH. change (Z.of_N (N_of_ascii "0") - 48) with 0.
    rewrite Nat2Z.inj_succ, Z.pow_succ_r by lia. ring.
Qed.

Lemma ends_number_no_digit rest : ends_number rest = true -> no_digit_ahead rest = true.
Proof.
  destruct rest as [|c r]; [reflexivity|]. simpl. intros H.
  apply andb_prop in H as [H _]. exact H.
Qed.

Lemma scan_fraction_none rest :
  ends_number rest = true -> scan_fraction rest = ("", rest).
Proof.
  destruct rest as [|c r]; [reflexivity|]. unfold ends_number, float_follows, scan_fraction.
  intros H. apply andb_prop in H as [_ H]. apply negb_true_iff in H.
  apply orb_false_iff in H as [H _]. apply orb_false_iff in H as [H _].
  rewrite H. reflexivity.
Qed.

Lemma scan_exponent_none rest :
  ends_number rest = true -> scan_exponent rest = (None, rest).
Proof.
  destruct rest as [|c r]; [reflexivity|]. unfold ends_number, float_follows, scan_exponent.
  intros H. apply andb_prop in H as [_ H]. apply negb_true_iff in H.
  apply orb_false_iff in H as [H H3]. apply orb_false_iff in H as [_ H2].
  rewrite H2, H3. reflexivity.
Qed.

Lemma scan_fraction_digits fs rest :
  only_digits fs = true -> fs <> "" -> no_digit_ahead rest = true ->
  scan_fraction (String "." (prepend fs rest)) = (fs, rest).
Proof.
  intros Hd Hne Hr. unfold scan_fraction.
  change (Ascii.eqb "." ".") with true. cbv iota.
  rewrite (span_digits_prepend fs rest Hd Hr).
  destruct fs; [congruence|reflexivity].
Qed.

Lemma scan_fraction_exponent r : scan_fraction (String "e" r) = ("", String "e" r).
Proof. reflexivity. Qed.

Lemma scan_exponent_emit x rest :
  no_digit_ahead rest = true ->
  scan_exponent (String "e" (emit_exponent x rest)) = (Some x, rest).
Proof.
  intros Hr. unfold scan_exponent, emit_exponent.
  change (Ascii.eqb "e" "e" || Ascii.eqb "e" "E") with true. cbv iota.
  assert (Hdigits : exists es,
            (if Z.abs x <? 10 then String "0" (String (digit_char (Z.abs x)) rest)
             else prepend (decimal_digits (Z.abs x)) rest) = prepend es rest
            /\ only_digits es = true /\ es <> "" /\ digits_value 0 es = Z.abs x).
  { destruct (Z.ltb_spec (Z.abs x) 10) as [Hlt|Hge].
    - destruct (digit_char_spec (Z.abs x)) as (H1 & H2 & _); [lia|].
      exists (String "0" (String (digit_char (Z.abs x)) "")).
      cbn [prepend only_digits digits_value]. rewrite H1, H2.
      repeat split; try reflexivity. discriminate.
    - destruct (decimal_digits_spec (Z.abs x)) as (H1 & H2 & H3); [lia|].
      exists (decimal_digits (Z.abs x)). repeat split; try assumption.
      intros E. rewrite E in H3. discriminate. }
  destruct Hdigits as (es & -> & Hd & Hne & Hv).
  destruct (Z.ltb_spec x 0) as [Hneg|Hpos].
  - change (Ascii.eqb "-" "-") with true. cbv iota.
    rewrite (span_digits_prepend es rest Hd Hr).
    destruct es; [congruence|]. rewrite Hv. f_equal. f_equal. lia.
  - change (Ascii.eqb "+" "-") with false. change (Ascii.eqb "+" "+") with true. cbv iota.
    rewrite (span_digits_prepend es rest Hd Hr).
    destruct es; [congruence|]. rewrite Hv. f_equal. f_equal. lia.
Qed.

Lemma pow10_Z (n : Z) : 0 <= n -> (inject_Z (10 ^ n) == 10 ^ n)%Q.
Proof. intros H. apply (Zpower_Qpower 10 n H). Qed.

(** What the reader finds in the digits laid out by [emit_digits]: an
    integer part, then a fraction or an exponent, and together the number
    [d * 10^(decpt - nd)]. *)
Lemma emit_digits_shape ds decpt rest :
  only_digits ds = true -> head_nonzero ds = true -> ends_number rest = true ->
  exists ip r1 fs r2 ex,
    span_digits (emit_digits ds decpt rest) = (ip, r1) /\
    (match ip with
     | "" => true
     | String d ip' => Ascii.eqb d "0" && negb (String.eqb ip' "")
     end) = false /\
    float_follows r1 = true /\
    scan_fraction r1 = (fs, r2) /\
    scan_exponent r2 = (ex, rest) /\
    (match fs, ex with "", None => false | _, _ => true end) = true /\
    (inject_Z (digits_value (digits_value 0 ip) fs)
       * 10 ^ (default 0 ex - Z.of_nat (String.length fs))%Z
     == inject_Z (digits_value 0 ds) * 10 ^ (decpt - Z.of_nat (String.length ds))%Z)%Q.
Proof.
  intros Hd Hh Hr.
  pose proof (ends_number_no_digit rest Hr) as Hr'.
  unfold emit_digits.
  set (nd := Z.of_nat (String.length ds)).
  destruct ((-4 <? decpt) && (decpt <=? 16)) eqn:Efix.
  - destruct (Z.leb_spec decpt 0) as [H0|H0].
    + (* 0.000ddd *)
      exists "0", (String "." (zeros (Z.to_nat (- decpt)) (prepend ds rest))),
        (prepend (zeros (Z.to_nat (- decpt)) "") ds), rest, None.
      rewrite (zeros_prepend _ (prepend ds rest)), <- prepend_assoc.
      assert (Hfs : only_digits (prepend (zeros (Z.to_nat (- decpt)) "") ds) = true)
        by (rewrite only_digits_prepend, only_digits_zeros, Hd; reflexivity).
      assert (Hne : prepend (zeros (Z.to_nat (- decpt)) "") ds <> "").
      { destruct ds; [discriminate|]. destruct (zeros _ ""); discriminate. }
      split; [reflexivity|]. split; [reflexivity|]. split; [reflexivity|].
      split; [apply scan_fraction_digits; assumption|].
      split; [apply scan_exponent_none; exact Hr|].
      split.
      { destruct (prepend _ ds); [congruence|reflexivity]. }
      cbn [default]. rewrite digits_value_prepend, digits_value_zeros.
      rewrite length_prepend_Z, length_zeros.
      change (digits_value 0 "0") with 0. rewrite Z.mul_0_l.
      fold nd. replace (0 - (Z.of_nat (Z.to_nat (- decpt)) + nd)) with (decpt - nd) by lia.
      reflexivity.
    + destruct (Z.ltb_spec decpt nd) as [H1|H1].
      * (* ddd.ddd *)
        set (k := Z.to_nat decpt).
        exists (take_chars k ds), (String "." (prepend (drop_chars k ds) rest)),
          (drop_chars k ds), rest, None.
        assert (Hk : (0 < k <= String.length ds)%nat) by (unfold k, nd in *; lia).
        assert (Hdrop : drop_chars k ds <> "").
        { intros E. pose proof (length_drop_chars k ds ltac:(lia)) as L.
          rewrite E in L. simpl in L. unfold k, nd in *. lia. }
        split.
        { apply span_digits_prepend; [apply only_digits_take; exact Hd|reflexivity]. }
        split.
        { destruct k as [|k']; [lia|]. destruct ds as [|c ds]; [discriminate|].
          simpl in *. apply negb_true_iff in Hh. rewrite Hh. reflexivity. }
        split; [reflexivity|].
        split; [apply scan_fraction_digits;
                [apply only_digits_drop; exact Hd|exact Hdrop|exact Hr']|].
        split; [apply scan_exponent_none; exact Hr|].
        split.
        { destruct (drop_chars k ds); [congruence|reflexivity]. }
        cbn [default]. rewrite <- digits_value_prepend, take_drop_chars.
        rewrite length_drop_chars by lia.
        replace (0 - Z.of_nat (String.length ds - k)) with (decpt - nd)
          by (unfold k, nd; lia).
        reflexivity.
      * (* ddd000.0 *)
        set (z := Z.to_nat (decpt - nd)).
        exists (prepend ds (zeros z "")), (String "." (String "0" rest)), "0", rest, None.
        rewrite (zeros_prepend z (String "." _)), <- prepend_assoc.
        split.
        { apply span_digits_prepend; [|reflexivity].
          rewrite only_digits_prepend, Hd, only_digits_zeros. reflexivity. }
        split.
        { destruct ds as [|c ds]; [discriminate|]. simpl in *.
          apply negb_true_iff in Hh. rewrite Hh. reflexivity. }
        split; [reflexivity|].
        split.
        { apply (scan_fraction_digits "0" rest); [reflexivity|discriminate|exact Hr']. }
        split; [apply scan_exponent_none; exact Hr|].
        split; [reflexivity|].
        cbn [default String.length digits_value].
        rewrite digits_value_prepend, digits_value_zeros.
        change (Z.of_N (N_of_ascii "0") - 48) with 0.
        change (0 - Z.of_nat 1) with (-1).
        replace (decpt - nd) with (Z.of_nat z) by (unfold z; lia).
        rewrite Z.add_0_r, !inject_Z_mult, pow10_Z by lia.
        change (inject_Z 10) with 10%Q.
        assert (E : (10 * 10 ^ (-1) == 1)%Q) by reflexivity.
        rewrite <- Qmult_assoc, E. ring.
  - (* d.ddde+XX *)
    destruct ds as [|d tl]; [discriminate|].
    simpl in Hd. apply andb_prop in Hd as [Hd0 Hd].
    destruct tl as [|d1 tl].
    + exists (String d ""), (String "e" (emit_exponent (decpt - 1) rest)), "",
        (String "e" (emit_exponent (decpt - 1) rest)), (Some (decpt - 1)).
      split; [simpl; rewrite Hd0; reflexivity|].
      split; [simpl; apply andb_false_r|].
      split; [reflexivity|]. split; [reflexivity|].
      split; [apply scan_exponent_emit; exact Hr'|].
      split; [reflexivity|].
      cbn [default String.length digits_value]. unfold id, nd. cbn [String.length].
      replace (decpt - 1 - Z.of_nat 0) with (decpt - Z.of_nat 1) by lia. reflexivity.
    + exists (String d ""),
        (String "." (prepend (String d1 tl) (String "e" (emit_exponent (decpt - 1) rest)))),
        (String d1 tl), (String "e" (emit_exponent (decpt - 1) rest)), (Some (decpt - 1)).
      split; [simpl; rewrite Hd0; reflexivity|].
      split; [simpl; apply andb_false_r|].
      split; [reflexivity|].
      split; [apply scan_fraction_digits; [exact Hd|discriminate|reflexivity]|].
      split; [apply scan_exponent_emit; exact Hr'|].
      split; [reflexivity|].
      cbn [default]. unfold id, nd.
      replace (decpt - 1 - Z.of_nat (String.length (String d1 tl)))
        with (decpt - Z.of_nat (String.length (String d (String d1 tl))))
        by (cbn [String.length]; lia).
      reflexivity.
Qed.

Lemma float_of_decimal_comp s n k n' k' :
  (inject_Z n * 10 ^ k == inject_Z n' * 10 ^ k')%Q ->
  float_of_decimal s n k = float_of_decimal s n' k'.
Proof.
  intros H. unfold float_of_decimal. rewrite (round_binary64_comp _ _ H). reflexivity.
Qed.

Lemma span_digits_head s d ip r :
  span_digits s = (String d ip, r) -> exists s', s = String d s' /\ is_digit d = true.
Proof.
  destruct s as [|c s']; simpl; [discriminate|].
  destruct (is_digit c) eqn:E; [|discriminate].
  destruct (span_digits s') as [ds rest]. intros [= -> _ _]. eauto.
Qed.

Lemma is_digit_not_minus c : is_digit c = true -> Ascii.eqb c "-" = false.
Proof.
  intros H. destruct (Ascii.eqb_spec c "-") as [->|]; [discriminate|reflexivity].
Qed.

(** A laid-out number is read by [scan_magnitude] as the number it shows and
    is no integer for [scan_digits]. *)
Lemma scan_laid_out negative body rest ip r1 fs r2 ex n k :
  span_digits body = (ip, r1) ->
  (match ip with
   | "" => true
   | String d ip' => Ascii.eqb d "0" && negb (String.eqb ip' "")
   end) = false ->
  float_follows r1 = true ->
  scan_fraction r1 = (fs, r2) ->
  scan_exponent r2 = (ex, rest) ->
  (match fs, ex with "", None => false | _, _ => true end) = true ->
  (inject_Z (digits_value (digits_value 0 ip) fs)
     * 10 ^ (default 0 ex - Z.of_nat (String.length fs))%Z
   == inject_Z n * 10 ^ k)%Q ->
  scan_float (if negative : bool then String "-" body else body)
    = Some (float_of_decimal negative n k, rest)
  /\ scan_int (if negative : bool then String "-" body else body) = None.
Proof.
  intros Hspan Hlead Hfollows Hfrac Hexp Hsome Hval.
  destruct ip as [|d ip']; [discriminate|].
  destruct (span_digits_head _ _ _ _ Hspan) as (s' & -> & Hd).
  pose proof (is_digit_not_minus d Hd) as Hminus.
  assert (Hmag : scan_magnitude negative (String d s')
                 = Some (float_of_decimal negative n k, rest)).
  { unfold scan_magnitude. rewrite Hspan, Hlead, Hfrac, Hexp.
    rewrite (float_of_decimal_comp negative _ _ n k Hval).
    destruct fs; [destruct ex; [reflexivity|discriminate]|reflexivity]. }
  assert (Hdig : scan_digits (String d s') = None).
  { unfold scan_digits. rewrite Hspan, Hlead, Hfollows. reflexivity. }
  destruct negative.
  - split.
    + unfold scan_float. change (Ascii.eqb "-" "-") with true. exact Hmag.
    + unfold scan_int. change (Ascii.eqb "-" "-") with true. cbv iota.
      rewrite Hdig. reflexivity.
  - split.
    + unfold scan_float. rewrite Hminus. exact Hmag.
    + unfold scan_int. rewrite Hminus, Hdig. reflexivity.
Qed.

Theorem scan_float_emit negative m e rest :
  binary64 m e = true ->
  ends_number rest = true ->
  scan_float (emit_float (FFinite negative m e) rest) = Some (FFinite negative m e, rest)
  /\ scan_int (emit_float (FFinite negative m e) rest) = None.
Proof.
  intros Hb Hr. pose proof (ends_number_no_digit rest Hr) as Hr'.
  pose proof (binary64_inv m e Hb) as ((Hm0 & _) & _ & Hnorm).
  unfold emit_float. cbv zeta.
  destruct (Z.leb_spec m 0) as [Hzero|Hpos].
  - assert (m = 0) by lia. subst m.
    assert (e = -1074) by (change (2 ^ 52) with 4503599627370496 in Hnorm; lia). subst e.
    replace (if negative then String "-" (prepend "0.0" rest) else prepend "0.0" rest)
      with (if negative then String "-" (String "0" (String "." (String "0" rest)))
            else String "0" (String "." (String "0" rest)))
      by (destruct negative; reflexivity).
    destruct (scan_laid_out negative (String "0" (String "." (String "0" rest))) rest
                "0" (String "." (String "0" rest)) "0" rest None 0 (-1))
      as [H1 H2]; try reflexivity.
    + apply (scan_fraction_digits "0" rest);
        first [reflexivity | discriminate | exact Hr'].
    + apply scan_exponent_none. exact Hr.
    + split; [|exact H2]. rewrite H1. reflexivity.
  - destruct (float_digits_read_back m e Hb Hpos) as [Hd Hread].
    set (D := fst (float_digits m e)) in *. set (j := snd (float_digits m e)) in *.
    destruct (decimal_digits_spec D Hd) as (H1 & H2 & H3).
    set (ds := decimal_digits D) in *.
    destruct (emit_digits_shape ds (Z.of_nat (String.length ds) + j) rest H1 H3 Hr)
      as (ip & r1 & fs & r2 & ex & Hspan & Hlead & Hfollows & Hfrac & Hexp & Hsome & Hval).
    rewrite H2 in Hval.
    replace (Z.of_nat (String.length ds) + j - Z.of_nat (String.length ds)) with j
      in Hval by lia.
    destruct (scan_laid_out negative _ rest ip r1 fs r2 ex D j
                Hspan Hlead Hfollows Hfrac Hexp Hsome Hval) as [Hf Hi].
    split; [|exact Hi]. rewrite Hf. f_equal. f_equal.
    unfold float_of_decimal. rewrite Hread. reflexivity.
Qed.

(** ** Text and its escapes *)

Lemma scan_string_u h1 h2 h3 h4 t :
  scan_string (String "\" (String "u" (String h1 (String h2 (String h3 (String h4 t))))))
  = match hex4 h1 h2 h3 h4 with
    | Some n =>
        let lone := cons_text (utf8 n) (scan_string t) in
        if high_surrogate n then
          match pair_ahead t with
          | None => lone
          | Some None => None
          | Some (Some (n2, t')) =>
              if low_surrogate n2 then
                cons_text (utf8 (65536 + (n - 55296) * 1024 + (n2 - 56320))%N)
                  (scan_string t')
              else lone
          end
        else lone
    | None => None
    end.
Proof.
  change (scan_string (String "\" (String "u" (String h1 (String h2 (String h3 (String h4 t)))))))
    with (match hex4 h1 h2 h3 h4 with
          | Some n =>
              let lone := cons_text (utf8 n) (scan_string t) in
              if high_surrogate n then
                match t with
                | "" => lone
                | String b1 t1 =>
                    if Ascii.eqb b1 "\" then
                      match t1 with
                      | "" => lone
                      | String b2 t2 =>
                          if Ascii.eqb b2 "u" then
                            match t2 with
                            | String g1 (String g2 (String g3 (String g4 t'))) =>
                                match hex4 g1 g2 g3 g4 with
                                | Some n2 =>
                                    if low_surrogate n2 then
                                      cons_text
                                        (utf8 (65536 + (n - 55296) * 1024
                                               + (n2 - 56320))%N)
                                        (scan_string t')
                                    else lone
                                | None => None
                                end
                            | _ => None
                            end
                          else lone
                      end
                    else lone
                end
              else lone
          | None => None
          end).
  destruct (hex4 h1 h2 h3 h4) as [n|]; [|reflexivity]. cbv zeta.
  destruct (high_surrogate n); [|reflexivity].
  unfold pair_ahead.
  destruct t as [|b1 [|b2 t2]]; try reflexivity.
  - destruct (Ascii.eqb b1 "\"); reflexivity.
  - destruct (Ascii.eqb b1 "\"); [|reflexivity].
    destruct (Ascii.eqb b2 "u"); [|reflexivity].
    destruct t2 as [|g1 [|g2 [|g3 [|g4 t']]]]; try reflexivity.
    destruct (hex4 g1 g2 g3 g4); reflexivity.
Qed.

Lemma hex_value_digit (k : N) : (k < 16)%N -> hex_value (hex_digit k) = Some k.
Proof.
  intros H.
  assert (Hk : (k = 0 \/ k = 1 \/ k = 2 \/ k = 3 \/ k = 4 \/ k = 5 \/ k = 6 \/ k = 7
                \/ k = 8 \/ k = 9 \/ k = 10 \/ k = 11 \/ k = 12 \/ k = 13 \/ k = 14
                \/ k = 15)%N) by lia.
  repeat (destruct Hk as [->|Hk]; [reflexivity|]). subst k. reflexivity.
Qed.

Lemma hex4_escape (n : N) :
  (n < 65536)%N ->
  hex4 (hex_digit (n / 4096)) (hex_digit (n / 256 mod 16)) (hex_digit (n / 16 mod 16))
    (hex_digit (n mod 16)) = Some n.
Proof.
  intros H. unfold hex4.
  rewrite !hex_value_digit;
    try (apply N.mod_lt; discriminate);
    try (apply N.Div0.div_lt_upper_bound; lia).
  cbn [mbind option_bind]. f_equal.
  pose proof (N.div_mod n 16 ltac:(discriminate)).
  pose proof (N.div_mod (n / 16) 16 ltac:(discriminate)).
  pose proof (N.div_mod (n / 256) 16 ltac:(discriminate)).
  assert (n / 256 = n / 16 / 16)%N by (rewrite N.Div0.div_div; reflexivity).
  assert (n / 4096 = n / 256 / 16)%N by (rewrite N.Div0.div_div; reflexivity).
  assert (n / 4096 < 16)%N by (apply N.Div0.div_lt_upper_bound; lia).
  assert (n / 4096 mod 16 = n / 4096)%N by (apply N.mod_small; assumption).
  lia.
Qed.

Lemma scan_escape_plain (n : N) tail :
  (n < 65536)%N -> high_surrogate n = false ->
  scan_string (escape_u n tail) = cons_text (utf8 n) (scan_string tail).
Proof.
  intros Hn Hh. unfold escape_u. rewrite scan_string_u, (hex4_escape n Hn).
  cbv zeta. rewrite Hh. reflexivity.
Qed.

Lemma scan_escape_lone (n : N) tail :
  (n < 65536)%N ->
  match pair_ahead tail with
  | None => True
  | Some None => False
  | Some (Some (n2, _)) => low_surrogate n2 = false
  end ->
  scan_string (escape_u n tail) = cons_text (utf8 n) (scan_string tail).
Proof.
  intros Hn Hahead. unfold escape_u. rewrite scan_string_u, (hex4_escape n Hn).
  cbv zeta. destruct (high_surrogate n); [|reflexivity].
  destruct (pair_ahead tail) as [[[n2 t']|]|]; try reflexivity; [|contradiction].
  rewrite Hahead. reflexivity.
Qed.

Lemma pair_ahead_escape (n : N) tail :
  (n < 65536)%N -> pair_ahead (escape_u n tail) = Some (Some (n, tail)).
Proof.
  intros Hn. unfold escape_u, pair_ahead.
  change (Ascii.eqb "\" "\") with true. change (Ascii.eqb "u" "u") with true.
  cbv iota. rewrite (hex4_escape n Hn). reflexivity.
Qed.

Lemma scan_escape_pair (v : N) tail :
  (v < 1048576)%N ->
  scan_string (escape_u (55296 + v / 1024) (escape_u (56320 + v mod 1024) tail))
  = cons_text (utf8 (65536 + v)) (scan_string tail).
Proof.
  intros Hv.
  assert (Hq : (v / 1024 < 1024)%N) by (apply N.Div0.div_lt_upper_bound; lia).
  assert (Hr : (v mod 1024 < 1024)%N) by (apply N.mod_lt; discriminate).
  pose proof (N.div_mod v 1024 ltac:(discriminate)) as Hdm.
  set (q := (v / 1024)%N) in *. set (r := (v mod 1024)%N) in *.
  clearbody q r.
  unfold escape_u at 1. rewrite scan_string_u, hex4_escape by lia.
  cbv zeta.
  assert (Hhigh : high_surrogate (55296 + q) = true).
  { unfold high_surrogate. apply andb_true_intro. split;
      [apply N.leb_le|apply N.ltb_lt]; lia. }
  rewrite Hhigh, pair_ahead_escape by lia.
  assert (Hlow : low_surrogate (56320 + r) = true).
  { unfold low_surrogate. apply andb_true_intro. split;
      [apply N.leb_le|apply N.ltb_lt]; lia. }
  rewrite Hlow. f_equal. f_equal. lia.
Qed.

(** Below U+0080 every code point is one byte, read back from its escape or
    from itself. *)
Lemma scan_ascii (c : ascii) tail :
  (N_of_ascii c < 128)%N ->
  scan_string (emit_codepoint (N_of_ascii c) tail)
  = cons_text (String c "") (scan_string tail).
Proof.
  destruct c as [b0 b1 b2 b3 b4 b5 b6 b7].
  destruct b7; [intros H; exfalso; revert H;
                destruct b0, b1, b2, b3, b4, b5, b6; vm_compute; congruence|].
  intros _.
  destruct b0, b1, b2, b3, b4, b5, b6; reflexivity.
Qed.

Lemma emit_codepoint_escape cp tail :
  (128 <= cp < 65536)%N -> emit_codepoint cp tail = escape_u cp tail.
Proof.
  intros H. unfold emit_codepoint.
  repeat match goal with
         | |- context [(cp =? ?k)%N] =>
             replace (cp =? k)%N with false by (symmetry; apply N.eqb_neq; lia)
         end.
  replace (cp <=? 126)%N with false by (symmetry; apply N.leb_gt; lia).
  rewrite andb_false_r.
  replace (cp <? 65536)%N with true by (symmetry; apply N.ltb_lt; lia).
  reflexivity.
Qed.

Lemma emit_codepoint_pair cp tail :
  (65536 <= cp)%N ->
  emit_codepoint cp tail
  = escape_u (55296 + (cp - 65536) / 1024)
      (escape_u (56320 + (cp - 65536) mod 1024) tail).
Proof.
  intros H. unfold emit_codepoint.
  repeat match goal with
         | |- context [(cp =? ?k)%N] =>
             replace (cp =? k)%N with false by (symmetry; apply N.eqb_neq; lia)
         end.
  replace (cp <=? 126)%N with false by (symmetry; apply N.leb_gt; lia).
  rewrite andb_false_r.
  replace (cp <? 65536)%N with false by (symmetry; apply N.ltb_ge; lia).
  reflexivity.
Qed.

Lemma scan_codepoint cp tail :
  codepoint_ok cp = true ->
  (high_surrogate cp = true -> no_low_ahead tail) ->
  scan_string (emit_codepoint cp tail) = cons_text (utf8 cp) (scan_string tail).
Proof.
  intros Hok Hahead. apply N.ltb_lt in Hok.
  destruct (N.ltb_spec cp 128) as [Hascii|Hwide].
  - pose proof (N_ascii_embedding cp ltac:(lia)) as Hemb.
    rewrite <- Hemb at 1. rewrite scan_ascii by (rewrite Hemb; exact Hascii).
    unfold utf8. replace (cp <? 128)%N with true by (symmetry; apply N.ltb_lt; lia).
    reflexivity.
  - destruct (N.ltb_spec cp 65536) as [Hbmp|Hastral].
    + rewrite emit_codepoint_escape by lia.
      destruct (high_surrogate cp) eqn:Hh.
      * apply scan_escape_lone; [exact Hbmp|]. apply Hahead. reflexivity.
      * apply scan_escape_plain; assumption.
    + rewrite emit_codepoint_pair by exact Hastral.
      rewrite scan_escape_pair by lia. f_equal. f_equal. lia.
Qed.

Lemma no_low_ahead_quote rest : no_low_ahead (String dquote rest).
Proof. exact I. Qed.

Lemma no_low_ahead_codepoint cp tail :
  codepoint_ok cp = true -> low_surrogate cp = false ->
  no_low_ahead (emit_codepoint cp tail).
Proof.
  intros Hok Hlow. apply N.ltb_lt in Hok. unfold no_low_ahead.
  destruct (N.ltb_spec cp 128) as [Hascii|Hwide].
  - pose proof (N_ascii_embedding cp ltac:(lia)) as Hemb. rewrite <- Hemb.
    revert Hemb. generalize (ascii_of_N cp). intros c Hc.
    assert (Hc' : (N_of_ascii c < 128)%N) by (rewrite Hc; exact Hascii).
    clear -Hc'. revert Hc'.
    destruct c as [b0 b1 b2 b3 b4 b5 b6 b7].
    destruct b7; [intros H; exfalso; revert H;
                  destruct b0, b1, b2, b3, b4, b5, b6; vm_compute; congruence|].
    intros _. destruct b0, b1, b2, b3, b4, b5, b6; vm_compute; auto.
  - destruct (N.ltb_spec cp 65536) as [Hbmp|Hastral].
    + rewrite emit_codepoint_escape, pair_ahead_escape by lia. exact Hlow.
    + rewrite emit_codepoint_pair by exact Hastral.
      assert (Hq : ((cp - 65536) / 1024 < 1024)%N)
        by (apply N.Div0.div_lt_upper_bound; lia).
      set (q := ((cp - 65536) / 1024)%N) in *. clearbody q.
      rewrite pair_ahead_escape by lia.
      unfold low_surrogate. apply andb_false_intro1. apply N.leb_gt. lia.
Qed.

Lemma no_low_ahead_codepoints cps rest :
  forallb codepoint_ok cps = true ->
  match cps with
  | cp :: _ => low_surrogate cp = false
  | [] => True
  end ->
  no_low_ahead (emit_codepoints cps (String dquote rest)).
Proof.
  destruct cps as [|cp cps]; intros Hok Hhead.
  - apply no_low_ahead_quote.
  - cbn [emit_codepoints]. simpl in Hok. apply andb_prop in Hok as [Hok _].
    apply no_low_ahead_codepoint; assumption.
Qed.

(** The escaped code points are read back as their UTF-8 text. *)
Lemma scan_string_codepoints rest : forall cps,
  forallb codepoint_ok cps = true -> no_split_pair cps = true ->
  scan_string (emit_codepoints cps (String dquote rest)) = Some (text_of cps, rest).
Proof.
  induction cps as [|cp cps IH]; intros Hok Hpair.
  - simpl. change (Ascii.eqb dquote dquote) with true. reflexivity.
  - cbn [forallb] in Hok. apply andb_prop in Hok as [Hcp Hok].
    cbn [no_split_pair] in Hpair. apply andb_prop in Hpair as [Hhead Hpair].
    cbn [emit_codepoints text_of].
    rewrite scan_codepoint; [rewrite (IH Hok Hpair); reflexivity|exact Hcp|].
    intros Hhigh. rewrite Hhigh in Hhead. cbn [andb] in Hhead.
    apply no_low_ahead_codepoints; [exact Hok|].
    destruct cps as [|cp2 cps']; [exact I|].
    apply negb_true_iff in Hhead. exact Hhead.
Qed.

Lemma scan_string_emit s rest :
  text_ok s = true ->
  scan_string (emit_chars s (String dquote rest)) = Some (s, rest).
Proof.
  unfold text_ok. rewrite !andb_true_iff. intros [[Htext Hok] Hpair].
  apply String.eqb_eq in Htext.
  unfold emit_chars. rewrite scan_string_codepoints by assumption.
  rewrite Htext. reflexivity.
Qed.

(** ** Reading back what [json.dump] wrote *)

Lemma strip_prefix_prepend lit rest : strip_prefix lit (prepend lit rest) = Some rest.
Proof.
  induction lit as [|c lit IH]; simpl; [reflexivity|].
  rewrite Ascii.eqb_refl. exact IH.
Qed.

Lemma span_digits_stop rest :
  ends_number rest = true -> span_digits rest = ("", rest).
Proof.
  destruct rest as [|c rest]; simpl; [reflexivity|].
  intros H. apply andb_prop in H as [H _]. apply negb_true_iff in H.
  rewrite H. reflexivity.
Qed.

Lemma span_digits_uint d rest :
  ends_number rest = true ->
  span_digits (prepend (NilEmpty.string_of_uint d) rest)
    = (NilEmpty.string_of_uint d, rest).
Proof.
  intros H. induction d; simpl; try rewrite IHd; try reflexivity.
  apply span_digits_stop, H.
Qed.

Lemma float_follows_stop rest : ends_number rest = true -> float_follows rest = false.
Proof.
  destruct rest as [|c rest]; [reflexivity|]. unfold ends_number.
  intros H. apply andb_prop in H as [_ H]. apply negb_true_iff in H. exact H.
Qed.

(** [Pos.to_uint] writes no leading zero. *)
Lemma to_uint_no_leading_zero p d : Pos.to_uint p <> D0 d.
Proof.
  pose proof (DecimalPos.Unsigned.to_of (Pos.to_uint p)) as Hnorm.
  rewrite DecimalPos.Unsigned.of_to in Hnorm. simpl in Hnorm.
  intros Heq.
  destruct (Decimal.uint_eq_dec (nzhead (Pos.to_uint p)) Nil) as [Hnil|Hnz].
  - apply DecimalFacts.unorm_0 in Hnil. rewrite Hnil in Hnorm.
    exact (DecimalPos.Unsigned.to_uint_nonzero p Hnorm).
  - rewrite (DecimalFacts.unorm_nzhead _ Hnz) in Hnorm.
    rewrite Heq in Hnorm at 1.
    exact (DecimalFacts.nzhead_nonzero _ _ (eq_sym Hnorm)).
Qed.

(** An unsigned decimal without a leading zero, written and read back. *)
Lemma scan_digits_uint d rest :
  d <> Nil ->
  (forall d', d = D0 d' -> d' = Nil) ->
  ends_number rest = true ->
  scan_digits (prepend (NilEmpty.string_of_uint d) rest) = Some (N.of_uint d, rest).
Proof.
  intros Hnil Hzero Hend. unfold scan_digits.
  rewrite (span_digits_uint d rest Hend).
  destruct d; try congruence;
    try (simpl; rewrite (float_follows_stop rest Hend), NilEmpty.usu; reflexivity).
  rewrite (Hzero d eq_refl). simpl. rewrite (float_follows_stop rest Hend). reflexivity.
Qed.

Lemma scan_int_emit n rest :
  ends_number rest = true -> scan_int (emit_int n rest) = Some (n, rest).
Proof.
  intros Hend.
  assert (Hpos : forall p,
            scan_digits (prepend (NilEmpty.string_of_uint (Pos.to_uint p)) rest)
              = Some (Npos p, rest)).
  { intros p. rewrite scan_digits_uint; try assumption.
    - unfold N.of_uint. rewrite DecimalPos.Unsigned.of_to. reflexivity.
    - apply DecimalPos.Unsigned.to_uint_nonnil.
    - intros d' H. exfalso. exact (to_uint_no_leading_zero p d' H). }
  destruct n as [|p|p].
  - change (emit_int 0 rest) with (prepend (NilEmpty.string_of_uint (D0 Nil)) rest).
    pose proof (scan_digits_uint (D0 Nil) rest) as H0. simpl in H0 |- *.
    rewrite H0; try assumption; try discriminate; [reflexivity|].
    intros d' [= <-]. reflexivity.
  - specialize (Hpos p). unfold emit_int.
    destruct (Pos.to_uint p) eqn:E;
      try (exfalso; exact (DecimalPos.Unsigned.to_uint_nonnil p E));
      simpl in Hpos |- *; rewrite Hpos; reflexivity.
  - unfold emit_int. simpl. rewrite Hpos. reflexivity.
Qed.

Lemma emit_int_head n rest :
  exists c s, emit_int n rest = String c s /\
              (is_digit c || Ascii.eqb c "-") = true.
Proof.
  destruct n as [|p|p]; simpl.
  - eexists _, _. split; reflexivity.
  - destruct (Pos.to_uint p) eqn:E;
      try (exfalso; exact (DecimalPos.Unsigned.to_uint_nonnil p E));
      simpl; eexists _, _; split; reflexivity.
  - eexists _, _. split; reflexivity.
Qed.

Lemma parse_value_number fuel c s :
  (is_digit c || Ascii.eqb c "-") = true ->
  parse_value (S fuel) (String c s)
    = match scan_int (String c s) with
      | Some (n, rest) => Some (JInt n, rest)
      | None =>
          match scan_float (String c s) with
          | Some (f, rest) => Some (JFloat f, rest)
          | None =>
              if Ascii.eqb c "-" then
                rest ← strip_prefix "Infinity" s; Some (JFloat (FInf true), rest)
              else None
          end
      end.
Proof.
  destruct c as [[] [] [] [] [] [] [] []]; intros H;
    try discriminate H; reflexivity.
Qed.

Lemma parse_value_int fuel n rest :
  ends_number rest = true ->
  parse_value (S fuel) (emit_int n rest) = Some (JInt n, rest).
Proof.
  intros Hend. destruct (emit_int_head n rest) as (c & s & Heq & Hc).
  pose proof (scan_int_emit n rest Hend) as Hscan. rewrite Heq in *.
  rewrite (parse_value_number fuel c s Hc), Hscan. reflexivity.
Qed.

Lemma scan_float_head c s r :
  scan_float (String c s) = Some r -> (is_digit c || Ascii.eqb c "-") = true.
Proof.
  unfold scan_float. destruct (Ascii.eqb c "-"); [intros _; apply orb_true_r|].
  unfold scan_magnitude. cbn [span_digits].
  destruct (is_digit c); [reflexivity|discriminate].
Qed.

Lemma parse_value_float fuel f rest :
  float_canonical f = true -> ends_number rest = true ->
  parse_value (S fuel) (emit_float f rest) = Some (JFloat f, rest).
Proof.
  intros Hc Hend. destruct f as [|[]|negative m e]; try reflexivity.
  destruct (scan_float_emit negative m e rest Hc Hend) as [Hf Hi].
  destruct (emit_float (FFinite negative m e) rest) as [|c s]; [discriminate Hf|].
  rewrite (parse_value_number fuel c s (scan_float_head c s _ Hf)), Hi, Hf.
  reflexivity.
Qed.

Lemma decimal_digits_nonempty n : decimal_digits n <> "".
Proof.
  unfold decimal_digits. rewrite digits_of_S.
  destruct (n <? 10); [discriminate|].
  destruct (digits_of _ _); discriminate.
Qed.

Lemma emit_digits_head ds decpt rest :
  only_digits ds = true -> ds <> "" ->
  exists c s, emit_digits ds decpt rest = String c s /\ is_digit c = true.
Proof.
  intros Hd Hne. destruct ds as [|d tl]; [congruence|].
  cbn [only_digits] in Hd. apply andb_prop in Hd as [Hd _].
  unfold emit_digits.
  destruct ((-4 <? decpt) && (decpt <=? 16)).
  - destruct (Z.leb_spec decpt 0) as [H0|H0].
    + eexists _, _. split; reflexivity.
    + destruct (decpt <? _).
      * destruct (Z.to_nat decpt) as [|k] eqn:E; [lia|].
        cbn [take_chars prepend]. eexists _, _. split; [reflexivity|exact Hd].
      * cbn [prepend]. eexists _, _. split; [reflexivity|exact Hd].
  - eexists _, _. split; [reflexivity|exact Hd].
Qed.

Lemma emit_float_head f rest :
  float_canonical f = true ->
  exists c s, emit_float f rest = String c s /\ opens_value c = true.
Proof.
  intros Hc. destruct f as [|[]|negative m e];
    try (eexists _, _; split; reflexivity).
  cbn [float_canonical] in Hc. unfold emit_float. cbv zeta.
  destruct negative; [eexists _, _; split; reflexivity|].
  destruct (Z.leb_spec m 0) as [Hzero|Hpos]; [eexists _, _; split; reflexivity|].
  destruct (float_digits_read_back m e Hc Hpos) as [Hd _].
  destruct (decimal_digits_spec _ Hd) as (H1 & _ & _).
  destruct (emit_digits_head (decimal_digits (fst (float_digits m e)))
              (Z.of_nat (String.length (decimal_digits (fst (float_digits m e))))
               + snd (float_digits m e)) rest H1 (decimal_digits_nonempty _))
    as (c & s & Heq & Hdigit).
  exists c, s. split; [exact Heq|]. unfold opens_value. rewrite Hdigit. reflexivity.
Qed.

Lemma emit_head level v rest :
  well_formed v = true ->
  exists c s, emit level v rest = String c s /\ opens_value c = true.
Proof.
  intros Hwf.
  destruct v as [|[]|n|f|str|[|x xs]|[|[k x] ms]];
    try (eexists _, _; split; reflexivity).
  - destruct (emit_int_head n rest) as (c & s & Heq & Hc).
    exists c, s. split; [exact Heq|]. unfold opens_value.
    apply orb_prop in Hc as [-> | ->]; rewrite ?orb_true_r; reflexivity.
  - apply emit_float_head. exact Hwf.
Qed.

Lemma skip_ws_opens c s : opens_value c = true -> skip_ws (String c s) = String c s.
Proof.
  destruct c as [[] [] [] [] [] [] [] []]; intros H;
    try discriminate H; reflexivity.
Qed.

Lemma skip_ws_emit level v rest :
  well_formed v = true -> skip_ws (emit level v rest) = emit level v rest.
Proof.
  intros Hwf.
  destruct (emit_head level v rest Hwf) as (c & s & -> & Hc). apply skip_ws_opens, Hc.
Qed.

Lemma skip_ws_indent level s : skip_ws (emit_indent level s) = skip_ws s.
Proof. induction level as [|level IH]; simpl; [reflexivity|exact IH]. Qed.

Lemma skip_ws_newline level s : skip_ws (emit_newline level s) = skip_ws s.
Proof. unfold emit_newline. simpl. apply skip_ws_indent. Qed.

(** Inserting pairs with fresh, distinct keys appends them. *)
Lemma dict_set_fresh k v acc :
  existsb (String.eqb k) (map fst acc) = false -> dict_set k v acc = acc ++ [(k, v)].
Proof.
  induction acc as [|[k' v'] acc IH]; simpl; [reflexivity|].
  intros H. apply orb_false_elim in H as [Hk Hrest].
  rewrite Hk, IH by exact Hrest. reflexivity.
Qed.

Lemma existsb_app_false {A} (f : A -> bool) l1 l2 :
  existsb f l1 = false -> existsb f l2 = false -> existsb f (l1 ++ l2) = false.
Proof. intros H1 H2. rewrite existsb_app, H1, H2. reflexivity. Qed.

Lemma fold_dict_set_distinct pairs : forall acc,
  distinct (map fst pairs) = true ->
  (forall k, In k (map fst pairs) -> existsb (String.eqb k) (map fst acc) = false) ->
  fold_left (fun a kv => dict_set (fst kv) (snd kv) a) pairs acc = acc ++ pairs.
Proof.
  induction pairs as [|[k v] pairs IH]; intros acc Hd Hfresh; simpl.
  - rewrite app_nil_r. reflexivity.
  - simpl in Hd. apply andb_prop in Hd as [Hk Hd]. apply negb_true_iff in Hk.
    rewrite dict_set_fresh by (apply Hfresh; left; reflexivity).
    rewrite IH.
    + rewrite <- app_assoc. reflexivity.
    + exact Hd.
    + intros k' Hin. rewrite map_app. apply existsb_app_false.
      * apply Hfresh. right. exact Hin.
      * simpl. rewrite orb_false_r.
        destruct (String.eqb k' k) eqn:E; [|reflexivity].
        apply String.eqb_eq in E. subst k'.
        assert (Hex : existsb (String.eqb k) (map fst pairs) = true).
        { apply existsb_exists. exists k. split; [exact Hin|apply String.eqb_refl]. }
        congruence.
Qed.

Lemma dict_of_pairs_distinct pairs :
  distinct (map fst pairs) = true -> dict_of_pairs pairs = pairs.
Proof.
  intros Hd. unfold dict_of_pairs.
  rewrite fold_dict_set_distinct; [reflexivity|exact Hd|reflexivity].
Qed.

Lemma parse_value_string fuel s :
  parse_value (S fuel) (String dquote s)
    = '(str, rest) ← scan_string s; Some (JStr str, rest).
Proof. reflexivity. Qed.

Lemma parse_value_array fuel s :
  parse_value (S fuel) (String "[" s) =
    match skip_ws s with
    | "" => None
    | String c1 s1 =>
        if Ascii.eqb c1 "]" then Some (JArr [], s1)
        else '(items, rest) ← parse_items fuel (String c1 s1); Some (JArr items, rest)
    end.
Proof. reflexivity. Qed.

Lemma parse_value_object fuel s :
  parse_value (S fuel) (String "{" s) =
    match skip_ws s with
    | "" => None
    | String c1 s1 =>
        if Ascii.eqb c1 "}" then Some (JObj [], s1)
        else '(pairs, rest) ← parse_members fuel (String c1 s1);
             Some (JObj (dict_of_pairs pairs), rest)
    end.
Proof. reflexivity. Qed.

Lemma opens_value_not_closing c :
  opens_value c = true -> Ascii.eqb c "]" = false /\ Ascii.eqb c "}" = false.
Proof.
  destruct c as [[] [] [] [] [] [] [] []]; intros H;
    try discriminate H; split; reflexivity.
Qed.

Lemma ends_number_more_items level emit1 rest xs :
  ends_number (emit_more_items level emit1 rest xs) = true.
Proof. destruct xs; reflexivity. Qed.

Lemma ends_number_more_members level emit1 rest ms :
  ends_number (emit_more_members level emit1 rest ms) = true.
Proof. destruct ms as [|[k v] ms]; reflexivity. Qed.

Lemma skip_ws_keeps c s : is_ws c = false -> skip_ws (String c s) = String c s.
Proof. intros H. simpl. rewrite H. reflexivity. Qed.

(** Decide the tests on the character just read. *)
Ltac read_char :=
  cbv beta iota;
  repeat match goal with
         | |- context [Ascii.eqb ?a ?b] =>
             let r := eval vm_compute in (Ascii.eqb a b) in
             change (Ascii.eqb a b) with r
         end;
  cbv beta iota.

Lemma parse_items_emit level rest xs : forall x fuel,
  reads_back x -> Forall reads_back xs ->
  well_formed x = true -> forallb well_formed xs = true ->
  (S (weight x + foldr (fun y n => S (weight y + n)) O xs) <= fuel)%nat ->
  parse_items fuel
    (emit (S level) x (emit_more_items level (emit (S level)) rest xs))
    = Some (x :: xs, rest).
Proof.
  induction xs as [|y ys IH]; intros x fuel Hx Hxs Hwx Hwxs Hfuel;
    (destruct fuel as [|fuel]; [lia|]); cbn [parse_items].
  - rewrite Hx; [|exact Hwx|apply ends_number_more_items|simpl in Hfuel; lia].
    cbn [mbind option_bind emit_more_items]. rewrite skip_ws_newline.
    rewrite skip_ws_keeps by reflexivity. read_char. reflexivity.
  - rewrite Hx; [|exact Hwx|apply ends_number_more_items|simpl in Hfuel; lia].
    cbn [mbind option_bind emit_more_items].
    rewrite skip_ws_keeps by reflexivity. read_char.
    apply Forall_cons_1 in Hxs as [Hy Hys].
    cbn [forallb] in Hwxs. apply andb_prop in Hwxs as [Hwy Hwys].
    rewrite skip_ws_newline, skip_ws_emit by exact Hwy.
    rewrite (IH y fuel Hy Hys Hwy Hwys); [reflexivity|].
    simpl in Hfuel. lia.
Qed.

Lemma parse_members_emit level rest ms : forall k x fuel,
  reads_back x -> Forall (fun kv => reads_back (snd kv)) ms ->
  text_ok k = true -> forallb text_ok (map fst ms) = true ->
  well_formed x = true -> forallb (fun kv => well_formed (snd kv)) ms = true ->
  (S (weight x + foldr (fun kv n => S (weight (snd kv) + n)) O ms) <= fuel)%nat ->
  parse_members fuel
    (emit_member (emit (S level)) k x
       (emit_more_members level (emit (S level)) rest ms))
    = Some ((k, x) :: ms, rest).
Proof.
  induction ms as [|[k' y] ms IH]; intros k x fuel Hx Hms Hk Hks Hwx Hwms Hfuel;
    (destruct fuel as [|fuel]; [lia|]);
    unfold emit_member, emit_string; cbn [parse_members]; read_char;
    cbn [negb]; cbv iota; rewrite (scan_string_emit k _ Hk);
    cbn [mbind option_bind]; rewrite skip_ws_keeps by reflexivity; read_char;
    cbn [negb]; cbv iota;
    change (skip_ws (String " " ?s)) with (skip_ws s);
    rewrite (skip_ws_emit (S level) x _ Hwx).
  - rewrite Hx; [|exact Hwx|apply ends_number_more_members|simpl in Hfuel; lia].
    cbn [mbind option_bind emit_more_members]. rewrite skip_ws_newline.
    rewrite skip_ws_keeps by reflexivity. read_char. reflexivity.
  - rewrite Hx; [|exact Hwx|apply ends_number_more_members|simpl in Hfuel; lia].
    cbn [mbind option_bind emit_more_members].
    rewrite skip_ws_keeps by reflexivity. read_char.
    rewrite skip_ws_newline.
    unfold emit_member at 1. unfold emit_string at 1.
    rewrite skip_ws_keeps by reflexivity.
    apply Forall_cons_1 in Hms as [Hy Hys].
    cbn [forallb map fst snd] in Hwms, Hks.
    apply andb_prop in Hwms as [Hwy Hwys]. apply andb_prop in Hks as [Hk' Hks].
    pose proof (IH k' y fuel Hy Hys Hk' Hks Hwy Hwys) as Hrest.
    unfold emit_member, emit_string in Hrest.
    rewrite Hrest; [reflexivity|]. simpl in Hfuel. lia.
Qed.

(** Every well-formed value is read back from its text, at every nesting
    level and before any text that does not continue a number. *)
Theorem parse_value_emit v : reads_back v.
Proof.
  induction v as [|b|n|f|s|items IH|members IH] using json_ind;
    intros level rest fuel Hwf Hend Hfuel;
    (destruct fuel as [|fuel]; [simpl in Hfuel; lia|]).
  - reflexivity.
  - destruct b; reflexivity.
  - apply parse_value_int, Hend.
  - apply parse_value_float; assumption.
  - cbn [emit]. unfold emit_string.
    rewrite parse_value_string, (scan_string_emit s rest Hwf). reflexivity.
  - destruct items as [|x xs]; [reflexivity|].
    apply Forall_cons_1 in IH as [Hx Hxs].
    cbn [well_formed forallb] in Hwf. apply andb_prop in Hwf as [Hwx Hwxs].
    cbn [emit]. rewrite parse_value_array, skip_ws_newline, skip_ws_emit by exact Hwx.
    destruct (emit_head (S level) x
                (emit_more_items level (emit (S level)) rest xs) Hwx)
      as (c & s & Heq & Hc).
    pose proof (parse_items_emit level rest xs x fuel) as Hitems.
    rewrite Heq in *.
    destruct (opens_value_not_closing c Hc) as [-> _].
    rewrite Hitems; [reflexivity|assumption..|].
    simpl in Hfuel. lia.
  - destruct members as [|[k x] ms]; [reflexivity|].
    cbn [emit]. rewrite parse_value_object, skip_ws_newline.
    pose proof (parse_members_emit level rest ms k x fuel) as Hmembers.
    unfold emit_member, emit_string in *.
    rewrite skip_ws_keeps by reflexivity. read_char.
    apply Forall_cons_1 in IH as [Hx Hxs].
    cbn [well_formed] in Hwf. apply andb_prop in Hwf as [Hwf Hwms].
    apply andb_prop in Hwf as [Hkeys Hks].
    cbn [forallb map fst snd] in Hwms, Hks.
    apply andb_prop in Hwms as [Hwx Hwms]. apply andb_prop in Hks as [Hk Hks].
    rewrite Hmembers; [|assumption..|simpl in Hfuel; lia].
    cbn [mbind option_bind].
    rewrite dict_of_pairs_distinct by exact Hkeys. reflexivity.
Qed.

(** The reader's fuel: a text is longer than its value is heavy. *)
Lemma length_prepend lit rest :
  String.length (prepend lit rest) = (String.length lit + String.length rest)%nat.
Proof. induction lit as [|c lit IH]; simpl; [reflexivity|rewrite IH; reflexivity]. Qed.

Lemma length_emit_codepoint cp tail :
  (String.length tail <= String.length (emit_codepoint cp tail))%nat.
Proof.
  unfold emit_codepoint, escape_u.
  repeat match goal with
         | |- context [if ?b then _ else _] => destruct b
         end; cbn [String.length]; lia.
Qed.

Lemma length_emit_chars s rest :
  (String.length rest <= String.length (emit_chars s rest))%nat.
Proof.
  unfold emit_chars. induction (codepoints s) as [|cp cps IH]; cbn [emit_codepoints].
  - lia.
  - pose proof (length_emit_codepoint cp (emit_codepoints cps rest)). lia.
Qed.

Lemma length_zeros_rest n rest :
  String.length (zeros n rest) = (n + String.length rest)%nat.
Proof. induction n as [|n IH]; simpl; [reflexivity|]. rewrite IH. reflexivity. Qed.

Lemma length_emit_exponent x rest :
  (String.length rest <= String.length (emit_exponent x rest))%nat.
Proof.
  unfold emit_exponent. destruct (Z.abs x <? 10); cbn [String.length].
  - lia.
  - rewrite length_prepend. lia.
Qed.

Lemma length_emit_digits ds decpt rest :
  ds <> "" ->
  (S (String.length rest) <= String.length (emit_digits ds decpt rest))%nat.
Proof.
  intros Hne. destruct ds as [|d tl]; [congruence|]. unfold emit_digits.
  pose proof (length_emit_exponent (decpt - 1) rest) as Hexp.
  destruct ((-4 <? decpt) && (decpt <=? 16)).
  - destruct (decpt <=? 0); [|destruct (decpt <? _)];
      cbn [String.length]; rewrite ?length_prepend, ?length_zeros_rest;
      cbn [String.length]; rewrite ?length_prepend; cbn [String.length]; lia.
  - destruct tl; cbn [String.length]; rewrite ?length_prepend;
      cbn [String.length]; lia.
Qed.

Lemma length_emit_float f rest :
  (S (String.length rest) <= String.length (emit_float f rest))%nat.
Proof.
  destruct f as [|[]|negative m e]; try (simpl; lia).
  unfold emit_float. cbv zeta.
  assert (Hbody : forall body,
            (S (String.length rest) <= String.length body)%nat ->
            (S (String.length rest)
             <= String.length (if negative then String "-" body else body))%nat).
  { intros body H. destruct negative; cbn [String.length]; lia. }
  apply Hbody. destruct (m <=? 0); [simpl; lia|].
  apply length_emit_digits, decimal_digits_nonempty.
Qed.

Lemma length_emit_string s rest :
  (S (String.length rest) <= String.length (emit_string s rest))%nat.
Proof.
  unfold emit_string. simpl.
  pose proof (length_emit_chars s (String dquote rest)) as H. simpl in H. lia.
Qed.

Lemma length_emit_int n rest :
  (S (String.length rest) <= String.length (emit_int n rest))%nat.
Proof.
  destruct (emit_int_head n rest) as (c & s & Heq & _).
  destruct n as [|p|p]; simpl in *.
  - lia.
  - rewrite length_prepend.
    destruct (Pos.to_uint p) eqn:E;
      try (exfalso; exact (DecimalPos.Unsigned.to_uint_nonnil p E)); simpl; lia.
  - rewrite length_prepend. lia.
Qed.

Lemma length_emit_indent level rest :
  (String.length rest <= String.length (emit_indent level rest))%nat.
Proof. induction level as [|level IH]; simpl; lia. Qed.

Lemma length_emit_newline level rest :
  (S (String.length rest) <= String.length (emit_newline level rest))%nat.
Proof.
  unfold emit_newline. simpl. pose proof (length_emit_indent level rest). lia.
Qed.

Lemma weight_le_length v : forall level rest,
  (weight v + String.length rest <= String.length (emit level v rest))%nat.
Proof.
  induction v as [|b|n|f|s|items IH|members IH] using json_ind; intros level rest.
  - simpl. lia.
  - destruct b; simpl; lia.
  - cbn [emit weight]. pose proof (length_emit_int n rest). lia.
  - cbn [emit weight]. pose proof (length_emit_float f rest). lia.
  - cbn [emit weight]. pose proof (length_emit_string s rest). lia.
  - destruct items as [|x xs]; [simpl; lia|].
    apply Forall_cons_1 in IH as [Hx Hxs].
    assert (Hmore : (foldr (fun y n => S (weight y + n)) O xs + String.length rest
                     <= String.length
                          (emit_more_items level (emit (S level)) rest xs))%nat).
    { clear Hx. induction xs as [|y ys IHys]; cbn [emit_more_items foldr].
      - pose proof (length_emit_newline level (String "]" rest)) as H.
        cbn [String.length] in H. lia.
      - apply Forall_cons_1 in Hxs as [Hy Hys]. specialize (IHys Hys).
        cbn [String.length].
        pose proof (length_emit_newline (S level)
                      (emit (S level) y
                         (emit_more_items level (emit (S level)) rest ys))).
        pose proof (Hy (S level) (emit_more_items level (emit (S level)) rest ys)).
        lia. }
    cbn [emit weight foldr String.length].
    pose proof (length_emit_newline (S level)
                  (emit (S level) x (emit_more_items level (emit (S level)) rest xs))).
    pose proof (Hx (S level) (emit_more_items level (emit (S level)) rest xs)).
    lia.
  - destruct members as [|[k x] ms]; [simpl; lia|].
    apply Forall_cons_1 in IH as [Hx Hms]. simpl in Hx.
    assert (Hmember : forall key y tail,
              (forall lvl r, (weight y + String.length r
                              <= String.length (emit lvl y r))%nat) ->
              (weight y + String.length tail
               <= String.length (emit_member (emit (S level)) key y tail))%nat).
    { intros key y tail Hy. unfold emit_member.
      pose proof (length_emit_string key
                    (String ":" (String " " (emit (S level) y tail)))) as H.
      cbn [String.length] in H. pose proof (Hy (S level) tail). lia. }
    assert (Hmore : (foldr (fun kv n => S (weight (snd kv) + n)) O ms
                     + String.length rest
                     <= String.length
                          (emit_more_members level (emit (S level)) rest ms))%nat).
    { clear Hx. induction ms as [|[k' y] ms IHms]; cbn [emit_more_members foldr].
      - pose proof (length_emit_newline level (String "}" rest)) as H.
        cbn [String.length] in H. lia.
      - apply Forall_cons_1 in Hms as [Hy Hms]. specialize (IHms Hms).
        cbn [String.length snd].
        pose proof (length_emit_newline (S level)
                      (emit_member (emit (S level)) k' y
                         (emit_more_members level (emit (S level)) rest ms))).
        pose proof (Hmember k' y
                      (emit_more_members level (emit (S level)) rest ms) Hy).
        lia. }
    cbn [emit weight foldr String.length snd].
    pose proof (length_emit_newline (S level)
                  (emit_member (emit (S level)) k x
                     (emit_more_members level (emit (S level)) rest ms))).
    pose proof (Hmember k x (emit_more_members level (emit (S level)) rest ms) Hx).
    lia.
Qed.

(** [json.load] of what [json.dump(..., indent=2)] and the final newline
    wrote. *)
Theorem json_loads_dump v :
  well_formed v = true -> json_loads (emit 0 v (String "010" "")) = Some v.
Proof.
  intros Hwf. unfold json_loads. rewrite skip_ws_emit by exact Hwf.
  rewrite (parse_value_emit v 0%nat (String "010" "")); [reflexivity|exact Hwf|reflexivity|].
  pose proof (weight_le_length v 0%nat (String "010" "")). lia.
Qed.

(** Python's [==] holds between a value without not-a-number and itself. *)
Lemma assoc_in_distinct k x (ms : list (string * json)) :
  distinct (map fst ms) = true -> In (k, x) ms -> assoc k ms = Some x.
Proof.
  induction ms as [|[k' x'] ms IH]; intros Hd Hin; [contradiction|].
  cbn [map fst distinct] in Hd. apply andb_prop in Hd as [Hk Hd].
  apply negb_true_iff in Hk. cbn [assoc].
  destruct Hin as [[= -> ->]|Hin].
  - rewrite String.eqb_refl. reflexivity.
  - destruct (String.eqb k k') eqn:E; [|exact (IH Hd Hin)].
    apply String.eqb_eq in E. subst k'.
    assert (Hex : existsb (String.eqb k) (map fst ms) = true).
    { apply existsb_exists. exists k. split; [|apply String.eqb_refl].
      apply in_map_iff. exists (k, x). split; [reflexivity|exact Hin]. }
    congruence.
Qed.

Lemma float_eqb_refl f : f <> FNaN -> float_eqb f f = true.
Proof.
  destruct f as [|a|a m e]; intros H; [congruence| |]; cbn [float_eqb].
  - destruct a; reflexivity.
  - rewrite !Z.eqb_refl. destruct a; cbn; apply orb_true_r.
Qed.

Lemma py_eq_refl v : well_formed v = true -> nan_free v = true -> py_eq v v = true.
Proof.
  induction v as [|b|n|f|s|items IH|members IH] using json_ind; intros Hwf Hnan.
  - reflexivity.
  - destruct b; reflexivity.
  - cbn. apply Z.eqb_refl.
  - cbn. apply float_eqb_refl. intros ->. discriminate Hnan.
  - cbn. apply String.eqb_refl.
  - cbn [py_eq]. cbn [well_formed nan_free] in Hwf, Hnan.
    induction items as [|x xs IHxs]; [reflexivity|].
    apply Forall_cons_1 in IH as [Hx Hxs].
    cbn [forallb] in Hwf, Hnan.
    apply andb_prop in Hwf as [Hwx Hwxs]. apply andb_prop in Hnan as [Hnx Hnxs].
    rewrite (Hx Hwx Hnx). exact (IHxs Hxs Hwxs Hnxs).
  - cbn [py_eq]. rewrite Nat.eqb_refl. cbn [andb].
    cbn [well_formed nan_free] in Hwf, Hnan.
    apply andb_prop in Hwf as [Hwf Hwms]. apply andb_prop in Hwf as [Hkeys _].
    assert (Hall : forall l,
              (forall k x, In (k, x) l -> assoc k members = Some x) ->
              Forall (fun kv => well_formed (snd kv) = true ->
                                nan_free (snd kv) = true ->
                                py_eq (snd kv) (snd kv) = true) l ->
              forallb (fun kv => well_formed (snd kv)) l = true ->
              forallb (fun kv => nan_free (snd kv)) l = true ->
              (fix all (l : list (string * json)) : bool :=
                 match l with
                 | [] => true
                 | (k, x) :: l' =>
                     match assoc k members with
                     | Some y => py_eq x y
                     | None => false
                     end && all l'
                 end) l = true).
    { induction l as [|[k x] l IHl]; intros Hin Hrefl Hw Hn; [reflexivity|].
      apply Forall_cons_1 in Hrefl as [Hx Hl].
      cbn [forallb snd] in Hw, Hn.
      apply andb_prop in Hw as [Hwx Hwl]. apply andb_prop in Hn as [Hnx Hnl].
      rewrite (Hin k x (or_introl eq_refl)). cbn [snd] in Hx.
      rewrite (Hx Hwx Hnx). cbn [andb].
      apply IHl; try assumption.
      intros k' x' H. apply Hin. right. exact H. }
    apply Hall; try assumption.
    intros k x Hin. apply assoc_in_distinct; assumption.
Qed.

(** C6: every token payload that holds no not-a-number, known members or
    not (a value as [json.load] or [resp.json()] makes them: [None], booleans,
    integers and floats, text of any code points, lists, and dicts keyed by
    text), once a [save_tokens] of it has returned, is read by [load_tokens]
    from the same path as a value that is equal to it in the sense of
    Python's [==]; it has the same members in the same order as well. *)
Theorem save_then_load umask tokens path (d d' : gmap string file) :
  well_formed tokens = true ->
  nan_free tokens = true ->
  save_tokens umask tokens path d = (Ok tt, d') ->
  exists loaded,
    load_tokens path d' = Ok loaded /\
    py_eq loaded tokens = true /\
    loaded = tokens.
Proof.
  intros Hwf Hnan Hsave.
  destruct (save_tokens_cases umask tokens path d) as [[_ Hok]|[_ Hko]];
    rewrite Hsave in *; [|discriminate].
  injection Hok as ->.
  exists tokens. split; [|split; [apply py_eq_refl; assumption|reflexivity]].
  unfold load_tokens. rewrite lookup_insert_eq.
  change (owner_can_read (saved_file tokens)) with true. cbv iota.
  unfold saved_file. cbn [content].
  rewrite (json_loads_dump tokens Hwf). reflexivity.
Qed.

Lemma save_then_load_witness :
  exists loaded,
    load_tokens DEFAULT_TOKENS_PATH
      (snd (save_tokens 18 provider_tokens DEFAULT_TOKENS_PATH saved_disk))
      = Ok loaded /\
    py_eq loaded provider_tokens = true /\
    loaded = provider_tokens.
Proof.
  apply (save_then_load 18 provider_tokens DEFAULT_TOKENS_PATH saved_disk).
  - vm_compute. reflexivity.
  - vm_compute. reflexivity.
  - vm_compute. reflexivity.
Defined.

(** The same run, computed, with the text that reaches the file. *)
Example save_then_load_run :
  load_tokens DEFAULT_TOKENS_PATH
    (snd (save_tokens 18 provider_tokens DEFAULT_TOKENS_PATH saved_disk))
    = Ok provider_tokens /\
  emit 0 (JArr [JStr (text_of [233; 8364; 128512; 55357]%N);
                JFloat (FFinite false 7917583231614976 (-41));
                JFloat (FFinite false 5 (-1074));
                JFloat (FInf true)]) ""
    = prepend "["
        (String "010"
           (prepend "  "
              (String dquote
                 (prepend "\u00e9\u20ac\ud83d\ude00\ud83d"
                    (String dquote
                       (prepend ","
                          (String "010"
                             (prepend "  3600.5,"
                                (String "010"
                                   (prepend "  2.5e-323,"
                                      (String "010"
                                         (prepend "  -Infinity"
                                            (String "010" "]"))))))))))))).
Proof. vm_compute. split; reflexivity. Qed.

(** A payload with a not-a-number is saved and loaded, and what is loaded is
    not equal to what was saved: Python's [nan == nan] is false. *)
Lemma save_then_load_nan :
  well_formed nan_tokens = true /\
  exists d' loaded,
    save_tokens 18 nan_tokens DEFAULT_TOKENS_PATH ∅ = (Ok tt, d') /\
    load_tokens DEFAULT_TOKENS_PATH d' = Ok loaded /\
    py_eq loaded nan_tokens = false.
Proof.
  split; [reflexivity|].
  eexists _, _. split; [vm_compute; reflexivity|].
  split; [vm_compute; reflexivity|]. reflexivity.
Qed.

(** ** The flow from end to end *)

Example device_flow_scenario :
  exists w',
    main new_args approving_world = (Some 0, w') /\
    load_tokens DEFAULT_TOKENS_PATH (disk w') = Ok demo_tokens /\
    disk w' !! DEFAULT_TOKENS_PATH = Some (saved_file demo_tokens) /\
    time w' = 10 * NS_PER_SEC /\
    wire w' = device_request DEFAULT_CLIENT_ID DEFAULT_SCOPE None
              :: repeat (token_request (JStr "d1") DEFAULT_CLIENT_ID None) 3.
Proof.
  eexists. split; [vm_compute; reflexivity|].
  repeat split; vm_compute; reflexivity.
Qed.

(** * Further properties of the code *)

(** ** The poll loop as a whole *)

(** An iteration either stops right after its POST, or sleeps at the old
    interval or at the one [slow_down] makes of it. *)
Lemma iteration_cases dc cid aud st r :
  (exists o, o <> Starved /\
             poll_iteration dc cid aud st r = Stop o (posted dc cid aud st r)) \/
  (exists i,
     (i = current_interval st \/ i = Z.min (current_interval st + 5) 30) /\
     poll_iteration dc cid aud st r = Continue (slept i (posted dc cid aud st r) r)).
Proof.
  unfold poll_iteration. fold (posted dc cid aud st r).
  repeat match goal with
         | |- context [match ?x with _ => _ end] => destruct x
         end;
    try (left; eexists; split; [|reflexivity]; discriminate);
    right; eexists; (split; [|reflexivity]); auto.
Qed.

(** What one run of the loop keeps: the requests it adds are token requests,
    one per round consumed; from the second on each comes at least five
    seconds after the one before, inside the budget; the interval never falls
    under 5, and never leaves [interval, 30] when it starts at 30 or less. *)
Lemma poll_loop_run dc cid aud T began script : forall st,
  5 <= current_interval st ->
  exists n : nat,
    sent (snd (poll_loop dc cid aud T began st script))
      = sent st ++ repeat (token_request dc cid aud) n /\
    (n <= length script)%nat /\
    (fst (poll_loop dc cid aud T began st script) = Starved -> n = length script) /\
    (n = 0%nat \/
     (Z.of_nat n - 1) * 5 * NS_PER_SEC <= T * NS_PER_SEC - (clock st - began)) /\
    5 <= current_interval (snd (poll_loop dc cid aud T began st script)) /\
    (current_interval st <= 30 ->
     current_interval st
       <= current_interval (snd (poll_loop dc cid aud T began st script)) <= 30) /\
    clock st <= clock (snd (poll_loop dc cid aud T began st script)).
Proof.
  induction script as [|r script IH]; intros st Hfloor.
  - exists 0%nat. simpl. destruct (_ >? _); simpl; rewrite app_nil_r;
      repeat split; auto; lia.
  - destruct (Z_lt_le_dec (T * NS_PER_SEC) (clock st - began)) as [Hout|Hin].
    + rewrite poll_loop_timed_out by exact Hout. exists 0%nat. simpl.
      rewrite app_nil_r. repeat split; auto; try lia; discriminate.
    + rewrite poll_loop_in_time by exact Hin.
      destruct (iteration_cases dc cid aud st r) as [(o & Ho & ->)|(i & Hi & ->)].
      * exists 1%nat. simpl.
        repeat split; auto; try congruence; try (unfold NS_PER_SEC; lia).
        right. simpl. lia.
      * assert (Hi5 : 5 <= i) by (destruct Hi; subst; lia).
        destruct (IH (slept i (posted dc cid aud st r) r)) as
          (n & Hsent & Hlen & Hstarved & Hpace & Hlow & Hcap & Hclock);
          [exact Hi5|].
        exists (S n). rewrite Hsent.
        pose proof (N2Z.is_nonneg (rtt r)). pose proof (N2Z.is_nonneg (oversleep r)).
        simpl current_interval in *. simpl clock in *. simpl sent.
        split; [rewrite <- app_assoc; reflexivity|].
        split; [simpl; lia|].
        split; [intros Hs; rewrite (Hstarved Hs); reflexivity|].
        split.
        { right. destruct Hpace as [->|Hpace]; unfold NS_PER_SEC in *; lia. }
        split; [exact Hlow|].
        split; [|unfold NS_PER_SEC in *; lia].
        intros Hcap0. destruct Hi as [->| ->]; lia.
Qed.

Lemma initial_state_floor interval w : 5 <= current_interval (initial_state interval w).
Proof. simpl. lia. Qed.

(** X1: whatever the server answers, a call of [poll_token_endpoint] sends
    nothing but its one token request, at most [timeout_seconds / 5 + 1]
    times (never, with a negative budget): two polls are at least five
    seconds apart. *)
Theorem poll_requests_bounded dc cid aud interval T w :
  exists n : nat,
    sent (snd (poll_token_endpoint dc cid aud interval T w))
      = repeat (token_request dc cid aud) n /\
    Z.of_nat n <= Z.max 0 (T / 5 + 1).
Proof.
  unfold poll_token_endpoint.
  destruct (poll_loop_run dc cid aud T (now w) (script w) (initial_state interval w)
              (initial_state_floor interval w))
    as (n & Hsent & _ & _ & Hpace & _).
  exists n. split; [exact Hsent|].
  destruct Hpace as [->|Hpace]; [simpl; lia|].
  simpl in Hpace. pose proof (N2Z.is_nonneg (startup w)).
  assert (H5 : (Z.of_nat n - 1) * 5 <= T) by (unfold NS_PER_SEC in Hpace; lia).
  assert (Z.of_nat n - 1 <= T / 5) by (apply Z.div_le_lower_bound; lia).
  lia.
Qed.

(** X2: the loop ends by itself, with the tokens or an exception: a script
    of more than [timeout_seconds / 5 + 1] rounds is never used up. *)
Theorem poll_ends_within_budget dc cid aud interval T w :
  Z.max 0 (T / 5 + 1) < Z.of_nat (length (script w)) ->
  fst (poll_token_endpoint dc cid aud interval T w) <> Starved.
Proof.
  intros Hlong Hstarved. unfold poll_token_endpoint in Hstarved.
  destruct (poll_loop_run dc cid aud T (now w) (script w) (initial_state interval w)
              (initial_state_floor interval w))
    as (n & _ & _ & Hall & Hpace & _).
  specialize (Hall Hstarved). subst n.
  destruct Hpace as [H0|Hpace]; [rewrite H0 in Hlong; simpl in Hlong; lia|].
  simpl in Hpace. pose proof (N2Z.is_nonneg (startup w)).
  assert (H5 : (Z.of_nat (length (script w)) - 1) * 5 <= T)
    by (unfold NS_PER_SEC in Hpace; lia).
  assert (Z.of_nat (length (script w)) - 1 <= T / 5)
    by (apply Z.div_le_lower_bound; lia).
  lia.
Qed.

Lemma poll_ends_within_budget_witness :
  fst (poll_token_endpoint (JStr "d1") "oidc-agent" None 5 10
         {| now := 0; startup := 0;
            script := [answered pending_400 0; answered pending_400 0;
                       answered pending_400 0; answered pending_400 0] |})
    <> Starved /\ True.
Proof.
  split; [|exact I].
  apply (poll_ends_within_budget (JStr "d1") "oidc-agent" None 5 10
           {| now := 0; startup := 0;
              script := [answered pending_400 0; answered pending_400 0;
                         answered pending_400 0; answered pending_400 0] |}).
  vm_compute. reflexivity.
Defined.

(** X3: the interval the loop ends with is never under 5 seconds; when the
    caller's interval is 30 or less it lies between [max(5, interval)] and
    30, so [slow_down] has only ever raised it. *)
Theorem interval_stays_in_range dc cid aud interval T w :
  5 <= current_interval (snd (poll_token_endpoint dc cid aud interval T w)) /\
  (interval <= 30 ->
   Z.max 5 interval
     <= current_interval (snd (poll_token_endpoint dc cid aud interval T w)) <= 30).
Proof.
  unfold poll_token_endpoint.
  destruct (poll_loop_run dc cid aud T (now w) (script w) (initial_state interval w)
              (initial_state_floor interval w))
    as (n & _ & _ & _ & _ & Hlow & Hcap & _).
  split; [exact Hlow|]. intros H30.
  rewrite initial_interval in Hcap. apply Hcap. lia.
Qed.

Lemma duration_nonneg rs : forall interval, 5 <= interval -> 0 <= duration interval rs.
Proof.
  induction rs as [|r rs IH]; intros interval H5; simpl; [lia|].
  pose proof (next_interval_floor interval r H5) as Hnext.
  pose proof (IH _ Hnext). pose proof (N2Z.is_nonneg (rtt r)).
  pose proof (N2Z.is_nonneg (oversleep r)). unfold NS_PER_SEC. lia.
Qed.

Lemma poll_loop_transient_then_200 dc cid aud T began rs r rest resp tokens :
  forall st,
  5 <= current_interval st ->
  forallb transient rs = true ->
  served r = Answer resp ->
  status_code resp = 200 ->
  json_body resp = Some tokens ->
  clock st - began + duration (current_interval st) rs <= T * NS_PER_SEC ->
  poll_loop dc cid aud T began st (rs ++ r :: rest)
    = (Returned tokens,
       {| clock := clock st + duration (current_interval st) rs + Z.of_N (rtt r);
          current_interval := interval_after (current_interval st) rs;
          sent := sent st ++ repeat (token_request dc cid aud) (S (length rs)) |}).
Proof.
  induction rs as [|r0 rs IH]; intros st H5 Hall Hserved Hstatus Hbody Htime.
  - simpl in Htime. simpl app. rewrite poll_loop_in_time by lia.
    unfold poll_iteration. rewrite Hserved, Hstatus. simpl.
    unfold resp_json. rewrite Hbody. f_equal. unfold posted. f_equal. lia.
  - simpl in Hall. apply andb_prop in Hall as [Hr0 Hall].
    pose proof (next_interval_floor (current_interval st) r0 H5) as Hnext.
    pose proof (duration_nonneg rs _ Hnext) as Hpos.
    pose proof (N2Z.is_nonneg (rtt r0)). pose proof (N2Z.is_nonneg (oversleep r0)).
    simpl in Htime.
    change ((r0 :: rs) ++ r :: rest) with (r0 :: (rs ++ r :: rest)).
    rewrite poll_loop_in_time by (unfold NS_PER_SEC in *; lia).
    rewrite (iteration_transient dc cid aud st r0 Hr0).
    rewrite IH; try assumption.
    + simpl. f_equal.
      f_equal; try lia; try (rewrite <- app_assoc; reflexivity).
    + simpl. lia.
Qed.

(** X4: when the provider keeps answering pending or slow_down and then
    sends the tokens with status 200, and that last poll still starts inside
    the budget, the call returns exactly those tokens, after one request per
    answer; what the server would have said afterwards plays no part. *)
Theorem tokens_after_transient_rounds dc cid aud interval T now0 lag0 rs r rest
    resp tokens :
  forallb transient rs = true ->
  served r = Answer resp ->
  status_code resp = 200 ->
  json_body resp = Some tokens ->
  Z.of_N lag0 + duration (Z.max 5 (interval_or_5 interval)) rs <= T * NS_PER_SEC ->
  exists st,
    poll_token_endpoint dc cid aud interval T
      {| now := now0; startup := lag0; script := rs ++ r :: rest |}
      = (Returned tokens, st) /\
    sent st = repeat (token_request dc cid aud) (S (length rs)) /\
    clock st - now0
      = Z.of_N lag0 + duration (Z.max 5 (interval_or_5 interval)) rs + Z.of_N (rtt r).
Proof.
  intros Hall Hserved Hstatus Hbody Htime. unfold poll_token_endpoint.
  cbn [now script].
  rewrite (poll_loop_transient_then_200 dc cid aud T now0 rs r rest resp tokens);
    try assumption.
  - eexists. split; [reflexivity|]. simpl. split; [reflexivity|lia].
  - apply initial_state_floor.
  - simpl. lia.
Qed.

Lemma tokens_after_transient_rounds_witness :
  exists st,
    poll_token_endpoint (JStr "d1") "oidc-agent" None 5 900
      {| now := 0; startup := 0;
         script := [answered pending_400 0;
                    answered (error_reply 400 "slow_down") 0]
                   ++ answered (token_reply demo_tokens) 0 :: [] |}
      = (Returned demo_tokens, st) /\
    sent st = repeat (token_request (JStr "d1") "oidc-agent" None) 3 /\
    clock st - 0
      = Z.of_N 0 + duration (Z.max 5 (interval_or_5 5))
                     [answered pending_400 0;
                      answered (error_reply 400 "slow_down") 0]
        + Z.of_N (rtt (answered (token_reply demo_tokens) 0)).
Proof.
  apply (tokens_after_transient_rounds (JStr "d1") "oidc-agent" None 5 900 0 0%N
           [answered pending_400 0; answered (error_reply 400 "slow_down") 0]
           (answered (token_reply demo_tokens) 0) []
           (token_reply demo_tokens) demo_tokens).
  - reflexivity.
  - reflexivity.
  - reflexivity.
  - reflexivity.
  - vm_compute. discriminate.
Defined.

(** X5: a reply with status 200 ends the loop with its JSON body as the
    result whatever the body holds: an [error] member in it is not looked
    at. *)
Theorem status_200_returns_body dc cid aud T began st r rest resp body :
  served r = Answer resp ->
  status_code resp = 200 ->
  json_body resp = Some body ->
  clock st - began <= T * NS_PER_SEC ->
  poll_loop dc cid aud T began st (r :: rest)
    = (Returned body, posted dc cid aud st r).
Proof.
  intros Hserved Hstatus Hbody Htime.
  rewrite poll_loop_in_time by exact Htime.
  unfold poll_iteration, resp_json. rewrite Hserved, Hstatus, Hbody. reflexivity.
Qed.

Lemma status_200_returns_body_witness :
  poll_loop (JStr "d1") "oidc-agent" None 900 0 (at_interval 5)
    (answered denied_200 0 :: [])
    = (Returned (JObj [("error", JStr "access_denied")]),
       posted (JStr "d1") "oidc-agent" None (at_interval 5) (answered denied_200 0)).
Proof.
  apply (status_200_returns_body (JStr "d1") "oidc-agent" None 900 0 (at_interval 5)
           (answered denied_200 0) [] denied_200
           (JObj [("error", JStr "access_denied")])).
  - reflexivity.
  - reflexivity.
  - reflexivity.
  - vm_compute. discriminate.
Defined.

(** X6: a reply with another status whose body is not a JSON object ends
    the loop after that one request: [HTTPError] for a 4xx or 5xx status and
    the decoding error otherwise when the body is not JSON at all, and
    [AttributeError] when it is JSON of another kind (a list, a string). *)
Theorem malformed_reply_raises dc cid aud T began st r rest resp :
  served r = Answer resp ->
  status_code resp <> 200 ->
  (forall members, json_body resp <> Some (JObj members)) ->
  clock st - began <= T * NS_PER_SEC ->
  poll_loop dc cid aud T began st (r :: rest)
    = (Raised
         match json_body resp with
         | None =>
             if (400 <=? status_code resp) && (status_code resp <? 600)
             then HTTPError (status_code resp)
             else JSONDecodeError
         | Some _ => AttributeError
         end,
       posted dc cid aud st r).
Proof.
  intros Hserved Hstatus Hshape Htime.
  rewrite poll_loop_in_time by exact Htime.
  unfold poll_iteration, resp_json, raise_for_status. rewrite Hserved.
  apply Z.eqb_neq in Hstatus. rewrite Hstatus.
  destruct (json_body resp) as [body|] eqn:Hbody.
  - destruct body; try reflexivity. exfalso. exact (Hshape _ eq_refl).
  - destruct ((400 <=? status_code resp) && (status_code resp <? 600)); reflexivity.
Qed.

Lemma malformed_reply_raises_witness :
  poll_loop (JStr "d1") "oidc-agent" None 900 0 (at_interval 5)
    (answered gateway_502 0 :: [])
    = (Raised
         match json_body gateway_502 with
         | None =>
             if (400 <=? status_code gateway_502) && (status_code gateway_502 <? 600)
             then HTTPError (status_code gateway_502)
             else JSONDecodeError
         | Some _ => AttributeError
         end,
       posted (JStr "d1") "oidc-agent" None (at_interval 5) (answered gateway_502 0)).
Proof.
  apply (malformed_reply_raises (JStr "d1") "oidc-agent" None 900 0 (at_interval 5)
           (answered gateway_502 0) [] gateway_502).
  - reflexivity.
  - simpl. lia.
  - intros members. simpl. discriminate.
  - vm_compute. discriminate.
Defined.

(** X7: with a negative budget the call raises the timeout error at its
    first check and contacts nobody. *)
Theorem negative_budget_sends_nothing dc cid aud interval T w :
  T < 0 ->
  poll_token_endpoint dc cid aud interval T w
    = (Raised (TimeoutError timed_out_msg), initial_state interval w) /\
  sent (initial_state interval w) = [].
Proof.
  intros HT. split; [|reflexivity]. unfold poll_token_endpoint.
  apply poll_loop_timed_out. simpl.
  pose proof (N2Z.is_nonneg (startup w)). unfold NS_PER_SEC. lia.
Qed.

Lemma negative_budget_sends_nothing_witness :
  poll_token_endpoint (JStr "d1") "oidc-agent" None 5 (-1)
    {| now := 0; startup := 0; script := [answered (token_reply demo_tokens) 0] |}
    = (Raised (TimeoutError timed_out_msg),
       initial_state 5
         {| now := 0; startup := 0;
            script := [answered (token_reply demo_tokens) 0] |}) /\
  sent (initial_state 5
          {| now := 0; startup := 0;
             script := [answered (token_reply demo_tokens) 0] |}) = [].
Proof.
  apply (negative_budget_sends_nothing (JStr "d1") "oidc-agent" None 5 (-1)
           {| now := 0; startup := 0;
              script := [answered (token_reply demo_tokens) 0] |}).
  lia.
Defined.

(** X8: a reply with another status than 200 and a JSON object whose
    [error] member is none of the five known codes, or is missing, ends the
    loop with a [RuntimeError] that carries the status and the body. *)
Theorem unknown_error_raises dc cid aud T began st r rest resp members :
  served r = Answer resp ->
  status_code resp <> 200 ->
  json_body resp = Some (JObj members) ->
  in_strs (default JNull (assoc "error" members))
    ["authorization_pending"; "slow_down"; "access_denied"; "expired_token";
     "invalid_grant"] = false ->
  clock st - began <= T * NS_PER_SEC ->
  poll_loop dc cid aud T began st (r :: rest)
    = (Raised (RuntimeError [Lit "Unexpected token response (";
                             FInt (status_code resp); Lit "): ";
                             FRepr (JObj members)]),
       posted dc cid aud st r).
Proof.
  intros Hserved Hstatus Hbody Hunknown Htime.
  rewrite poll_loop_in_time by exact Htime.
  unfold poll_iteration, resp_json. rewrite Hserved, Hbody.
  apply Z.eqb_neq in Hstatus. rewrite Hstatus. cbn [py_get].
  set (err := default JNull (assoc "error" members)) in *.
  unfold in_strs in *. cbn [existsb] in *.
  repeat (apply orb_false_elim in Hunknown as [? Hunknown]).
  repeat match goal with H : is_str err _ = false |- _ => rewrite H; clear H end.
  reflexivity.
Qed.

Lemma unknown_error_raises_witness :
  poll_loop (JStr "d1") "oidc-agent" None 900 0 (at_interval 5)
    (answered server_error_500 0 :: [])
    = (Raised (RuntimeError [Lit "Unexpected token response (";
                             FInt (status_code server_error_500); Lit "): ";
                             FRepr (JObj [])]),
       posted (JStr "d1") "oidc-agent" None (at_interval 5)
         (answered server_error_500 0)).
Proof.
  apply (unknown_error_raises (JStr "d1") "oidc-agent" None 900 0 (at_interval 5)
           (answered server_error_500 0) [] server_error_500 []).
  - reflexivity.
  - simpl. lia.
  - reflexivity.
  - reflexivity.
  - vm_compute. discriminate.
Defined.

(** ** Saving, again *)



(** X10: a save that returns has changed the disk in two places only: the
    target holds the dumped tokens and a final newline with mode 0600 (nothing
    for group or other), whatever was there before, and the temporary file is
    gone; every other path is as it was. *)
Theorem save_replaces_target_only umask tokens path (d d' : gmap string file) :
  save_tokens umask tokens path d = (Ok tt, d') ->
  d' !! path = Some {| mode := MODE_0600;
                       content := emit 0 tokens (String "010" "") |} /\
  Z.land MODE_0600 GROUP_OTHER = 0 /\
  d' !! tmp_of path = None /\
  forall p, p <> path -> p <> tmp_of path -> d' !! p = d !! p.
Proof.
  intros Hsave.
  destruct (save_tokens_cases umask tokens path d) as [[_ Hok]|[_ Hko]];
    rewrite Hsave in *; [|discriminate].
  injection Hok as ->.
  pose proof (tmp_of_neq path) as Hne.
  split; [apply lookup_insert_eq|].
  split; [reflexivity|]. split.
  - rewrite lookup_insert_ne by congruence. apply lookup_delete_eq.
  - intros p Hp Hp'. rewrite lookup_insert_ne by congruence.
    apply lookup_delete_ne. congruence.
Qed.

Lemma save_replaces_target_only_witness :
  let d' := snd (save_tokens 18 demo_tokens DEFAULT_TOKENS_PATH stale_disk) in
  d' !! DEFAULT_TOKENS_PATH
    = Some {| mode := MODE_0600;
              content := emit 0 demo_tokens (String "010" "") |} /\
  Z.land MODE_0600 GROUP_OTHER = 0 /\
  d' !! tmp_of DEFAULT_TOKENS_PATH = None /\
  forall p, p <> DEFAULT_TOKENS_PATH -> p <> tmp_of DEFAULT_TOKENS_PATH ->
            d' !! p = stale_disk !! p.
Proof.
  apply (save_replaces_target_only 18 demo_tokens DEFAULT_TOKENS_PATH stale_disk).
  vm_compute. reflexivity.
Defined.



(** X12: a temporary file that is in the way and closed to its owner stops
    the save with [PermissionError] before anything is written: the disk,
    the target included, stays as it was. *)
Theorem save_blocked_by_readonly_tmp umask tokens path (d : gmap string file) f :
  d !! tmp_of path = Some f ->
  owner_can_write f = false ->
  save_tokens umask tokens path d = (Raise (PermissionError (tmp_of path)), d) /\
  disk_states umask (save_tokens_calls tokens path) d = [].
Proof.
  intros Htmp Hw. unfold save_tokens, save_tokens_calls.
  cbn [run_calls disk_states exec]. rewrite Htmp, Hw. split; reflexivity.
Qed.

Lemma save_blocked_by_readonly_tmp_witness :
  save_tokens 18 demo_tokens DEFAULT_TOKENS_PATH locked_disk
    = (Raise (PermissionError (tmp_of DEFAULT_TOKENS_PATH)), locked_disk) /\
  disk_states 18 (save_tokens_calls demo_tokens DEFAULT_TOKENS_PATH) locked_disk = [].
Proof.
  apply (save_blocked_by_readonly_tmp 18 demo_tokens DEFAULT_TOKENS_PATH locked_disk
           {| mode := 292; content := "" |}).
  - vm_compute. reflexivity.
  - reflexivity.
Defined.

(** ** The commands *)








(** X15: [refresh] from a token file that is a JSON object without a
    refresh token (missing, null or empty) ends with exit status 2 and a
    line on stderr; nothing is sent and the disk is not touched. *)
Theorem refresh_without_stored_token (a : args) w stored :
  arg_action a = Refresh ->
  given (arg_token a) = None ->
  load_tokens (arg_file a) (disk w) = Ok (JObj stored) ->
  truthy (default JNull (assoc "refresh_token" stored)) = false ->
  main a w
    = (Some 2,
       {| time := time w; lag := lag w; net := net w; wire := wire w;
          umask := umask w; disk := disk w;
          console := console w ++
            [(Stderr, [Lit "No refresh_token found in the provided JSON."])] |}).
Proof.
  intros Haction Htoken Hload Hfalsy.
  unfold main, main_body. rewrite Haction.
  unfold main_refresh. rewrite Htoken.
  unfold andthen at 1 2 3. unfold lift at 1. rewrite Hload.
  unfold andthen at 1. unfold lift at 1. cbn [py_get].
  rewrite Hfalsy. reflexivity.
Qed.

Lemma refresh_without_stored_token_witness :
  main refresh_args (fresh_world [] access_only_disk)
    = (Some 2,
       {| time := time (fresh_world [] access_only_disk);
          lag := lag (fresh_world [] access_only_disk);
          net := net (fresh_world [] access_only_disk);
          wire := wire (fresh_world [] access_only_disk);
          umask := umask (fresh_world [] access_only_disk);
          disk := disk (fresh_world [] access_only_disk);
          console := console (fresh_world [] access_only_disk) ++
            [(Stderr, [Lit "No refresh_token found in the provided JSON."])] |}).
Proof.
  apply (refresh_without_stored_token refresh_args (fresh_world [] access_only_disk)
           [("access_token", JStr "a1"); ("refresh_token", JStr "")]).
  - reflexivity.
  - reflexivity.
  - vm_compute. reflexivity.
  - reflexivity.
Defined.

(** X16: [revoke] without a non-empty [--token] and a non-empty
    [--access-token] ends with exit status 2 and a line on stderr before
    anything is sent. *)
Theorem revoke_needs_both_tokens (a : args) w :
  arg_action a = Revoke ->
  given (arg_token a) = None \/ given (arg_access_token a) = None ->
  main a w
    = (Some 2,
       {| time := time w; lag := lag w; net := net w; wire := wire w;
          umask := umask w; disk := disk w;
          console := console w ++
            [(Stderr,
              [Lit "Both --token and --access-token are required for revoke action."])] |}).
Proof.
  intros Haction Hmissing.
  unfold main, main_body, main_revoke. rewrite Haction.
  destruct Hmissing as [-> | ->];
    [|destruct (given (arg_token a))]; reflexivity.
Qed.

Lemma revoke_needs_both_tokens_witness :
  main revoke_args_no_access refusing_world
    = (Some 2,
       {| time := time refusing_world; lag := lag refusing_world;
          net := net refusing_world; wire := wire refusing_world;
          umask := umask refusing_world; disk := disk refusing_world;
          console := console refusing_world ++
            [(Stderr,
              [Lit "Both --token and --access-token are required for revoke action."])] |}).
Proof.
  apply (revoke_needs_both_tokens revoke_args_no_access refusing_world).
  - reflexivity.
  - right. reflexivity.
Defined.

(** ** What reaches the disk *)

Lemma keeps_disk_ret {A} (a : A) : keeps_disk (ret a).
Proof. intros w. simpl. repeat split; discriminate. Qed.

Lemma keeps_disk_lift {A} (r : result A) : keeps_disk (lift r).
Proof. intros w. destruct r; simpl; repeat split; discriminate. Qed.

Lemma keeps_disk_exit {A} code : code <> 0 -> keeps_disk (@sys_exit A code).
Proof. intros H w. simpl. repeat split. congruence. Qed.

Lemma keeps_disk_print s msg : keeps_disk (print_to s msg).
Proof. intros w. simpl. repeat split; discriminate. Qed.

Lemma keeps_disk_post rq : keeps_disk (post rq).
Proof.
  intros w. unfold post. destruct (net w) as [|r rest]; simpl.
  - repeat split; discriminate.
  - destruct (served r); simpl; repeat split; discriminate.
Qed.

Lemma keeps_disk_andthen {A B} (m : prog A) (k : A -> prog B) :
  keeps_disk m -> (forall a, keeps_disk (k a)) -> keeps_disk (andthen m k).
Proof.
  intros Hm Hk w. unfold andthen.
  destruct (Hm w) as (Hd & Hu & Hx).
  destruct (m w) as [[a|e|c|] w1]; simpl in *.
  - destruct (Hk a w1) as (Hd' & Hu' & Hx'). repeat split; congruence.
  - repeat split; try assumption; discriminate.
  - repeat split; try assumption. intros [= ->]. apply Hx. reflexivity.
  - repeat split; try assumption; discriminate.
Qed.

(** The poll loop never leaves through [sys.exit]. *)
Lemma poll_loop_no_exit dc cid aud T began script : forall st code,
  fst (poll_loop dc cid aud T began st script) <> Exited code.
Proof.
  induction script as [|r script IH]; intros st code; simpl.
  - destruct (_ >? _); discriminate.
  - destruct (_ >? _); [discriminate|].
    destruct (poll_iteration dc cid aud st r) as [st'|o st'] eqn:Hstep.
    + apply IH.
    + simpl. intros ->. unfold poll_iteration in Hstep.
      repeat match type of Hstep with
             | context [match ?x with _ => _ end] => destruct x
             end; discriminate.
Qed.

Lemma keeps_disk_poll dc cid aud interval T : keeps_disk (poll dc cid aud interval T).
Proof.
  intros w. unfold poll.
  pose proof (poll_loop_no_exit dc cid aud T (time w) (net w)
                (initial_state interval {| now := time w; startup := lag w;
                                           script := net w |}) 0) as Hx.
  unfold poll_token_endpoint. cbn [now script] in *.
  destruct (poll_loop _ _ _ _ _ _ _) as [o st]. simpl in *.
  repeat split. exact Hx.
Qed.

Ltac keeps :=
  repeat first
    [ apply keeps_disk_ret | apply keeps_disk_lift | apply keeps_disk_print
    | apply keeps_disk_post | apply keeps_disk_poll
    | apply keeps_disk_exit; discriminate
    | apply keeps_disk_andthen; [|intros ?] ].

Lemma keeps_disk_start_device_flow cid scope aud :
  keeps_disk (start_device_flow cid scope aud).
Proof. unfold start_device_flow. keeps. Qed.

Lemma keeps_disk_run_device_flow cid scope aud :
  keeps_disk (run_device_flow cid scope aud).
Proof.
  unfold run_device_flow, print.
  apply keeps_disk_andthen; [keeps|intros ?].
  apply keeps_disk_andthen; [apply keeps_disk_start_device_flow|intros ?].
  keeps. destruct (assoc _ _); unfold print; keeps.
Qed.

Lemma keeps_disk_refresh_with_rt rt cid aud : keeps_disk (refresh_with_rt rt cid aud).
Proof.
  unfold refresh_with_rt. apply keeps_disk_andthen; [keeps|intros resp].
  destruct (negb _); keeps.
Qed.

Lemma keeps_disk_main_refresh (a : args) : keeps_disk (main_refresh a).
Proof.
  unfold main_refresh, print, eprint.
  apply keeps_disk_andthen; [|intros ?; keeps].
  destruct (given (arg_token a)).
  - apply keeps_disk_refresh_with_rt.
  - apply keeps_disk_andthen.
    + intros w. destruct (load_tokens _ _); simpl; repeat split; discriminate.
    + intros tokens. apply keeps_disk_andthen; [keeps|intros rt].
      destruct (truthy rt).
      * apply keeps_disk_andthen; [apply keeps_disk_refresh_with_rt|intros ?; keeps].
      * keeps.
Qed.

Lemma main_revoke_disk (a : args) w : disk (snd (main_revoke a w)) = disk w.
Proof.
  unfold main_revoke.
  destruct (given (arg_token a)); [destruct (given (arg_access_token a))|];
    try reflexivity.
  unfold andthen, revoke_token, post.
  destruct (net w) as [|r rest]; [reflexivity|].
  destruct (served r) as [resp|]; [|reflexivity].
  destruct (status_code resp =? 200); reflexivity.
Qed.

Lemma keeps_disk_obtain_tokens (a : args) : keeps_disk (obtain_tokens a).
Proof.
  unfold obtain_tokens. destruct (arg_action a);
    first [apply keeps_disk_main_refresh | apply keeps_disk_run_device_flow].
Qed.

(** How [main] ends for [new] and [refresh], by what came before the save. *)
Lemma main_saving_cases (a : args) w :
  arg_action a <> Revoke ->
  let tmp := tmp_of (arg_file a) in
  (exists tokens,
     fst (main a w) = Some 0 /\
     fst (obtain_tokens a w) = Returned tokens /\
     tmp_writable (arg_file a) (disk w) /\
     disk (snd (main a w)) = <[arg_file a := saved_file tokens]> (delete tmp (disk w))) \/
  (fst (main a w) <> Some 0 /\ disk (snd (main a w)) = disk w).
Proof.
  intros Haction tmp.
  assert (Hbody : main_body a
            = (do tokens <~ obtain_tokens a;
               run on_disk (fun umask d => save_tokens umask tokens (arg_file a) d);
               print [Lit "Tokens saved to: "; FStr (JStr (arg_file a));
                      Lit " (permissions 0600)"])).
  { unfold main_body, obtain_tokens. destruct (arg_action a); congruence. }
  unfold main. rewrite Hbody. unfold andthen, on_disk.
  destruct (keeps_disk_obtain_tokens a w) as (Hd & Hu & Hx).
  destruct (obtain_tokens a w) as [[tokens|e|c|] w1]; simpl in Hd, Hu, Hx.
  - rewrite Hd, Hu.
    destruct (save_tokens_cases (umask w) tokens (arg_file a) (disk w))
      as [[Hw ->]|[Hw ->]].
    + left. exists tokens. simpl. repeat split; try reflexivity; try exact Hw.
    + right. simpl. split; [discriminate|reflexivity].
  - right. simpl. split; [discriminate|exact Hd].
  - right. simpl. split; [congruence|exact Hd].
  - right. simpl. split; [discriminate|exact Hd].
Qed.

(** X17: nothing is written before the tokens are there.  The command
    [revoke] never touches the disk, and the commands [new] and [refresh]
    leave it exactly as they found it when the flow that obtains the tokens
    raises or exits instead of returning them: [save_tokens] is not reached,
    and the exit status is not 0. *)
Theorem no_tokens_no_write (a : args) w :
  arg_action a = Revoke \/ returned (fst (obtain_tokens a w)) = false ->
  disk (snd (main a w)) = disk w /\
  (arg_action a <> Revoke -> fst (main a w) <> Some 0).
Proof.
  intros Hcase.
  assert (Hdec : arg_action a = Revoke \/ arg_action a <> Revoke)
    by (destruct (arg_action a); [right|right|left]; congruence).
  destruct Hdec as [Hrev|Hrev].
  - split; [|congruence].
    pose proof (main_revoke_disk a w) as Hd.
    unfold main, main_body. rewrite Hrev.
    destruct (main_revoke a w) as [[x|e|c|] w1]; simpl in Hd; simpl; exact Hd.
  - destruct Hcase as [Hcase|Hcase]; [congruence|].
    destruct (main_saving_cases a w Hrev) as [(tokens & _ & Hret & _)|[H0 Hd]].
    + rewrite Hret in Hcase. discriminate.
    + split; [exact Hd|]. intros _. exact H0.
Qed.

Lemma no_tokens_no_write_witness :
  disk (snd (main refresh_args bad_grant_world)) = disk bad_grant_world /\
  (arg_action refresh_args <> Revoke ->
   fst (main refresh_args bad_grant_world) <> Some 0).
Proof.
  apply (no_tokens_no_write refresh_args bad_grant_world).
  right. vm_compute. reflexivity.
Defined.

(** X18: when [new] or [refresh] ends with exit status 0, the tokens it
    obtained were saved and that is all that happened to the disk: the target
    file holds them with mode 0600, the temporary file is gone, every other
    file is as before. *)
Theorem success_saves_obtained_tokens (a : args) w w' :
  arg_action a <> Revoke ->
  main a w = (Some 0, w') ->
  exists tokens,
    fst (obtain_tokens a w) = Returned tokens /\
    disk w' = <[arg_file a := saved_file tokens]>
                (delete (tmp_of (arg_file a)) (disk w)).
Proof.
  intros Haction Hmain.
  destruct (main_saving_cases a w Haction) as [(tokens & _ & Hgot & _ & Hd)|[H0 _]].
  - exists tokens. rewrite Hmain in Hd. split; [exact Hgot|exact Hd].
  - rewrite Hmain in H0. exfalso. apply H0. reflexivity.
Qed.

Lemma success_saves_obtained_tokens_witness :
  exists tokens,
    fst (obtain_tokens new_args approving_world) = Returned tokens /\
    disk (snd (main new_args approving_world))
      = <[arg_file new_args := saved_file tokens]>
          (delete (tmp_of (arg_file new_args)) (disk approving_world)).
Proof.
  apply (success_saves_obtained_tokens new_args approving_world
           (snd (main new_args approving_world))).
  - discriminate.
  - vm_compute. reflexivity.
Defined.

(** X19: when the device authorization request is answered with a 4xx or
    5xx status, [new] ends with exit status 1 and the HTTP error on stderr;
    the device request is the only one sent, no poll follows. *)
Theorem device_auth_http_error_ends_flow (a : args) w r rest resp :
  arg_action a = New ->
  net w = r :: rest ->
  served r = Answer resp ->
  400 <= status_code resp < 600 ->
  exists w',
    main a w = (Some 1, w') /\
    wire w' = wire w
                ++ [device_request (arg_client_id a) (arg_scope a) (arg_audience a)] /\
    net w' = rest /\
    disk w' = disk w /\
    console w' = console (device_asked a w r rest)
                   ++ [(Stderr, [Lit "ERROR: "; Lit "HTTP error ";
                                 FInt (status_code resp)])].
Proof.
  intros Haction Hnet Hserved Hstatus.
  assert (Hraise : raise_for_status resp = Raise (HTTPError (status_code resp))).
  { unfold raise_for_status.
    destruct (400 <=? status_code resp) eqn:E1; [|lia].
    destruct (status_code resp <? 600) eqn:E2; [reflexivity|lia]. }
  unfold main, main_body. rewrite Haction.
  unfold run_device_flow, start_device_flow, andthen, print, print_to, post.
  cbn [net]. rewrite Hnet, Hserved. unfold lift. rewrite Hraise.
  eexists. split; [reflexivity|]. simpl. repeat split; reflexivity.
Qed.

Lemma device_auth_http_error_ends_flow_witness :
  exists w',
    main new_args (fresh_world [answered forbidden_403 0] ∅) = (Some 1, w') /\
    wire w' = wire (fresh_world [answered forbidden_403 0] ∅)
                ++ [device_request (arg_client_id new_args) (arg_scope new_args)
                      (arg_audience new_args)] /\
    net w' = [] /\
    disk w' = disk (fresh_world [answered forbidden_403 0] ∅) /\
    console w'
      = console (device_asked new_args (fresh_world [answered forbidden_403 0] ∅)
                   (answered forbidden_403 0) [])
          ++ [(Stderr, [Lit "ERROR: "; Lit "HTTP error ";
                        FInt (status_code forbidden_403)])].
Proof.
  apply (device_auth_http_error_ends_flow new_args
           (fresh_world [answered forbidden_403 0] ∅)
           (answered forbidden_403 0) [] forbidden_403).
  - reflexivity.
  - reflexivity.
  - reflexivity.
  - simpl. lia.
Defined.

(** X20: when the device authorization response is a JSON object without a
    [device_code], [new] ends with exit status 1 on the [KeyError]; no token
    request is ever sent. *)
Theorem missing_device_code_ends_flow (a : args) w r rest resp members :
  arg_action a = New ->
  net w = r :: rest ->
  served r = Answer resp ->
  raise_for_status resp = Ok tt ->
  json_body resp = Some (JObj members) ->
  assoc "device_code" members = None ->
  exists w',
    main a w = (Some 1, w') /\
    wire w' = wire w
                ++ [device_request (arg_client_id a) (arg_scope a) (arg_audience a)] /\
    net w' = rest /\
    disk w' = disk w /\
    console w' = console (device_asked a w r rest)
                   ++ [(Stderr, [Lit "ERROR: "; FRepr (JStr "device_code")])].
Proof.
  intros Haction Hnet Hserved Hraise Hbody Hcode.
  unfold main, main_body. rewrite Haction.
  unfold run_device_flow, start_device_flow, andthen, print, print_to, post.
  cbn [net]. rewrite Hnet, Hserved. unfold lift. rewrite Hraise.
  unfold resp_json. rewrite Hbody. unfold poll_call_of. cbn [py_index].
  rewrite Hcode. cbn [mbind result_bind].
  eexists. split; [reflexivity|]. simpl. repeat split; reflexivity.
Qed.

Lemma missing_device_code_ends_flow_witness :
  exists w',
    main new_args (fresh_world [answered codeless_reply 0; answered pending_400 0] ∅)
      = (Some 1, w') /\
    wire w' = wire (fresh_world [answered codeless_reply 0; answered pending_400 0] ∅)
                ++ [device_request (arg_client_id new_args) (arg_scope new_args)
                      (arg_audience new_args)] /\
    net w' = [answered pending_400 0] /\
    disk w' = disk (fresh_world [answered codeless_reply 0; answered pending_400 0] ∅) /\
    console w'
      = console (device_asked new_args
                   (fresh_world [answered codeless_reply 0; answered pending_400 0] ∅)
                   (answered codeless_reply 0) [answered pending_400 0])
          ++ [(Stderr, [Lit "ERROR: "; FRepr (JStr "device_code")])].
Proof.
  apply (missing_device_code_ends_flow new_args
           (fresh_world [answered codeless_reply 0; answered pending_400 0] ∅)
           (answered codeless_reply 0) [answered pending_400 0] codeless_reply
           [("user_code", JStr "U1"); ("interval", JInt 5)]).
  - reflexivity.
  - reflexivity.
  - reflexivity.
  - reflexivity.
  - reflexivity.
  - reflexivity.
Defined.

(** X21: [refresh] without [--token] whose token file cannot be loaded
    (missing, unreadable or not JSON) ends with exit status 1 and the error
    on stderr; nothing is sent and nothing else changes. *)
Theorem refresh_unloadable_file (a : args) w e :
  arg_action a = Refresh ->
  given (arg_token a) = None ->
  load_tokens (arg_file a) (disk w) = Raise e ->
  main a w
    = (Some 1,
       {| time := time w; lag := lag w; net := net w; wire := wire w;
          umask := umask w; disk := disk w;
          console := console w ++ [(Stderr, Lit "ERROR: " :: exn_text e)] |}).
Proof.
  intros Haction Htoken Hload.
  unfold main, main_body. rewrite Haction.
  unfold main_refresh. rewrite Htoken.
  unfold andthen at 1 2 3. unfold lift at 1. rewrite Hload. reflexivity.
Qed.

Lemma refresh_unloadable_file_witness :
  main refresh_args (fresh_world [answered (token_reply demo_tokens) 0] ∅)
    = (Some 1,
       {| time := time (fresh_world [answered (token_reply demo_tokens) 0] ∅);
          lag := lag (fresh_world [answered (token_reply demo_tokens) 0] ∅);
          net := net (fresh_world [answered (token_reply demo_tokens) 0] ∅);
          wire := wire (fresh_world [answered (token_reply demo_tokens) 0] ∅);
          umask := umask (fresh_world [answered (token_reply demo_tokens) 0] ∅);
          disk := disk (fresh_world [answered (token_reply demo_tokens) 0] ∅);
          console := console (fresh_world [answered (token_reply demo_tokens) 0] ∅)
            ++ [(Stderr, Lit "ERROR: "
                           :: exn_text (FileNotFoundError DEFAULT_TOKENS_PATH))] |}).
Proof.
  apply (refresh_unloadable_file refresh_args
           (fresh_world [answered (token_reply demo_tokens) 0] ∅)
           (FileNotFoundError DEFAULT_TOKENS_PATH)).
  - reflexivity.
  - reflexivity.
  - reflexivity.
Defined.
